(** * pi_C_867_2U2: the C-867.2U2 two-axis stage adaptor, embedded in Rocq

    A shallow embedding of [src/pi_C_867_2U2.py] (class [Controller]):
    the serial transaction ([_send], [_check_errors]), the move life cycle
    ([_finish_moving], [move_mm]) and the parameter setters.

    - Python [float] is IEEE binary64: the kernel's primitive [float].
    - Python [int] is [Z]; [bytes] is [list byte]; [str] is [string].
    - [self] is the record [Controller]; a method is a function from the
      record to an outcome and the record after the call, so that what a
      call has already assigned survives the exception it raises.
    - [self.port] is a scripted serial line (see [Port]).
    - [print] and the [verbose] flags have no effect on [self] or on the
      line and are left out. *)

From Stdlib Require Import ZArith List String Ascii Strings.Byte Floats Bool Lia.
From Stdlib Require Import DecimalString.
Import ListNotations.
Open Scope string_scope.
Open Scope list_scope.
Open Scope Z_scope.

(** ** Exceptions and outcomes *)

(** The [assert] statement that failed; Python reports it as the line of the
    traceback. *)
Inductive assert_site : Type :=
| AssertTerminator        (* _send: response.endswith(b'\n') *)
| AssertInWaiting         (* _send: self.port.in_waiting == 0 *)
| AssertLimitX            (* move_mm: x_min <= x <= x_max *)
| AssertLimitY            (* move_mm: y_min <= y <= y_max *)
| AssertToleranceMax      (* set_positional_tolerance_um: upper bound *)
| AssertToleranceMargin   (* set_positional_tolerance_um: lower bound *)
| AssertSettlingTime
| AssertVelocity
| AssertAcceleration
| AssertDeceleration.

Inductive exn : Type :=
| AssertionError (site : assert_site)
| RuntimeError (prefix : string) (err : string)   (* the two args of the raise *)
| OverflowError
| ValueError
| ZeroDivisionError
| IndexError
| UnicodeEncodeError
| UnicodeDecodeError.

(** [Diverge] is a loop that was cut off by its fuel. *)
Inductive outcome (A : Type) : Type :=
| Return (a : A)
| Raise (e : exn)
| Diverge.
Arguments Return {A} a.
Arguments Raise {A} e.
Arguments Diverge {A}.

(** ** Python numbers *)

Module Py.

(** [int(f)] for a float [f]: truncation toward zero. *)
Definition int (f : float) : outcome Z :=
  match Prim2SF f with
  | S754_zero _ => Return 0
  | S754_finite s m e =>
      let a := Z.shiftl (Zpos m) e in Return (if s then - a else a)
  | S754_infinity _ => Raise OverflowError
  | S754_nan => Raise ValueError
  end.

(** [float(z)] for an int [z], also the implicit conversion of an int
    operand: round to nearest even, [OverflowError] beyond the largest float. *)
Definition float_of_int (z : Z) : outcome float :=
  match binary_normalize prec emax z 0 false with
  | S754_infinity _ => Raise OverflowError
  | sf => Return (SF2Prim sf)
  end.

(** [a / b] on floats. *)
Definition div (a b : float) : outcome float :=
  if PrimFloat.eqb b 0%float then Raise ZeroDivisionError
  else Return (a / b)%float.

(** ['%i' % z] for an int. *)
Definition fmt_i (z : Z) : string := NilZero.string_of_int (Z.to_int z).

(** ['%i' % f] for a float: [int(f)] is printed. *)
Definition fmt_i_float (f : float) : outcome string :=
  match int f with
  | Return z => Return (fmt_i z)
  | Raise e => Raise e
  | Diverge => Diverge
  end.

Definition round_half_even (n d : Z) : Z :=
  let q := n / d in
  match 2 * (n mod d) ?= d with
  | Lt => q
  | Eq => if Z.even q then q else q + 1
  | Gt => q + 1
  end.

(** The digits of [n] left-padded with zeros to [k] places, [0 <= n < 10^k]. *)
Definition pad (k : nat) (n : Z) : string :=
  match NilZero.string_of_uint (N.to_uint (Z.to_N (10 ^ Z.of_nat k + n))) with
  | String _ s => s
  | EmptyString => EmptyString
  end.

Definition sign_str (s : bool) : string := if s then "-" else "".

(** ['%0.9f' % f]: the exact value of [f] rounded (half to even) to nine
    decimals. *)
Definition fmt_9f (f : float) : string :=
  match Prim2SF f with
  | S754_nan => "nan"
  | S754_infinity s => (sign_str s ++ "inf")%string
  | S754_zero s => (sign_str s ++ "0.000000000")%string
  | S754_finite s m e =>
      let n := if 0 <=? e then Zpos m * 2 ^ e * 10 ^ 9
               else round_half_even (Zpos m * 10 ^ 9) (2 ^ (- e)) in
      (sign_str s ++ NilZero.string_of_uint (N.to_uint (Z.to_N (n / 10 ^ 9)))
        ++ "." ++ pad 9 (n mod 10 ^ 9))%string
  end.

(** Float literals of the source. *)
Definition f1e3 : float := 1000%float.
Definition f1e_3 : float := 0x1.0624dd2f1a9fcp-10%float.   (* 1e-3 *)
Definition f0_1 : float := 0x1.999999999999ap-4%float.     (* 0.1 *)

End Py.

(** ** Bytes and strings *)

Definition LF : byte := x0a.
Definition SP : byte := x20.

(** [b.endswith(b'\n')] *)
Definition endswith_LF (b : list byte) : bool :=
  match rev b with
  | c :: _ => Byte.eqb c LF
  | [] => false
  end.

(** The whitespace of [bytes.rstrip()]: space, \t, \n, \v, \f, \r. *)
Definition is_space (c : byte) : bool :=
  match c with
  | x20 | x09 | x0a | x0b | x0c | x0d => true
  | _ => false
  end.

Fixpoint lstrip (b : list byte) : list byte :=
  match b with
  | c :: b' => if is_space c then lstrip b' else b
  | [] => []
  end.

Definition rstrip (b : list byte) : list byte := rev (lstrip (rev b)).

Definition is_ascii (b : list byte) : bool :=
  forallb (fun c => (Byte.to_N c <? 128)%N) b.

(** [b.decode('ascii')] *)
Definition decode (b : list byte) : outcome string :=
  if is_ascii b then Return (string_of_list_byte b) else Raise UnicodeDecodeError.

(** [bytes(s, encoding='ascii')] *)
Definition encode (s : string) : outcome (list byte) :=
  let b := list_byte_of_string s in
  if is_ascii b then Return b else Raise UnicodeEncodeError.

(** [b[-2]] *)
Definition byte_m2 (b : list byte) : option byte := nth_error (rev b) 1.

Definition bytes_eqb (a b : list byte) : bool :=
  if list_eq_dec Byte.byte_eq_dec a b then true else false.

(** [s.split('=')] *)
Fixpoint split_eq (s : string) : list string :=
  match s with
  | EmptyString => [EmptyString]
  | String c s' =>
      if Ascii.eqb c "="%char then EmptyString :: split_eq s'
      else match split_eq s' with
           | w :: ws => String c w :: ws
           | [] => [String c EmptyString]
           end
  end.

(** ** The serial line

    [serial.Serial] is outside the repository.  The line is scripted: the
    device answers each [write] with the next reply of [script] (an empty
    reply for a command that has none), and a reply is in the input buffer
    when [write] returns.  A read that finds too few bytes returns what is
    there when the 5 s timeout expires. *)

Record Port : Type := {
  written : list (list byte);   (* the argument of every write, oldest first *)
  in_buf : list byte;           (* received and not yet read *)
  script : list (list byte)     (* replies to the writes to come *)
}.

Module Serial.

Definition write (data : list byte) (p : Port) : Port :=
  {| written := written p ++ [data];
     in_buf := in_buf p ++ hd [] (script p);
     script := tl (script p) |}.

(** Splits at the first [\n], which stays with the line. *)
Fixpoint take_line (b : list byte) : list byte * list byte :=
  match b with
  | [] => ([], [])
  | c :: b' =>
      if Byte.eqb c LF then ([c], b')
      else let (l, r) := take_line b' in (c :: l, r)
  end.

Definition readline (p : Port) : list byte * Port :=
  let (l, r) := take_line (in_buf p) in
  (l, {| written := written p; in_buf := r; script := script p |}).

Definition read (n : nat) (p : Port) : list byte * Port :=
  (firstn n (in_buf p),
   {| written := written p; in_buf := skipn n (in_buf p); script := script p |}).

Definition in_waiting (p : Port) : nat := List.length (in_buf p).

End Serial.

(** ** The controller object

    The attributes of [self] that the methods below read or assign, under
    their source names ([Self.x self] is [self.x]). *)

Module Self.

Record Controller : Type := {
  name : string;
  port : Port;
  error : list byte;
  x_ecpu : float;
  y_ecpu : float;
  x : float;
  y : float;
  x_min : float;
  y_min : float;
  x_max : float;
  y_max : float;
  xptc : Z;
  yptc : Z;
  xpt : float;
  ypt : float;
  xptc_max : Z;
  yptc_max : Z;
  xpt_max : float;
  ypt_max : float;
  xst : float;
  yst : float;
  xv : float;
  yv : float;
  xv_max : float;
  yv_max : float;
  xa : float;
  ya : float;
  xa_max : float;
  ya_max : float;
  xd : float;
  yd : float;
  xd_max : float;
  yd_max : float;
  _servo_enabled : bool;
  _joystick_enabled : bool;
  _moving : bool
}.

(** [self.<field> = v] *)
Definition set_port (v : Port) (s : Controller) : Controller :=
  {| name := name s; port := v; error := error s; x_ecpu := x_ecpu s;
     y_ecpu := y_ecpu s; x := x s; y := y s; x_min := x_min s;
     y_min := y_min s; x_max := x_max s; y_max := y_max s; xptc := xptc s;
     yptc := yptc s; xpt := xpt s; ypt := ypt s; xptc_max := xptc_max s;
     yptc_max := yptc_max s; xpt_max := xpt_max s; ypt_max := ypt_max s;
     xst := xst s; yst := yst s; xv := xv s; yv := yv s; xv_max := xv_max s;
     yv_max := yv_max s; xa := xa s; ya := ya s; xa_max := xa_max s;
     ya_max := ya_max s; xd := xd s; yd := yd s; xd_max := xd_max s;
     yd_max := yd_max s; _servo_enabled := _servo_enabled s;
     _joystick_enabled := _joystick_enabled s; _moving := _moving s |}.

Definition set_error (v : list byte) (s : Controller) : Controller :=
  {| name := name s; port := port s; error := v; x_ecpu := x_ecpu s;
     y_ecpu := y_ecpu s; x := x s; y := y s; x_min := x_min s;
     y_min := y_min s; x_max := x_max s; y_max := y_max s; xptc := xptc s;
     yptc := yptc s; xpt := xpt s; ypt := ypt s; xptc_max := xptc_max s;
     yptc_max := yptc_max s; xpt_max := xpt_max s; ypt_max := ypt_max s;
     xst := xst s; yst := yst s; xv := xv s; yv := yv s; xv_max := xv_max s;
     yv_max := yv_max s; xa := xa s; ya := ya s; xa_max := xa_max s;
     ya_max := ya_max s; xd := xd s; yd := yd s; xd_max := xd_max s;
     yd_max := yd_max s; _servo_enabled := _servo_enabled s;
     _joystick_enabled := _joystick_enabled s; _moving := _moving s |}.

Definition set_x (v : float) (s : Controller) : Controller :=
  {| name := name s; port := port s; error := error s; x_ecpu := x_ecpu s;
     y_ecpu := y_ecpu s; x := v; y := y s; x_min := x_min s; y_min := y_min s;
     x_max := x_max s; y_max := y_max s; xptc := xptc s; yptc := yptc s;
     xpt := xpt s; ypt := ypt s; xptc_max := xptc_max s;
     yptc_max := yptc_max s; xpt_max := xpt_max s; ypt_max := ypt_max s;
     xst := xst s; yst := yst s; xv := xv s; yv := yv s; xv_max := xv_max s;
     yv_max := yv_max s; xa := xa s; ya := ya s; xa_max := xa_max s;
     ya_max := ya_max s; xd := xd s; yd := yd s; xd_max := xd_max s;
     yd_max := yd_max s; _servo_enabled := _servo_enabled s;
     _joystick_enabled := _joystick_enabled s; _moving := _moving s |}.

Definition set_y (v : float) (s : Controller) : Controller :=
  {| name := name s; port := port s; error := error s; x_ecpu := x_ecpu s;
     y_ecpu := y_ecpu s; x := x s; y := v; x_min := x_min s; y_min := y_min s;
     x_max := x_max s; y_max := y_max s; xptc := xptc s; yptc := yptc s;
     xpt := xpt s; ypt := ypt s; xptc_max := xptc_max s;
     yptc_max := yptc_max s; xpt_max := xpt_max s; ypt_max := ypt_max s;
     xst := xst s; yst := yst s; xv := xv s; yv := yv s; xv_max := xv_max s;
     yv_max := yv_max s; xa := xa s; ya := ya s; xa_max := xa_max s;
     ya_max := ya_max s; xd := xd s; yd := yd s; xd_max := xd_max s;
     yd_max := yd_max s; _servo_enabled := _servo_enabled s;
     _joystick_enabled := _joystick_enabled s; _moving := _moving s |}.

Definition set_xptc (v : Z) (s : Controller) : Controller :=
  {| name := name s; port := port s; error := error s; x_ecpu := x_ecpu s;
     y_ecpu := y_ecpu s; x := x s; y := y s; x_min := x_min s;
     y_min := y_min s; x_max := x_max s; y_max := y_max s; xptc := v;
     yptc := yptc s; xpt := xpt s; ypt := ypt s; xptc_max := xptc_max s;
     yptc_max := yptc_max s; xpt_max := xpt_max s; ypt_max := ypt_max s;
     xst := xst s; yst := yst s; xv := xv s; yv := yv s; xv_max := xv_max s;
     yv_max := yv_max s; xa := xa s; ya := ya s; xa_max := xa_max s;
     ya_max := ya_max s; xd := xd s; yd := yd s; xd_max := xd_max s;
     yd_max := yd_max s; _servo_enabled := _servo_enabled s;
     _joystick_enabled := _joystick_enabled s; _moving := _moving s |}.

Definition set_yptc (v : Z) (s : Controller) : Controller :=
  {| name := name s; port := port s; error := error s; x_ecpu := x_ecpu s;
     y_ecpu := y_ecpu s; x := x s; y := y s; x_min := x_min s;
     y_min := y_min s; x_max := x_max s; y_max := y_max s; xptc := xptc s;
     yptc := v; xpt := xpt s; ypt := ypt s; xptc_max := xptc_max s;
     yptc_max := yptc_max s; xpt_max := xpt_max s; ypt_max := ypt_max s;
     xst := xst s; yst := yst s; xv := xv s; yv := yv s; xv_max := xv_max s;
     yv_max := yv_max s; xa := xa s; ya := ya s; xa_max := xa_max s;
     ya_max := ya_max s; xd := xd s; yd := yd s; xd_max := xd_max s;
     yd_max := yd_max s; _servo_enabled := _servo_enabled s;
     _joystick_enabled := _joystick_enabled s; _moving := _moving s |}.

Definition set_xpt (v : float) (s : Controller) : Controller :=
  {| name := name s; port := port s; error := error s; x_ecpu := x_ecpu s;
     y_ecpu := y_ecpu s; x := x s; y := y s; x_min := x_min s;
     y_min := y_min s; x_max := x_max s; y_max := y_max s; xptc := xptc s;
     yptc := yptc s; xpt := v; ypt := ypt s; xptc_max := xptc_max s;
     yptc_max := yptc_max s; xpt_max := xpt_max s; ypt_max := ypt_max s;
     xst := xst s; yst := yst s; xv := xv s; yv := yv s; xv_max := xv_max s;
     yv_max := yv_max s; xa := xa s; ya := ya s; xa_max := xa_max s;
     ya_max := ya_max s; xd := xd s; yd := yd s; xd_max := xd_max s;
     yd_max := yd_max s; _servo_enabled := _servo_enabled s;
     _joystick_enabled := _joystick_enabled s; _moving := _moving s |}.

Definition set_ypt (v : float) (s : Controller) : Controller :=
  {| name := name s; port := port s; error := error s; x_ecpu := x_ecpu s;
     y_ecpu := y_ecpu s; x := x s; y := y s; x_min := x_min s;
     y_min := y_min s; x_max := x_max s; y_max := y_max s; xptc := xptc s;
     yptc := yptc s; xpt := xpt s; ypt := v; xptc_max := xptc_max s;
     yptc_max := yptc_max s; xpt_max := xpt_max s; ypt_max := ypt_max s;
     xst := xst s; yst := yst s; xv := xv s; yv := yv s; xv_max := xv_max s;
     yv_max := yv_max s; xa := xa s; ya := ya s; xa_max := xa_max s;
     ya_max := ya_max s; xd := xd s; yd := yd s; xd_max := xd_max s;
     yd_max := yd_max s; _servo_enabled := _servo_enabled s;
     _joystick_enabled := _joystick_enabled s; _moving := _moving s |}.

Definition set_xst (v : float) (s : Controller) : Controller :=
  {| name := name s; port := port s; error := error s; x_ecpu := x_ecpu s;
     y_ecpu := y_ecpu s; x := x s; y := y s; x_min := x_min s;
     y_min := y_min s; x_max := x_max s; y_max := y_max s; xptc := xptc s;
     yptc := yptc s; xpt := xpt s; ypt := ypt s; xptc_max := xptc_max s;
     yptc_max := yptc_max s; xpt_max := xpt_max s; ypt_max := ypt_max s;
     xst := v; yst := yst s; xv := xv s; yv := yv s; xv_max := xv_max s;
     yv_max := yv_max s; xa := xa s; ya := ya s; xa_max := xa_max s;
     ya_max := ya_max s; xd := xd s; yd := yd s; xd_max := xd_max s;
     yd_max := yd_max s; _servo_enabled := _servo_enabled s;
     _joystick_enabled := _joystick_enabled s; _moving := _moving s |}.

Definition set_yst (v : float) (s : Controller) : Controller :=
  {| name := name s; port := port s; error := error s; x_ecpu := x_ecpu s;
     y_ecpu := y_ecpu s; x := x s; y := y s; x_min := x_min s;
     y_min := y_min s; x_max := x_max s; y_max := y_max s; xptc := xptc s;
     yptc := yptc s; xpt := xpt s; ypt := ypt s; xptc_max := xptc_max s;
     yptc_max := yptc_max s; xpt_max := xpt_max s; ypt_max := ypt_max s;
     xst := xst s; yst := v; xv := xv s; yv := yv s; xv_max := xv_max s;
     yv_max := yv_max s; xa := xa s; ya := ya s; xa_max := xa_max s;
     ya_max := ya_max s; xd := xd s; yd := yd s; xd_max := xd_max s;
     yd_max := yd_max s; _servo_enabled := _servo_enabled s;
     _joystick_enabled := _joystick_enabled s; _moving := _moving s |}.

Definition set_xv (v : float) (s : Controller) : Controller :=
  {| name := name s; port := port s; error := error s; x_ecpu := x_ecpu s;
     y_ecpu := y_ecpu s; x := x s; y := y s; x_min := x_min s;
     y_min := y_min s; x_max := x_max s; y_max := y_max s; xptc := xptc s;
     yptc := yptc s; xpt := xpt s; ypt := ypt s; xptc_max := xptc_max s;
     yptc_max := yptc_max s; xpt_max := xpt_max s; ypt_max := ypt_max s;
     xst := xst s; yst := yst s; xv := v; yv := yv s; xv_max := xv_max s;
     yv_max := yv_max s; xa := xa s; ya := ya s; xa_max := xa_max s;
     ya_max := ya_max s; xd := xd s; yd := yd s; xd_max := xd_max s;
     yd_max := yd_max s; _servo_enabled := _servo_enabled s;
     _joystick_enabled := _joystick_enabled s; _moving := _moving s |}.

Definition set_yv (v : float) (s : Controller) : Controller :=
  {| name := name s; port := port s; error := error s; x_ecpu := x_ecpu s;
     y_ecpu := y_ecpu s; x := x s; y := y s; x_min := x_min s;
     y_min := y_min s; x_max := x_max s; y_max := y_max s; xptc := xptc s;
     yptc := yptc s; xpt := xpt s; ypt := ypt s; xptc_max := xptc_max s;
     yptc_max := yptc_max s; xpt_max := xpt_max s; ypt_max := ypt_max s;
     xst := xst s; yst := yst s; xv := xv s; yv := v; xv_max := xv_max s;
     yv_max := yv_max s; xa := xa s; ya := ya s; xa_max := xa_max s;
     ya_max := ya_max s; xd := xd s; yd := yd s; xd_max := xd_max s;
     yd_max := yd_max s; _servo_enabled := _servo_enabled s;
     _joystick_enabled := _joystick_enabled s; _moving := _moving s |}.

Definition set_xa (v : float) (s : Controller) : Controller :=
  {| name := name s; port := port s; error := error s; x_ecpu := x_ecpu s;
     y_ecpu := y_ecpu s; x := x s; y := y s; x_min := x_min s;
     y_min := y_min s; x_max := x_max s; y_max := y_max s; xptc := xptc s;
     yptc := yptc s; xpt := xpt s; ypt := ypt s; xptc_max := xptc_max s;
     yptc_max := yptc_max s; xpt_max := xpt_max s; ypt_max := ypt_max s;
     xst := xst s; yst := yst s; xv := xv s; yv := yv s; xv_max := xv_max s;
     yv_max := yv_max s; xa := v; ya := ya s; xa_max := xa_max s;
     ya_max := ya_max s; xd := xd s; yd := yd s; xd_max := xd_max s;
     yd_max := yd_max s; _servo_enabled := _servo_enabled s;
     _joystick_enabled := _joystick_enabled s; _moving := _moving s |}.

Definition set_ya (v : float) (s : Controller) : Controller :=
  {| name := name s; port := port s; error := error s; x_ecpu := x_ecpu s;
     y_ecpu := y_ecpu s; x := x s; y := y s; x_min := x_min s;
     y_min := y_min s; x_max := x_max s; y_max := y_max s; xptc := xptc s;
     yptc := yptc s; xpt := xpt s; ypt := ypt s; xptc_max := xptc_max s;
     yptc_max := yptc_max s; xpt_max := xpt_max s; ypt_max := ypt_max s;
     xst := xst s; yst := yst s; xv := xv s; yv := yv s; xv_max := xv_max s;
     yv_max := yv_max s; xa := xa s; ya := v; xa_max := xa_max s;
     ya_max := ya_max s; xd := xd s; yd := yd s; xd_max := xd_max s;
     yd_max := yd_max s; _servo_enabled := _servo_enabled s;
     _joystick_enabled := _joystick_enabled s; _moving := _moving s |}.

Definition set_xd (v : float) (s : Controller) : Controller :=
  {| name := name s; port := port s; error := error s; x_ecpu := x_ecpu s;
     y_ecpu := y_ecpu s; x := x s; y := y s; x_min := x_min s;
     y_min := y_min s; x_max := x_max s; y_max := y_max s; xptc := xptc s;
     yptc := yptc s; xpt := xpt s; ypt := ypt s; xptc_max := xptc_max s;
     yptc_max := yptc_max s; xpt_max := xpt_max s; ypt_max := ypt_max s;
     xst := xst s; yst := yst s; xv := xv s; yv := yv s; xv_max := xv_max s;
     yv_max := yv_max s; xa := xa s; ya := ya s; xa_max := xa_max s;
     ya_max := ya_max s; xd := v; yd := yd s; xd_max := xd_max s;
     yd_max := yd_max s; _servo_enabled := _servo_enabled s;
     _joystick_enabled := _joystick_enabled s; _moving := _moving s |}.

Definition set_yd (v : float) (s : Controller) : Controller :=
  {| name := name s; port := port s; error := error s; x_ecpu := x_ecpu s;
     y_ecpu := y_ecpu s; x := x s; y := y s; x_min := x_min s;
     y_min := y_min s; x_max := x_max s; y_max := y_max s; xptc := xptc s;
     yptc := yptc s; xpt := xpt s; ypt := ypt s; xptc_max := xptc_max s;
     yptc_max := yptc_max s; xpt_max := xpt_max s; ypt_max := ypt_max s;
     xst := xst s; yst := yst s; xv := xv s; yv := yv s; xv_max := xv_max s;
     yv_max := yv_max s; xa := xa s; ya := ya s; xa_max := xa_max s;
     ya_max := ya_max s; xd := xd s; yd := v; xd_max := xd_max s;
     yd_max := yd_max s; _servo_enabled := _servo_enabled s;
     _joystick_enabled := _joystick_enabled s; _moving := _moving s |}.

Definition set__servo_enabled (v : bool) (s : Controller) : Controller :=
  {| name := name s; port := port s; error := error s; x_ecpu := x_ecpu s;
     y_ecpu := y_ecpu s; x := x s; y := y s; x_min := x_min s;
     y_min := y_min s; x_max := x_max s; y_max := y_max s; xptc := xptc s;
     yptc := yptc s; xpt := xpt s; ypt := ypt s; xptc_max := xptc_max s;
     yptc_max := yptc_max s; xpt_max := xpt_max s; ypt_max := ypt_max s;
     xst := xst s; yst := yst s; xv := xv s; yv := yv s; xv_max := xv_max s;
     yv_max := yv_max s; xa := xa s; ya := ya s; xa_max := xa_max s;
     ya_max := ya_max s; xd := xd s; yd := yd s; xd_max := xd_max s;
     yd_max := yd_max s; _servo_enabled := v;
     _joystick_enabled := _joystick_enabled s; _moving := _moving s |}.

Definition set__joystick_enabled (v : bool) (s : Controller) : Controller :=
  {| name := name s; port := port s; error := error s; x_ecpu := x_ecpu s;
     y_ecpu := y_ecpu s; x := x s; y := y s; x_min := x_min s;
     y_min := y_min s; x_max := x_max s; y_max := y_max s; xptc := xptc s;
     yptc := yptc s; xpt := xpt s; ypt := ypt s; xptc_max := xptc_max s;
     yptc_max := yptc_max s; xpt_max := xpt_max s; ypt_max := ypt_max s;
     xst := xst s; yst := yst s; xv := xv s; yv := yv s; xv_max := xv_max s;
     yv_max := yv_max s; xa := xa s; ya := ya s; xa_max := xa_max s;
     ya_max := ya_max s; xd := xd s; yd := yd s; xd_max := xd_max s;
     yd_max := yd_max s; _servo_enabled := _servo_enabled s;
     _joystick_enabled := v; _moving := _moving s |}.

Definition set__moving (v : bool) (s : Controller) : Controller :=
  {| name := name s; port := port s; error := error s; x_ecpu := x_ecpu s;
     y_ecpu := y_ecpu s; x := x s; y := y s; x_min := x_min s;
     y_min := y_min s; x_max := x_max s; y_max := y_max s; xptc := xptc s;
     yptc := yptc s; xpt := xpt s; ypt := ypt s; xptc_max := xptc_max s;
     yptc_max := yptc_max s; xpt_max := xpt_max s; ypt_max := ypt_max s;
     xst := xst s; yst := yst s; xv := xv s; yv := yv s; xv_max := xv_max s;
     yv_max := yv_max s; xa := xa s; ya := ya s; xa_max := xa_max s;
     ya_max := ya_max s; xd := xd s; yd := yd s; xd_max := xd_max s;
     yd_max := yd_max s; _servo_enabled := _servo_enabled s;
     _joystick_enabled := _joystick_enabled s; _moving := v |}.

End Self.

Abbreviation Controller := Self.Controller.

(** ** Methods as state transformers *)

Definition M (A : Type) : Type := Controller -> outcome A * Controller.

Definition ret {A} (a : A) : M A := fun s => (Return a, s).

Definition bind {A B} (m : M A) (k : A -> M B) : M B :=
  fun s =>
    match m s with
    | (Return a, s') => k a s'
    | (Raise e, s') => (Raise e, s')
    | (Diverge, s') => (Diverge, s')
    end.

Definition raise {A} (e : exn) : M A := fun s => (Raise e, s).
Definition diverge {A} : M A := fun s => (Diverge, s).
Definition lift {A} (o : outcome A) : M A := fun s => (o, s).
Definition get {A} (f : Controller -> A) : M A := fun s => (Return (f s), s).
Definition modify (f : Controller -> Controller) : M unit :=
  fun s => (Return tt, f s).

(** [assert b] *)
Definition assert (b : bool) (site : assert_site) : M unit :=
  if b then ret tt else raise (AssertionError site).

Notation "x <- m ;; k" := (bind m (fun x => k))
  (at level 61, m at next level, right associativity).
Notation "m ;; k" := (bind m (fun _ => k))
  (at level 61, right associativity).

Definition obind {A B} (o : outcome A) (k : A -> outcome B) : outcome B :=
  match o with
  | Return a => k a
  | Raise e => Raise e
  | Diverge => Diverge
  end.

(** The byte string of an ASCII literal of the source. *)
Definition b (s : string) : list byte := list_byte_of_string s.

(** [self.port.write], [self.port.readline], [self.port.read],
    [self.port.in_waiting] *)
Definition port_write (data : list byte) : M unit :=
  modify (fun s => Self.set_port (Serial.write data (Self.port s)) s).

Definition port_readline : M (list byte) :=
  fun s => let (l, p) := Serial.readline (Self.port s) in
           (Return l, Self.set_port p s).

Definition port_read (n : nat) : M (list byte) :=
  fun s => let (l, p) := Serial.read n (Self.port s) in
           (Return l, Self.set_port p s).

Definition port_in_waiting : M nat :=
  get (fun s => Serial.in_waiting (Self.port s)).

(** *** Unit conversion (lines 45-46, 273-275, 285-286) *)

(** [int(1e-3 * um * ecpu)]   # um -> mm -> counts *)
Definition um_to_counts (um ecpu : float) : outcome Z :=
  Py.int (Py.f1e_3 * um * ecpu)%float.

(** [1e3 * counts / ecpu]   # counts -> mm -> um *)
Definition counts_to_um (counts : Z) (ecpu : float) : outcome float :=
  obind (Py.float_of_int counts) (fun c => Py.div (Py.f1e3 * c)%float ecpu).

(** *** _check_errors (lines 139-145) *)

Definition _check_errors : M unit :=
  port_write (b "ERR?" ++ [LF]) ;;
  e <- port_readline ;;
  modify (Self.set_error e) ;;
  if negb (bytes_eqb e (b "0" ++ [LF])) then
    nm <- get Self.name ;;
    msg <- lift (decode e) ;;
    raise (RuntimeError (nm ++ ": error = ")%string msg)
  else ret tt.

(** *** _send (lines 118-137) *)

(** The [while True] loop; every turn that goes on has read two bytes or
    more, so [fuel] above the buffer's length is never used up
    ([read_responses_halts]). *)
Fixpoint read_responses (fuel : nat) (responses : list string)
  : M (list string) :=
  match fuel with
  | O => diverge
  | S fuel' =>
      response <- port_readline ;;
      assert (endswith_LF response) AssertTerminator ;;
      r <- lift (decode (rstrip response)) ;;
      let responses := responses ++ [r] in
      if (List.length response =? 1)%nat then ret responses
      else match byte_m2 response with
           | Some c =>
               if negb (Byte.eqb c SP) then ret responses
               else read_responses fuel' responses
           | None => raise IndexError
           end
  end.

Definition _send (cmd : string) (respond : bool) : M (option (list string)) :=
  cmd <- lift (encode cmd) ;;
  port_write (cmd ++ [LF]) ;;
  responses <-
    (if respond then
       n <- port_in_waiting ;;
       rs <- read_responses (S n) [] ;;
       ret (Some rs)
     else ret None) ;;
  n <- port_in_waiting ;;
  assert (n =? 0)%nat AssertInWaiting ;;
  _check_errors ;;
  ret responses.

(** Calls of [_send(..., respond=False)] throw the [None] away. *)
Definition _send_ (cmd : string) : M unit := _send cmd false ;; ret tt.

(** *** _enable_servo, _enable_joystick (lines 186-206) *)

Definition _enable_servo (enable : bool) : M unit :=
  (if enable then _send_ "SVO 1 1 2 1" else ret tt) ;;
  (if negb enable then _send_ "SVO 1 0 2 0" else ret tt) ;;
  modify (Self.set__servo_enabled enable).

Definition _enable_joystick (enable : bool) : M unit :=
  (if enable then _send_ "HIN 1 1" ;; _send_ "HIN 2 1" else ret tt) ;;
  (if negb enable then _send_ "HIN 1 0" ;; _send_ "HIN 2 0" else ret tt) ;;
  modify (Self.set__joystick_enabled enable).

Section WithFloatParser.

(** Python's builtin [float(str)]; [None] is its [ValueError]. *)
Variable float_of_str : string -> option float.

(** [float(a.split('=')[1])] *)
Definition parse_value (a : string) : outcome float :=
  match split_eq a with
  | _ :: v :: _ =>
      match float_of_str v with
      | Some f => Return f
      | None => Raise ValueError
      end
  | _ => Raise IndexError
  end.

(** [[float(a.split('=')[1]) for a in responses]] *)
Fixpoint parse_values (responses : list string) : outcome (list float) :=
  match responses with
  | [] => Return []
  | a :: rest =>
      obind (parse_value a) (fun f =>
      obind (parse_values rest) (fun fs => Return (f :: fs)))
  end.

(** *** get_position_mm (lines 222-229) *)

Definition get_position_mm : M (float * float) :=
  rs <- _send "MOV? 1 2" true ;;
  vs <- lift (parse_values (match rs with Some l => l | None => [] end)) ;;
  match vs with
  | [vx; vy] =>
      modify (Self.set_x vx) ;;
      modify (Self.set_y vy) ;;
      ret (vx, vy)
  | _ => raise ValueError     (* unpacking into [self.x, self.y] *)
  end.

(** *** _finish_moving (lines 231-244) *)

(** The motion status poll: [fuel] bounds the number of requests. *)
Fixpoint poll (fuel : nat) : M unit :=
  match fuel with
  | O => diverge
  | S fuel' =>
      port_write [x05] ;;
      response <- port_read 2 ;;
      if bytes_eqb response (b "0" ++ [LF]) then ret tt else poll fuel'
  end.

Definition _finish_moving (fuel : nat) : M unit :=
  moving <- get Self._moving ;;
  if negb moving then ret tt
  else
    poll fuel ;;
    modify (Self.set__moving false) ;;
    joystick <- get Self._joystick_enabled ;;
    (if joystick then _send_ "HIN 1 1" ;; _send_ "HIN 2 1" else ret tt) ;;
    _check_errors.

(** *** move_mm (lines 247-268) *)

(** ['MOV 1 %0.9f 2 %0.9f '%(x, y)] *)
Definition mov_cmd (x y : float) : string :=
  ("MOV 1 " ++ Py.fmt_9f x ++ " 2 " ++ Py.fmt_9f y ++ " ")%string.

(** [self.x_min <= self.x <= self.x_max] and the same on y *)
Definition x_in_limits (s : Controller) : bool :=
  (Self.x_min s <=? Self.x s)%float && (Self.x s <=? Self.x_max s)%float.
Definition y_in_limits (s : Controller) : bool :=
  (Self.y_min s <=? Self.y s)%float && (Self.y s <=? Self.y_max s)%float.

Definition move_mm (fuel : nat) (x y : float) (relative block : bool)
  : M unit :=
  _finish_moving fuel ;;
  joystick <- get Self._joystick_enabled ;;
  (if joystick then _send_ "HIN 1 0" ;; _send_ "HIN 2 0" else ret tt) ;;
  (if relative then
     get_position_mm ;;
     sx <- get Self.x ;; sy <- get Self.y ;;
     modify (Self.set_x (sx + x)%float) ;;
     modify (Self.set_y (sy + y)%float)
   else
     modify (Self.set_x x) ;;
     modify (Self.set_y y)) ;;
  sx <- get Self.x ;; sy <- get Self.y ;;
  let cmd := mov_cmd sx sy in
  bx <- get x_in_limits ;; assert bx AssertLimitX ;;
  by_ <- get y_in_limits ;; assert by_ AssertLimitY ;;
  _send_ cmd ;;
  modify (Self.set__moving true) ;;
  if block then _finish_moving fuel else ret tt.

End WithFloatParser.

(** *** set_positional_tolerance_um (lines 270-290)

    The default of [margin] is [Py.f0_1]. *)

(** ['SPA 1 0x407 %i 2 0x407 %i '%(xc, yc)]   # window exit 0 *)
Definition spa_exit_cmd (xc yc : Z) : string :=
  ("SPA 1 0x407 " ++ Py.fmt_i xc ++ " 2 0x407 " ++ Py.fmt_i yc ++ " ")%string.

(** ['SPA 1 0x406 %i 2 0x406 %i '%(xe, ye)]   # window enter 0 *)
Definition spa_enter_cmd (xe ye : string) : string :=
  ("SPA 1 0x406 " ++ xe ++ " 2 0x406 " ++ ye ++ " ")%string.

(** [c - margin] with an int [c] and a float [margin] *)
Definition int_sub_float (c : Z) (margin : float) : outcome float :=
  obind (Py.float_of_int c) (fun f => Return (f - margin)%float).

Definition set_positional_tolerance_um
  (xpt ypt : option float) (margin : float) : M unit :=
  xpt <- match xpt with Some v => ret v | None => get Self.xpt end ;;
  ypt <- match ypt with Some v => ret v | None => get Self.ypt end ;;
  x_ecpu <- get Self.x_ecpu ;;
  xc <- lift (um_to_counts xpt x_ecpu) ;;
  modify (Self.set_xptc xc) ;;
  yc <- lift (um_to_counts ypt x_ecpu) ;;
  modify (Self.set_yptc yc) ;;
  margin_counts <- lift (um_to_counts margin x_ecpu) ;;
  xptc_max <- get Self.xptc_max ;;
  yptc_max <- get Self.yptc_max ;;
  assert ((xc <? xptc_max) && (yc <=? yptc_max)) AssertToleranceMax ;;
  assert ((xc - margin_counts >? 0) && (yc - margin_counts >? 0))
    AssertToleranceMargin ;;
  _send_ (spa_exit_cmd xc yc) ;;
  xe <- lift (int_sub_float xc margin) ;;
  ye <- lift (int_sub_float yc margin) ;;
  xe <- lift (Py.fmt_i_float xe) ;;
  ye <- lift (Py.fmt_i_float ye) ;;
  _send_ (spa_enter_cmd xe ye) ;;
  xum <- lift (counts_to_um xc x_ecpu) ;;
  modify (Self.set_xpt xum) ;;
  y_ecpu <- get Self.y_ecpu ;;
  yum <- lift (counts_to_um yc y_ecpu) ;;
  modify (Self.set_ypt yum).

(** *** set_settling_time_ms, set_velocity, set_acceleration,
        set_deceleration (lines 292-343) *)

(** [0 <= v <= hi] *)
Definition in_range (v hi : float) : bool :=
  (0 <=? v)%float && (v <=? hi)%float.

(** ['<mnemonic> 1 %0.9f 2 %0.9f '%(vx, vy)] *)
Definition rate_cmd (mnemonic : string) (vx vy : float) : string :=
  (mnemonic ++ " 1 " ++ Py.fmt_9f vx ++ " 2 " ++ Py.fmt_9f vy ++ " ")%string.

(** ['SPA 1 0x3F %0.9f 2 0x3F %0.9f '%(sx, sy)] *)
Definition spa_settle_cmd (sx sy : float) : string :=
  ("SPA 1 0x3F " ++ Py.fmt_9f sx ++ " 2 0x3F " ++ Py.fmt_9f sy ++ " ")%string.

Definition set_settling_time_ms (xst yst : option float) : M unit :=
  xst <- match xst with Some v => ret v | None => get Self.xst end ;;
  yst <- match yst with Some v => ret v | None => get Self.yst end ;;
  modify (Self.set_xst xst) ;;
  modify (Self.set_yst yst) ;;
  assert (in_range xst 1000 && in_range yst 1000) AssertSettlingTime ;;
  _send_ (spa_settle_cmd (Py.f1e_3 * xst)%float (Py.f1e_3 * yst)%float).

Definition set_velocity (xv yv : option float) : M unit :=
  xv <- match xv with Some v => ret v | None => get Self.xv end ;;
  yv <- match yv with Some v => ret v | None => get Self.yv end ;;
  modify (Self.set_xv xv) ;;
  modify (Self.set_yv yv) ;;
  xv_max <- get Self.xv_max ;;
  yv_max <- get Self.yv_max ;;
  assert (in_range xv xv_max && in_range yv yv_max) AssertVelocity ;;
  _send_ (rate_cmd "VEL" xv yv).

Definition set_acceleration (xa ya : option float) : M unit :=
  xa <- match xa with Some v => ret v | None => get Self.xa end ;;
  ya <- match ya with Some v => ret v | None => get Self.ya end ;;
  modify (Self.set_xa xa) ;;
  modify (Self.set_ya ya) ;;
  xa_max <- get Self.xa_max ;;
  ya_max <- get Self.ya_max ;;
  assert (in_range xa xa_max && in_range ya ya_max) AssertAcceleration ;;
  _send_ (rate_cmd "ACC" xa ya).

Definition set_deceleration (xd yd : option float) : M unit :=
  xd <- match xd with Some v => ret v | None => get Self.xd end ;;
  yd <- match yd with Some v => ret v | None => get Self.yd end ;;
  modify (Self.set_xd xd) ;;
  modify (Self.set_yd yd) ;;
  xd_max <- get Self.xd_max ;;
  yd_max <- get Self.yd_max ;;
  assert (in_range xd xd_max && in_range yd yd_max) AssertDeceleration ;;
  _send_ (rate_cmd "ACC" xd yd).

(** ** Sanity checks on concrete values *)

Example fmt_9f_500 : Py.fmt_9f 500 = "500.000000000".
Proof. vm_compute. reflexivity. Qed.

Example fmt_9f_tenth : Py.fmt_9f Py.f0_1 = "0.100000000".
Proof. vm_compute. reflexivity. Qed.

Example fmt_9f_neg : Py.fmt_9f (-0x1.8p+0)%float = "-1.500000000".
Proof. vm_compute. reflexivity. Qed.

Example fmt_9f_half_even : Py.fmt_9f 0x1p-30%float = "0.000000001".
Proof. vm_compute. reflexivity. Qed.

Example um_to_counts_1 : um_to_counts 1 1000 = Return 1.
Proof. vm_compute. reflexivity. Qed.

Example counts_to_um_1 : counts_to_um 1 1000 = Return 1%float.
Proof. vm_compute. reflexivity. Qed.

(** ** Reasoning about runs *)

Lemma bind_Return {A B} (m : M A) (k : A -> M B) s r s2 :
  bind m k s = (Return r, s2) ->
  exists a s1, m s = (Return a, s1) /\ k a s1 = (Return r, s2).
Proof.
  unfold bind. destruct (m s) as [[a| e |] s1]; intro H; try discriminate.
  exists a, s1. split; [reflexivity | exact H].
Qed.

Lemma bind_run {A B} (m : M A) (k : A -> M B) s a s1 :
  m s = (Return a, s1) -> bind m k s = k a s1.
Proof. unfold bind. intros ->. reflexivity. Qed.

Lemma bind_raise {A B} (m : M A) (k : A -> M B) s e s1 :
  m s = (Raise e, s1) -> bind m k s = (Raise e, s1).
Proof. unfold bind. intros ->. reflexivity. Qed.

Lemma bind_diverge {A B} (m : M A) (k : A -> M B) s s1 :
  m s = (Diverge, s1) -> bind m k s = (Diverge, s1).
Proof. unfold bind. intros ->. reflexivity. Qed.

Lemma bind_Raise {A B} (m : M A) (k : A -> M B) s e s2 :
  bind m k s = (Raise e, s2) ->
  m s = (Raise e, s2) \/
  exists a s1, m s = (Return a, s1) /\ k a s1 = (Raise e, s2).
Proof.
  unfold bind. destruct (m s) as [[a| e' |] s1]; intro H; try discriminate.
  - right. exists a, s1. split; [reflexivity | exact H].
  - left. inversion H. reflexivity.
Qed.

Lemma assert_Return bv site s r s' :
  assert bv site s = (Return r, s') -> bv = true /\ s' = s.
Proof.
  destruct bv; cbn; intro H; inversion H; split; reflexivity.
Qed.

Lemma assert_false site s :
  assert false site s = (Raise (AssertionError site), s).
Proof. reflexivity. Qed.

(** *** Frames: what a method leaves alone *)

Section Frame.

Variable R : Controller -> Controller -> Prop.
Hypothesis R_refl : forall s, R s s.
Hypothesis R_trans : forall s1 s2 s3, R s1 s2 -> R s2 s3 -> R s1 s3.

Definition keeps {A} (m : M A) : Prop := forall s, R s (snd (m s)).

Lemma keeps_ret {A} (a : A) : keeps (ret a).
Proof. intro s. apply R_refl. Qed.

Lemma keeps_raise {A} e : keeps (@raise A e).
Proof. intro s. apply R_refl. Qed.

Lemma keeps_diverge {A} : keeps (@diverge A).
Proof. intro s. apply R_refl. Qed.

Lemma keeps_lift {A} (o : outcome A) : keeps (lift o).
Proof. intro s. apply R_refl. Qed.

Lemma keeps_get {A} (f : Controller -> A) : keeps (get f).
Proof. intro s. apply R_refl. Qed.

Lemma keeps_assert bv site : keeps (assert bv site).
Proof. intro s. destruct bv; apply R_refl. Qed.

Lemma keeps_modify f : (forall s, R s (f s)) -> keeps (modify f).
Proof. intros H s. apply H. Qed.

Lemma keeps_bind {A B} (m : M A) (k : A -> M B) :
  keeps m -> (forall a, keeps (k a)) -> keeps (bind m k).
Proof.
  intros Hm Hk s. unfold bind.
  specialize (Hm s). destruct (m s) as [[a| e |] s1]; cbn in *; try exact Hm.
  eapply R_trans; [exact Hm | apply Hk].
Qed.

Lemma keeps_if {A} (c : bool) (m1 m2 : M A) :
  keeps m1 -> keeps m2 -> keeps (if c then m1 else m2).
Proof. destruct c; auto. Qed.

End Frame.

(** A field that a setter does not assign. *)
Definition same {T} (f : Controller -> T) (s s' : Controller) : Prop :=
  f s' = f s.

Lemma same_refl {T} (f : Controller -> T) s : same f s s.
Proof. reflexivity. Qed.

Lemma same_trans {T} (f : Controller -> T) s1 s2 s3 :
  same f s1 s2 -> same f s2 s3 -> same f s1 s3.
Proof. unfold same. congruence. Qed.

(** Only the line and [self.error] change. *)
Definition io_only (s s' : Controller) : Prop :=
  exists p e, s' = Self.set_error e (Self.set_port p s).

Lemma io_only_refl s : io_only s s.
Proof. exists (Self.port s), (Self.error s). destruct s; reflexivity. Qed.

Lemma io_only_trans s1 s2 s3 : io_only s1 s2 -> io_only s2 s3 -> io_only s1 s3.
Proof.
  intros (p & e & ->) (p' & e' & ->). exists p', e'. reflexivity.
Qed.

(** The writes of a call are appended to the log, each one in [P]. *)
Definition log_grows (P : list byte -> Prop) (s s' : Controller) : Prop :=
  exists w, written (Self.port s') = written (Self.port s) ++ w /\ Forall P w.

Lemma log_grows_refl P s : log_grows P s s.
Proof. exists []. split; [symmetry; apply app_nil_r | constructor]. Qed.

Lemma log_grows_trans P s1 s2 s3 :
  log_grows P s1 s2 -> log_grows P s2 s3 -> log_grows P s1 s3.
Proof.
  intros (w & E & F) (w' & E' & F'). exists (w ++ w'). split.
  - rewrite E', E, app_assoc. reflexivity.
  - apply Forall_app. split; assumption.
Qed.

Create HintDb frame.
#[local] Hint Resolve io_only_refl io_only_trans log_grows_refl log_grows_trans
  same_refl same_trans : frame.

(** One step of a frame proof for the preorder [R] with proofs [Hr], [Ht];
    the leaves are left to the [frame] hints. *)
Ltac frame_step Hr Ht :=
  first
    [ solve [auto with frame]
    | progress cbv zeta
    | apply (keeps_bind _ Ht); [ | intro ]
    | apply (keeps_ret _ Hr)
    | apply (keeps_raise _ Hr)
    | apply (keeps_diverge _ Hr)
    | apply (keeps_lift _ Hr)
    | apply (keeps_get _ Hr)
    | apply (keeps_assert _ Hr)
    | match goal with
      | |- keeps _ (if ?c then _ else _) => destruct c
      | |- keeps _ (match ?v with _ => _ end) => destruct v
      end ].

Ltac frame_io := repeat frame_step io_only_refl io_only_trans.

Lemma io_only_set_port p s : io_only s (Self.set_port p s).
Proof. exists p, (Self.error s). destruct s; reflexivity. Qed.

Lemma io_only_set_error e s : io_only s (Self.set_error e s).
Proof. exists (Self.port s), e. destruct s; reflexivity. Qed.

Lemma io_port_write data : keeps io_only (port_write data).
Proof. intro s. apply io_only_set_port. Qed.

Lemma io_port_readline : keeps io_only port_readline.
Proof.
  intro s. unfold port_readline.
  destruct (Serial.readline (Self.port s)). apply io_only_set_port.
Qed.

Lemma io_port_read n : keeps io_only (port_read n).
Proof. intro s. apply io_only_set_port. Qed.

Lemma io_set_error e : keeps io_only (modify (Self.set_error e)).
Proof. intro s. apply io_only_set_error. Qed.

#[local] Hint Resolve io_port_write io_port_readline io_port_read io_set_error
  : frame.

Lemma io__check_errors : keeps io_only _check_errors.
Proof. unfold _check_errors, port_in_waiting. frame_io. Qed.
#[local] Hint Resolve io__check_errors : frame.

Lemma io_read_responses fuel acc : keeps io_only (read_responses fuel acc).
Proof.
  revert acc. induction fuel as [| fuel IH]; intro acc; cbn [read_responses].
  - frame_io.
  - frame_io.
Qed.
#[local] Hint Resolve io_read_responses : frame.

Lemma io__send cmd respond : keeps io_only (_send cmd respond).
Proof. unfold _send, port_in_waiting. frame_io. Qed.
#[local] Hint Resolve io__send : frame.

Lemma io__send_ cmd : keeps io_only (_send_ cmd).
Proof. unfold _send_. frame_io. Qed.
#[local] Hint Resolve io__send_ : frame.

Lemma io_poll fuel : keeps io_only (poll fuel).
Proof. induction fuel as [| fuel IH]; cbn [poll]; frame_io. Qed.
#[local] Hint Resolve io_poll : frame.


Lemma keeps_lift_bind (R : Controller -> Controller -> Prop) {A B}
  (o : outcome A) (k : A -> M B) :
  (forall s, R s s) ->
  (forall a, o = Return a -> keeps R (k a)) -> keeps R (bind (lift o) k).
Proof.
  intros Hr Hk s. unfold bind, lift. destruct o as [a| e |]; cbn.
  - apply Hk. reflexivity.
  - apply Hr.
  - apply Hr.
Qed.

Lemma keeps_same_of_io {T A} (f : Controller -> T) (m : M A) :
  (forall p e s, f (Self.set_error e (Self.set_port p s)) = f s) ->
  keeps io_only m -> keeps (same f) m.
Proof.
  intros Hf Hm s. destruct (Hm s) as (p & e & E). unfold same. rewrite E. apply Hf.
Qed.

(** A frame proof for a field that the method does not assign. *)
Ltac frame_same :=
  lazymatch goal with
  | |- keeps (same ?f) _ =>
      repeat first
        [ apply keeps_same_of_io; [ intros; reflexivity | solve [auto with frame] ]
        | apply keeps_modify; intro; reflexivity
        | frame_step (same_refl f) (same_trans f) ]
  end.

(** *** The write log *)

(** A command line as it goes on the wire. *)
Definition line (cmd : string) : list byte := b cmd ++ [LF].

Section Log.

Variable P : list byte -> Prop.

Lemma log_port_write data : P data -> keeps (log_grows P) (port_write data).
Proof.
  intros H s. exists [data]. split; [reflexivity | constructor; [exact H | constructor]].
Qed.

Lemma log_port_readline : keeps (log_grows P) port_readline.
Proof.
  intro s. unfold port_readline, Serial.readline.
  destruct (Serial.take_line (in_buf (Self.port s))).
  exists []. cbn. rewrite app_nil_r. split; [reflexivity | constructor].
Qed.

Lemma log_port_read n : keeps (log_grows P) (port_read n).
Proof.
  intro s. exists []. cbn. rewrite app_nil_r. split; [reflexivity | constructor].
Qed.

Lemma log_modify f :
  (forall s, Self.port (f s) = Self.port s) -> keeps (log_grows P) (modify f).
Proof.
  intros H s. exists []. cbn. rewrite H, app_nil_r. split; [reflexivity | constructor].
Qed.

Ltac frame_log :=
  repeat first
    [ apply log_port_readline
    | apply log_port_read
    | apply log_port_write; assumption
    | apply log_modify; intro; reflexivity
    | frame_step (log_grows_refl P) (log_grows_trans P) ].

Hypothesis P_ERR : P (line "ERR?").

Lemma log__check_errors : keeps (log_grows P) _check_errors.
Proof. unfold _check_errors. frame_log. Qed.

Lemma log_read_responses fuel acc : keeps (log_grows P) (read_responses fuel acc).
Proof.
  revert acc. induction fuel as [| fuel IH]; intro acc; cbn [read_responses].
  - frame_log.
  - frame_log.
Qed.

Lemma log__send cmd respond :
  (forall cb, encode cmd = Return cb -> P (cb ++ [LF])) ->
  keeps (log_grows P) (_send cmd respond).
Proof.
  intro Hc. unfold _send, port_in_waiting.
  apply keeps_lift_bind; [apply log_grows_refl | intros cb E].
  pose proof log_read_responses. pose proof log__check_errors.
  frame_log. apply log_port_write, Hc, E.
Qed.

Lemma log__send_ cmd :
  (forall cb, encode cmd = Return cb -> P (cb ++ [LF])) ->
  keeps (log_grows P) (_send_ cmd).
Proof. intro Hc. pose proof (log__send cmd false Hc). unfold _send_. frame_log. Qed.

Hypothesis P_ENQ : P [x05].

Lemma log_poll fuel : keeps (log_grows P) (poll fuel).
Proof. induction fuel as [| fuel IH]; cbn [poll]; frame_log. Qed.

End Log.

(** *** What a call that returns has written *)

Lemma bytes_eqb_eq a c : bytes_eqb a c = true <-> a = c.
Proof.
  unfold bytes_eqb. destruct (list_eq_dec Byte.byte_eq_dec a c); split;
    intro H; congruence.
Qed.

Lemma written_readline p : written (snd (Serial.readline p)) = written p.
Proof.
  unfold Serial.readline. destruct (Serial.take_line (in_buf p)). reflexivity.
Qed.

Lemma port_readline_run s :
  port_readline s =
    (Return (fst (Serial.readline (Self.port s))),
     Self.set_port (snd (Serial.readline (Self.port s))) s).
Proof.
  unfold port_readline. destruct (Serial.readline (Self.port s)). reflexivity.
Qed.

(** Splits a returning [bind] and reads off its first action. *)
Ltac step H :=
  let a := fresh "a" in
  let s1 := fresh "s" in
  let H1 := fresh "Hs" in
  apply bind_Return in H; destruct H as (a & s1 & H1 & H);
  first
    [ apply assert_Return in H1; destruct H1 as [H1 ->]
    | rewrite port_readline_run in H1; injection H1 as <- <-
    | progress cbv [port_write modify get ret lift port_read port_in_waiting
                    Serial.read] in H1;
      first [ injection H1 as <- <- | injection H1 as H1 <- ]
    | idtac ].

Lemma _check_errors_Return s u s' :
  _check_errors s = (Return u, s') ->
  written (Self.port s') = written (Self.port s) ++ [line "ERR?"] /\
  Self.error s' = line "0".
Proof.
  unfold _check_errors. intro H.
  step H. step H. step H.
  match type of H with (if ?c then _ else _) _ = _ => destruct c eqn:Ee end.
  - step H. step H. discriminate H.
  - injection H as _ <-. cbn.
    rewrite written_readline. cbn. split; [reflexivity |].
    apply negb_false_iff, bytes_eqb_eq in Ee. exact Ee.
Qed.

Lemma _send__Return cmd s u s' :
  _send_ cmd s = (Return u, s') ->
  exists cb, encode cmd = Return cb /\
    written (Self.port s') = written (Self.port s) ++ [cb ++ [LF]; line "ERR?"].
Proof.
  unfold _send_, _send. intro H.
  step H. injection H as _ <-.
  step Hs. exists a0. split; [assumption |].
  step Hs. step Hs. step Hs. step Hs. step Hs. injection Hs as _ <-.
  match goal with
  | Hc : _check_errors _ = _ |- _ => apply _check_errors_Return in Hc as [E _]
  end.
  rewrite E. cbn.
  rewrite <- app_assoc. reflexivity.
Qed.

Lemma poll_Return fuel s u s' :
  poll fuel s = (Return u, s') ->
  exists n, written (Self.port s') = written (Self.port s) ++ repeat [x05] (S n).
Proof.
  revert s. induction fuel as [| fuel IH]; intros s H; cbn [poll] in H.
  - discriminate H.
  - step H. step H.
    match type of H with (if ?c then _ else _) _ = _ => destruct c end.
    + injection H as _ <-. exists 0%nat. reflexivity.
    + apply IH in H as (n & E). exists (S n). rewrite E. cbn.
      rewrite <- app_assoc. reflexivity.
Qed.

(** *** The joystick flag is assigned by [_enable_joystick] alone *)

Section JoystickFlag.

Variable float_of_str : string -> option float.

Let flag := Self._joystick_enabled.

Lemma flag__finish_moving fuel : keeps (same flag) (_finish_moving fuel).
Proof. unfold _finish_moving. frame_same. Qed.

Lemma flag_get_position_mm : keeps (same flag) (get_position_mm float_of_str).
Proof. unfold get_position_mm. frame_same. Qed.

Lemma flag_move_mm fuel x y relative block :
  keeps (same flag) (move_mm float_of_str fuel x y relative block).
Proof.
  pose proof flag__finish_moving. pose proof flag_get_position_mm.
  unfold move_mm. frame_same.
Qed.







End JoystickFlag.

(** *** The first write of a call *)

Definition any_write : list byte -> Prop := fun _ => True.
Definition no_write : list byte -> Prop := fun _ => False.

Lemma no_write_nil w : Forall no_write w -> w = [].
Proof. destruct w; [reflexivity |]. intro H. inversion H. contradiction. Qed.

Lemma written_silent {A} (m : M A) s :
  keeps (log_grows no_write) m ->
  written (Self.port (snd (m s))) = written (Self.port s).
Proof.
  intro H. destruct (H s) as (w & E & F). apply no_write_nil in F. subst w.
  rewrite E. apply app_nil_r.
Qed.

Lemma written_after_write {A} P data (k : unit -> M A) s :
  keeps (log_grows P) (k tt) ->
  exists w,
    written (Self.port (snd (bind (port_write data) k s))) =
      written (Self.port s) ++ data :: w /\ Forall P w.
Proof.
  intro H. unfold bind, port_write, modify.
  destruct (H (Self.set_port (Serial.write data (Self.port s)) s)) as (w & E & F).
  exists w. split; [| exact F].
  destruct (k tt _) as [[a| e |] s1]; cbn in *; rewrite E, <- app_assoc; reflexivity.
Qed.


Lemma written__send_first cmd cb respond s :
  encode cmd = Return cb ->
  exists w,
    written (Self.port (snd (_send cmd respond s))) =
      written (Self.port s) ++ (cb ++ [LF]) :: w.
Proof.
  intro E. unfold _send. rewrite (bind_run _ _ s cb s) by (unfold lift; rewrite E; reflexivity).
  match goal with
  | |- context [bind (port_write ?d) ?k s] =>
      destruct (written_after_write any_write d k s) as (w & Ew & _)
  end.
  - pose proof (log_read_responses any_write).
    pose proof (log__check_errors any_write I).
    unfold port_in_waiting.
    repeat first
      [ frame_step (log_grows_refl any_write) (log_grows_trans any_write) ].
  - exists w. exact Ew.
Qed.

Lemma written__send__first cmd cb s :
  encode cmd = Return cb ->
  exists w,
    written (Self.port (snd (_send_ cmd s))) =
      written (Self.port s) ++ (cb ++ [LF]) :: w.
Proof.
  intro E. destruct (written__send_first cmd cb false s E) as (w & Ew).
  exists w. unfold _send_, bind.
  destruct (_send cmd false s) as [[a| e |] s1]; exact Ew.
Qed.







(** *** Which exceptions a call can raise *)

Definition raises (P : exn -> Prop) {A} (m : M A) : Prop :=
  forall s e s', m s = (Raise e, s') -> P e.

Section Raises.

Variable P : exn -> Prop.

Lemma raises_ret {A} (a : A) : raises P (ret a).
Proof. intros s e s' H. discriminate H. Qed.

Lemma raises_get {A} (f : Controller -> A) : raises P (get f).
Proof. intros s e s' H. discriminate H. Qed.

Lemma raises_modify f : raises P (modify f).
Proof. intros s e s' H. discriminate H. Qed.

Lemma raises_diverge {A} : raises P (@diverge A).
Proof. intros s e s' H. discriminate H. Qed.

Lemma raises_raise {A} e : P e -> raises P (@raise A e).
Proof. intros H s e' s' E. injection E as <- _. exact H. Qed.

Lemma raises_assert bv site : P (AssertionError site) -> raises P (assert bv site).
Proof.
  intros H s e s' E. destruct bv; [discriminate E |]. injection E as <- _. exact H.
Qed.

Lemma raises_lift {A} (o : outcome A) :
  (forall e, o = Raise e -> P e) -> raises P (lift o).
Proof. intros H s e s' E. injection E as E _. apply H, E. Qed.

Lemma raises_bind {A B} (m : M A) (k : A -> M B) :
  raises P m -> (forall a, raises P (k a)) -> raises P (bind m k).
Proof.
  intros Hm Hk s e s' E. apply bind_Raise in E as [E | (a & s1 & _ & E)].
  - eapply Hm, E.
  - eapply Hk, E.
Qed.

Lemma raises_port_write data : raises P (port_write data).
Proof. intros s e s' H. discriminate H. Qed.

Lemma raises_port_readline : raises P port_readline.
Proof. intros s e s' H. rewrite port_readline_run in H. discriminate H. Qed.

Lemma raises_port_read n : raises P (port_read n).
Proof. intros s e s' H. discriminate H. Qed.

End Raises.

Lemma decode_Raise bs e : decode bs = Raise e -> e = UnicodeDecodeError.
Proof. unfold decode. destruct (is_ascii bs); intro H; inversion H. reflexivity. Qed.

Lemma encode_Raise cmd e : encode cmd = Raise e -> e = UnicodeEncodeError.
Proof.
  unfold encode. destruct (is_ascii _); intro H; inversion H. reflexivity.
Qed.

Ltac raises_step :=
  first
    [ solve [auto with raises]
    | progress cbv zeta
    | apply raises_bind; [ | intro ]
    | apply raises_ret
    | apply raises_get
    | apply raises_modify
    | apply raises_diverge
    | apply raises_port_write
    | apply raises_port_readline
    | apply raises_port_read
    | apply raises_raise
    | apply raises_assert
    | apply raises_lift; intros ? ?
    | match goal with
      | |- raises _ (if ?c then _ else _) => destruct c
      | |- raises _ (match ?v with _ => _ end) => destruct v
      end ].

(** The exceptions of one transaction on the line. *)
Definition line_exn (e : exn) : Prop :=
  match e with
  | AssertionError AssertTerminator
  | AssertionError AssertInWaiting
  | RuntimeError _ _
  | UnicodeEncodeError
  | UnicodeDecodeError
  | IndexError => True
  | _ => False
  end.

Create HintDb raises.

Lemma line_exn_decode bs e : decode bs = Raise e -> line_exn e.
Proof. intro H. apply decode_Raise in H. subst e. exact I. Qed.

Lemma line_exn_encode cmd e : encode cmd = Raise e -> line_exn e.
Proof. intro H. apply encode_Raise in H. subst e. exact I. Qed.

Lemma line_exn__check_errors : raises line_exn _check_errors.
Proof.
  unfold _check_errors. repeat raises_step; try exact I.
  eapply line_exn_decode; eassumption.
Qed.
#[local] Hint Resolve line_exn__check_errors : raises.

Lemma line_exn_read_responses fuel acc : raises line_exn (read_responses fuel acc).
Proof.
  revert acc. induction fuel as [| fuel IH]; intro acc; cbn [read_responses];
    repeat raises_step; try exact I.
  eapply line_exn_decode; eassumption.
Qed.
#[local] Hint Resolve line_exn_read_responses : raises.

Lemma line_exn__send cmd respond : raises line_exn (_send cmd respond).
Proof.
  unfold _send, port_in_waiting. repeat raises_step; try exact I.
  eapply line_exn_encode; eassumption.
Qed.
#[local] Hint Resolve line_exn__send : raises.

Lemma line_exn__send_ cmd : raises line_exn (_send_ cmd).
Proof. unfold _send_. repeat raises_step. Qed.
#[local] Hint Resolve line_exn__send_ : raises.

Lemma line_exn_poll fuel : raises line_exn (poll fuel).
Proof. induction fuel as [| fuel IH]; cbn [poll]; repeat raises_step. Qed.
#[local] Hint Resolve line_exn_poll : raises.

Lemma line_exn__finish_moving fuel : raises line_exn (_finish_moving fuel).
Proof. unfold _finish_moving. repeat raises_step. Qed.
#[local] Hint Resolve line_exn__finish_moving : raises.

Lemma raises_weaken (P Q : exn -> Prop) {A} (m : M A) :
  (forall e, P e -> Q e) -> raises P m -> raises Q m.
Proof. intros H Hm s e s' E. eapply H, Hm, E. Qed.

(** The two limit assertions of [move_mm]. *)
Definition is_limit (e : exn) : Prop :=
  e = AssertionError AssertLimitX \/ e = AssertionError AssertLimitY.

Definition not_limit (e : exn) : Prop := ~ is_limit e.

Lemma line_exn_not_limit e : line_exn e -> not_limit e.
Proof. intros H [-> | ->]; exact H. Qed.

Section MoveRaises.

Variable float_of_str : string -> option float.

Lemma parse_values_Raise rs e :
  parse_values float_of_str rs = Raise e -> e = ValueError \/ e = IndexError.
Proof.
  induction rs as [| a rs IH]; cbn; [discriminate |].
  unfold parse_value. destruct (split_eq a) as [| k [| v l]]; cbn.
  - intro H; inversion H; auto.
  - intro H; inversion H; auto.
  - destruct (float_of_str v); cbn.
    + destruct (parse_values float_of_str rs); cbn; intro H; inversion H.
      subst. apply IH. reflexivity.
    + intro H; inversion H; auto.
Qed.

Lemma not_limit_get_position_mm : raises not_limit (get_position_mm float_of_str).
Proof.
  unfold get_position_mm.
  apply raises_bind;
    [ apply (raises_weaken line_exn); [apply line_exn_not_limit | auto with raises]
    | intro rs ].
  apply raises_bind; [| intro vs].
  - apply raises_lift. intros e H.
    apply parse_values_Raise in H as [-> | ->]; intros [H | H]; discriminate H.
  - destruct vs as [| px [| py [| pz l]]]; repeat raises_step;
      intros [H | H]; discriminate H.
Qed.

Lemma get_position_mm_Return s vx vy s' :
  get_position_mm float_of_str s = (Return (vx, vy), s') ->
  Self.x s' = vx /\ Self.y s' = vy.
Proof.
  unfold get_position_mm. intro H. step H. step H.
  destruct a0 as [| px [| py [| pz l]]]; try discriminate H.
  step H. step H. injection H as <- <- <-. split; reflexivity.
Qed.

End MoveRaises.

Lemma not_limit_contra {A} (m : M A) s site s' :
  raises not_limit m ->
  m s = (Raise (AssertionError site), s') ->
  site = AssertLimitX \/ site = AssertLimitY -> False.
Proof.
  intros Hm E Hs. apply Hm in E. apply E. destruct Hs as [-> | ->].
  - left. reflexivity.
  - right. reflexivity.
Qed.

#[local] Hint Extern 3 (raises not_limit _) =>
  apply (raises_weaken line_exn); [apply line_exn_not_limit | ] : raises.
#[local] Hint Resolve not_limit_get_position_mm : raises.

Ltac not_limit_tac :=
  repeat raises_step;
  try match goal with
      | |- not_limit _ => let H := fresh in intros [H | H]; discriminate H
      end.

(** Splits a raising [bind]: the exception of the first action is not a
    limit assertion, so the action returned. *)
Ltac rstep H Hsite :=
  let a := fresh "a" in
  let s1 := fresh "s" in
  let H1 := fresh "Hs" in
  apply bind_Raise in H; destruct H as [H | (a & s1 & H1 & H)];
  [ first
      [ discriminate H
      | exfalso; eapply not_limit_contra; [ | exact H | exact Hsite ];
        solve [not_limit_tac] ]
  | first
      [ apply assert_Return in H1; destruct H1 as [H1 ->]
      | progress cbv [port_write modify get ret lift] in H1;
        first [ injection H1 as <- <- | injection H1 as H1 <- ]
      | idtac ] ].

Section MoveRejected.

Variable float_of_str : string -> option float.

(** C9: when [move_mm] raises at one of its two limit assertions,
    [self.x], [self.y] already hold the rejected target: the arguments of an
    absolute move, the position just read plus the arguments of a relative
    one; the cached position is then outside the limits. *)
Theorem move_mm_rejected_target_cached fuel x y relative block s site s' :
  move_mm float_of_str fuel x y relative block s
    = (Raise (AssertionError site), s') ->
  site = AssertLimitX \/ site = AssertLimitY ->
  x_in_limits s' && y_in_limits s' = false /\
  if relative then
    exists s0 px py s1,
      get_position_mm float_of_str s0 = (Return (px, py), s1) /\
      Self.x s' = (px + x)%float /\ Self.y s' = (py + y)%float
  else Self.x s' = x /\ Self.y s' = y.
Proof.
  intros H Hsite. unfold move_mm in H.
  rstep H Hsite. rstep H Hsite. rstep H Hsite. rstep H Hsite.
  rstep H Hsite. rstep H Hsite.
  assert (Ht : if relative then
                 exists s0 px py s1,
                   get_position_mm float_of_str s0 = (Return (px, py), s1) /\
                   Self.x s2 = (px + x)%float /\ Self.y s2 = (py + y)%float
               else Self.x s2 = x /\ Self.y s2 = y).
  { destruct relative.
    - step Hs1. destruct a2 as [px py].
      pose proof (get_position_mm_Return _ _ _ _ _ Hs2) as [Ex Ey].
      step Hs1. step Hs1. step Hs1. injection Hs1 as _ <-.
      exists s1, px, py, s3. cbn. rewrite Ex, Ey. auto.
    - step Hs1. injection Hs1 as _ <-. cbn. auto. }
  clear Hs1. rstep H Hsite.
  apply bind_Raise in H as [H | (u1 & s3 & H1 & H)].
  { destruct (x_in_limits s2) eqn:Ex; [discriminate H |].
    injection H as _ <-. rewrite Ex. split; [reflexivity | exact Ht]. }
  apply assert_Return in H1 as [Ex ->].
  rstep H Hsite.
  apply bind_Raise in H as [H | (u2 & s4 & H1 & H)].
  { destruct (y_in_limits s2) eqn:Ey; [discriminate H |].
    injection H as _ <-. rewrite Ey, andb_false_r. split; [reflexivity | exact Ht]. }
  apply assert_Return in H1 as [Ey ->].
  rstep H Hsite. rstep H Hsite.
  exfalso. eapply not_limit_contra; [ | exact H | exact Hsite ]. not_limit_tac.
Qed.

End MoveRejected.

(** *** An absolute move outside the limits *)

(** What [move_mm] writes before it validates the target. *)
Definition prelude_write (d : list byte) : Prop :=
  d = [x05] \/ d = line "HIN 1 1" \/ d = line "HIN 2 1" \/
  d = line "HIN 1 0" \/ d = line "HIN 2 0" \/ d = line "ERR?".



Lemma keeps_bind_at (R : Controller -> Controller -> Prop) {A B}
  (m : M A) (k : A -> M B) s :
  (forall s1 s2 s3, R s1 s2 -> R s2 s3 -> R s1 s3) ->
  R s (snd (m s)) ->
  (forall a s1, m s = (Return a, s1) -> R s1 (snd (k a s1))) ->
  R s (snd (bind m k s)).
Proof.
  intros Ht Hm Hk. unfold bind.
  destruct (m s) as [[a| e |] s1]; cbn in *; try exact Hm.
  eapply Ht; [exact Hm | apply Hk; reflexivity].
Qed.

Lemma prelude__finish_moving fuel :
  keeps (log_grows prelude_write) (_finish_moving fuel).
Proof.
  assert (He : prelude_write (line "ERR?")) by (unfold prelude_write; tauto).
  pose proof (log_poll prelude_write (or_introl eq_refl)).
  pose proof (log__check_errors prelude_write He).
  assert (H1 : keeps (log_grows prelude_write) (_send_ "HIN 1 1")).
  { apply log__send_; [exact He |]. intros cb E. injection E as <-.
    unfold prelude_write; tauto. }
  assert (H2 : keeps (log_grows prelude_write) (_send_ "HIN 2 1")).
  { apply log__send_; [exact He |]. intros cb E. injection E as <-.
    unfold prelude_write; tauto. }
  unfold _finish_moving.
  repeat first
    [ apply log_modify; intro; reflexivity
    | frame_step (log_grows_refl prelude_write) (log_grows_trans prelude_write) ].
Qed.



(** The four limits are the same in both states. *)
Definition same_limits (s s' : Controller) : Prop :=
  Self.x_min s' = Self.x_min s /\ Self.x_max s' = Self.x_max s /\
  Self.y_min s' = Self.y_min s /\ Self.y_max s' = Self.y_max s.

Lemma same_limits_of_frames {A} (m : M A) s :
  keeps (same Self.x_min) m -> keeps (same Self.x_max) m ->
  keeps (same Self.y_min) m -> keeps (same Self.y_max) m ->
  same_limits s (snd (m s)).
Proof. intros H1 H2 H3 H4. repeat split; [apply H1 | apply H2 | apply H3 | apply H4]. Qed.




Section MoveOutOfRange.

Variable float_of_str : string -> option float.


End MoveOutOfRange.

(** ** A scripted stage for the examples *)

(** A reader of plain decimals ([-12.5], [0.1]) that stands for Python's
    [float(str)] in the examples: the quotient of the digits by the power
    of ten, rounded once. *)
Definition digit_value (c : ascii) : option Z :=
  let n := Z.of_N (N_of_ascii c) in
  if (48 <=? n) && (n <=? 57) then Some (n - 48) else None.

Fixpoint scan_decimal (s : string) (n : Z) (frac : option Z) (seen : bool)
  : option (Z * Z) :=
  match s with
  | EmptyString =>
      if seen then Some (n, match frac with Some k => k | None => 0 end)
      else None
  | String c s' =>
      if Ascii.eqb c "."%char then
        match frac with
        | None => scan_decimal s' n (Some 0) seen
        | Some _ => None
        end
      else
        match digit_value c with
        | Some d => scan_decimal s' (10 * n + d) (option_map Z.succ frac) true
        | None => None
        end
  end.

Definition float_of_decimal (s : string) : option float :=
  let (neg, body) :=
    match s with
    | String "-"%char s' => (true, s')
    | String "+"%char s' => (false, s')
    | _ => (false, s)
    end in
  match scan_decimal body 0 None false with
  | Some (n, k) =>
      Some (SF2Prim
              (match n with
               | Zpos m =>
                   SFdiv prec emax (S754_finite neg m 0)
                     (S754_finite false (Z.to_pos (10 ^ k)) 0)
               | _ => S754_zero neg
               end))
  | None => None
  end.

Example float_of_decimal_tenth : float_of_decimal "0.1" = Some Py.f0_1.
Proof. vm_compute. reflexivity. Qed.

Example float_of_decimal_neg : float_of_decimal "-12.5000000" = Some (-12.5)%float.
Proof. vm_compute. reflexivity. Qed.

(** The replies to a command that has no answer and to its [ERR?]. *)
Definition ack : list (list byte) := [[]; line "0"].

(** A stage with 10000 counts per mm on x and [y_ecpu] on y, a travel of
    50 mm either way and a tolerance limit of 99 counts, on a line that will
    give [replies]. *)
Definition stage_y (y_ecpu : float) (joystick moving : bool)
  (replies : list (list byte)) : Controller :=
  {| Self.name := "C-867.2U2";
     Self.port := {| written := []; in_buf := []; script := replies |};
     Self.error := line "0";
     Self.x_ecpu := 10000; Self.y_ecpu := y_ecpu;
     Self.x := 0; Self.y := 0;
     Self.x_min := (-50); Self.y_min := (-50);
     Self.x_max := 50; Self.y_max := 50;
     Self.xptc := 10; Self.yptc := 10;
     Self.xpt := 1; Self.ypt := 1;
     Self.xptc_max := 99; Self.yptc_max := 99;
     Self.xpt_max := (99000 / 10000)%float;
     Self.ypt_max := (99000 / 10000)%float;
     Self.xst := 1; Self.yst := 1;
     Self.xv := 100; Self.yv := 100; Self.xv_max := 120; Self.yv_max := 120;
     Self.xa := 400; Self.ya := 400; Self.xa_max := 500; Self.ya_max := 500;
     Self.xd := 400; Self.yd := 400; Self.xd_max := 500; Self.yd_max := 500;
     Self._servo_enabled := true;
     Self._joystick_enabled := joystick;
     Self._moving := moving |}.

Definition stage : bool -> bool -> list (list byte) -> Controller :=
  stage_y 10000.



Lemma move_mm_rejected_target_cached_witness :
  let s' := snd (move_mm float_of_decimal 5 100 0 false true
                   (stage true false (ack ++ ack))) in
  x_in_limits s' && y_in_limits s' = false /\
  (Self.x s' = 100%float /\ Self.y s' = 0%float).
Proof.
  apply (move_mm_rejected_target_cached float_of_decimal 5 100 0 false true
           (stage true false (ack ++ ack)) AssertLimitX).
  - vm_compute. reflexivity.
  - left. reflexivity.
Defined.

(** *** set_positional_tolerance_um: rejection *)

(** [xpt if xpt is not None else cached] *)
Definition default (arg : option float) (cached : float) : float :=
  match arg with Some v => v | None => cached end.

(** The call raised at one of the two assertions of
    [set_positional_tolerance_um]. *)
Definition tolerance_rejected {A} (o : outcome A) : Prop :=
  o = Raise (AssertionError AssertToleranceMax) \/
  o = Raise (AssertionError AssertToleranceMargin).

(** An exception that is not one of these two assertions. *)
Definition not_tolerance_assert (e : exn) : Prop :=
  e <> AssertionError AssertToleranceMax /\
  e <> AssertionError AssertToleranceMargin.

Lemma line_exn_not_tolerance_assert e : line_exn e -> not_tolerance_assert e.
Proof. intro H. split; intros ->; exact H. Qed.

Lemma float_of_int_not_tolerance_assert z e :
  Py.float_of_int z = Raise e -> not_tolerance_assert e.
Proof.
  unfold Py.float_of_int. destruct (binary_normalize _ _ _ _ _);
    intro H; inversion H; split; discriminate.
Qed.

Lemma int_not_tolerance_assert f e : Py.int f = Raise e -> not_tolerance_assert e.
Proof.
  unfold Py.int. destruct (Prim2SF f); intro H; inversion H; split; discriminate.
Qed.

Lemma int_sub_float_not_tolerance_assert c margin e :
  int_sub_float c margin = Raise e -> not_tolerance_assert e.
Proof.
  unfold int_sub_float, obind.
  destruct (Py.float_of_int c) eqn:E; intro H; inversion H; subst.
  exact (float_of_int_not_tolerance_assert _ _ E).
Qed.

Lemma fmt_i_float_not_tolerance_assert f e :
  Py.fmt_i_float f = Raise e -> not_tolerance_assert e.
Proof.
  unfold Py.fmt_i_float. destruct (Py.int f) eqn:E; intro H; inversion H; subst.
  exact (int_not_tolerance_assert _ _ E).
Qed.

Lemma counts_to_um_not_tolerance_assert c ecpu e :
  counts_to_um c ecpu = Raise e -> not_tolerance_assert e.
Proof.
  unfold counts_to_um, obind. destruct (Py.float_of_int c) eqn:E.
  - unfold Py.div. destruct (PrimFloat.eqb ecpu 0); intro H; inversion H.
    split; discriminate.
  - intro H. inversion H. subst. exact (float_of_int_not_tolerance_assert _ _ E).
  - discriminate.
Qed.

(** What follows the two assertions (lines 280-286) raises neither. *)
Lemma tolerance_commands_not_tolerance_assert xc yc margin x_ecpu :
  raises not_tolerance_assert
    (_send_ (spa_exit_cmd xc yc) ;;
     xe <- lift (int_sub_float xc margin) ;;
     ye <- lift (int_sub_float yc margin) ;;
     xe <- lift (Py.fmt_i_float xe) ;;
     ye <- lift (Py.fmt_i_float ye) ;;
     _send_ (spa_enter_cmd xe ye) ;;
     xum <- lift (counts_to_um xc x_ecpu) ;;
     modify (Self.set_xpt xum) ;;
     y_ecpu <- get Self.y_ecpu ;;
     yum <- lift (counts_to_um yc y_ecpu) ;;
     modify (Self.set_ypt yum)).
Proof.
  assert (Hs : forall cmd, raises not_tolerance_assert (_send_ cmd))
    by (intro cmd; apply (raises_weaken line_exn);
        [apply line_exn_not_tolerance_assert | apply line_exn__send_]).
  repeat first
    [ apply Hs
    | apply raises_bind; [| intro]
    | apply raises_modify
    | apply raises_get
    | apply raises_lift; intros ? ? ].
  all: first
    [ eapply int_sub_float_not_tolerance_assert; eassumption
    | eapply fmt_i_float_not_tolerance_assert; eassumption
    | eapply counts_to_um_not_tolerance_assert; eassumption ].
Qed.

(** C1 (amended): a call is rejected, at one of its two assertions, when
    the x counts reach [xptc_max] or when the counts of an axis do not
    exceed the margin counts.  A call that is rejected has written nothing
    and has left [xpt] and [ypt] as they were; [xptc] and [yptc], however,
    hold the counts that were just computed: they are assigned before they
    are validated.  (The bound on the y counts is not part of this
    statement: see [set_positional_tolerance_um_y_bound] below.) *)
Theorem set_positional_tolerance_um_rejects s xpt ypt margin xc yc mc :
  um_to_counts (default xpt (Self.xpt s)) (Self.x_ecpu s) = Return xc ->
  um_to_counts (default ypt (Self.ypt s)) (Self.x_ecpu s) = Return yc ->
  um_to_counts margin (Self.x_ecpu s) = Return mc ->
  let r := set_positional_tolerance_um xpt ypt margin s in
  (Self.xptc_max s <= xc \/ xc - mc <= 0 \/ yc - mc <= 0 ->
   tolerance_rejected (fst r)) /\
  (tolerance_rejected (fst r) ->
   Self.port (snd r) = Self.port s /\
   Self.xpt (snd r) = Self.xpt s /\ Self.ypt (snd r) = Self.ypt s /\
   Self.xptc (snd r) = xc /\ Self.yptc (snd r) = yc).
Proof.
  intros Ex Ey Em r. subst r.
  unfold set_positional_tolerance_um.
  assert (Hx : forall k : float -> M unit,
             bind (match xpt with Some v => ret v | None => get Self.xpt end) k s
             = k (default xpt (Self.xpt s)) s)
    by (intro k; destruct xpt; reflexivity).
  rewrite Hx.
  assert (Hy : forall k : float -> M unit,
             bind (match ypt with Some v => ret v | None => get Self.ypt end) k s
             = k (default ypt (Self.ypt s)) s)
    by (intro k; destruct ypt; reflexivity).
  rewrite Hy.
  rewrite (bind_run (get Self.x_ecpu) _ s (Self.x_ecpu s) s eq_refl).
  rewrite (bind_run (lift (um_to_counts _ _)) _ s xc s)
    by (unfold lift; rewrite Ex; reflexivity).
  rewrite (bind_run (modify (Self.set_xptc xc)) _ s tt _ eq_refl).
  rewrite (bind_run (lift (um_to_counts _ _)) _ _ yc _)
    by (unfold lift; rewrite Ey; reflexivity).
  rewrite (bind_run (modify (Self.set_yptc yc)) _ _ tt _ eq_refl).
  rewrite (bind_run (lift (um_to_counts _ _)) _ _ mc _)
    by (unfold lift; rewrite Em; reflexivity).
  rewrite (bind_run (get Self.xptc_max) _ _ _ _ eq_refl).
  rewrite (bind_run (get Self.yptc_max) _ _ _ _ eq_refl).
  cbn [Self.xptc_max Self.yptc_max Self.set_xptc Self.set_yptc].
  set (s1 := Self.set_yptc yc (Self.set_xptc xc s)).
  destruct ((xc <? Self.xptc_max s) && (yc <=? Self.yptc_max s)) eqn:E1.
  - rewrite (bind_run (assert true AssertToleranceMax) _ s1 tt s1 eq_refl).
    destruct ((xc - mc >? 0) && (yc - mc >? 0)) eqn:E2.
    + rewrite (bind_run (assert true AssertToleranceMargin) _ s1 tt s1 eq_refl).
      split.
      * intro Hbad. exfalso.
        apply andb_true_iff in E1 as [A1 A2], E2 as [B1 B2]. lia.
      * intro Hrej. exfalso.
        match type of Hrej with
        | tolerance_rejected (fst (?m s1)) =>
            pose proof (tolerance_commands_not_tolerance_assert
                          xc yc margin (Self.x_ecpu s) s1) as K;
            destruct (m s1) as [[u | e |] s'] eqn:E
        end;
          cbn [fst] in Hrej; destruct Hrej as [H | H];
          try discriminate H; injection H as ->;
          destruct (K _ _ eq_refl) as [N1 N2]; contradiction.
    + rewrite (bind_raise (assert false AssertToleranceMargin) _ s1 _ s1 eq_refl).
      split; [intros _; right; reflexivity |].
      intros _. repeat split; reflexivity.
  - rewrite (bind_raise (assert false AssertToleranceMax) _ s1 _ s1 eq_refl).
    split; [intros _; left; reflexivity |].
    intros _. repeat split; reflexivity.
Qed.

(** C1, as stated, fails: a call that is rejected has overwritten [xptc]
    with the counts that it rejects. *)
Lemma set_positional_tolerance_um_rejected_overwrites :
  let s := stage true false (ack ++ ack) in
  let rejected :=
    set_positional_tolerance_um (Some 9.9375%float) (Some 1%float) Py.f0_1 s in
  um_to_counts 9.9375 (Self.x_ecpu s) = Return (Self.xptc_max s) /\
  fst rejected = Raise (AssertionError AssertToleranceMax) /\
  Self.port (snd rejected) = Self.port s /\
  Self.xptc s = 10 /\ Self.xptc (snd rejected) = 99.
Proof. vm_compute. repeat split; reflexivity. Qed.

(** The bound on the y counts.  Line 276 compares the y counts with [<=]
    where it compares the x counts with [<]: y counts equal to [yptc_max]
    are accepted and sent, while x counts equal to [xptc_max] are rejected
    (the call above).  This is a slip of the code, like the calibration of
    C8, and for that reason no part of the amended C1. *)
Lemma set_positional_tolerance_um_y_bound :
  let s := stage true false (ack ++ ack) in
  let accepted :=
    set_positional_tolerance_um (Some 1%float) (Some 9.9375%float) Py.f0_1 s in
  um_to_counts 9.9375 (Self.x_ecpu s) = Return (Self.yptc_max s) /\
  fst accepted = Return tt /\
  written (Self.port (snd accepted)) =
    [line "SPA 1 0x407 10 2 0x407 99 "; line "ERR?";
     line "SPA 1 0x406 9 2 0x406 98 "; line "ERR?"].
Proof. vm_compute. repeat split; reflexivity. Qed.

Lemma set_positional_tolerance_um_rejects_witness :
  let s := stage true false [] in
  let r := set_positional_tolerance_um (Some 9.9375%float) None Py.f0_1 s in
  (Self.xptc_max s <= 99 \/ 99 - 1 <= 0 \/ 10 - 1 <= 0 ->
   tolerance_rejected (fst r)) /\
  (tolerance_rejected (fst r) ->
   Self.port (snd r) = Self.port s /\
   Self.xpt (snd r) = Self.xpt s /\ Self.ypt (snd r) = Self.ypt s /\
   Self.xptc (snd r) = 99 /\ Self.yptc (snd r) = 10).
Proof.
  apply (set_positional_tolerance_um_rejects (stage true false [])
           (Some 9.9375%float) None Py.f0_1 99 10 1).
  - vm_compute. reflexivity.
  - vm_compute. reflexivity.
  - vm_compute. reflexivity.
Defined.

(** *** The commands that the driver formats are ASCII *)

Lemma b_app s1 s2 : b (s1 ++ s2)%string = b s1 ++ b s2.
Proof.
  unfold b, list_byte_of_string.
  induction s1 as [| c s1 IH]; cbn; [reflexivity |]. f_equal. exact IH.
Qed.

Lemma is_ascii_app l1 l2 : is_ascii (l1 ++ l2) = is_ascii l1 && is_ascii l2.
Proof. apply forallb_app. Qed.

Lemma is_ascii_b_app s1 s2 :
  is_ascii (b s1) = true -> is_ascii (b s2) = true ->
  is_ascii (b (s1 ++ s2)%string) = true.
Proof. intros H1 H2. rewrite b_app, is_ascii_app, H1, H2. reflexivity. Qed.

Lemma is_ascii_digits d : is_ascii (b (NilEmpty.string_of_uint d)) = true.
Proof. induction d; cbn; try reflexivity; exact IHd. Qed.

Lemma is_ascii_uint d : is_ascii (b (NilZero.string_of_uint d)) = true.
Proof. destruct d; try reflexivity; apply (is_ascii_digits (_ d)). Qed.

Lemma is_ascii_fmt_i z : is_ascii (b (Py.fmt_i z)) = true.
Proof.
  unfold Py.fmt_i, NilZero.string_of_int. destruct (Z.to_int z) as [d | d].
  - apply is_ascii_uint.
  - change (String "-" (NilZero.string_of_uint d))
      with ("-" ++ NilZero.string_of_uint d)%string.
    apply is_ascii_b_app; [reflexivity | apply is_ascii_uint].
Qed.

Lemma is_ascii_pad k n : is_ascii (b (Py.pad k n)) = true.
Proof.
  unfold Py.pad.
  pose proof (is_ascii_uint (N.to_uint (Z.to_N (10 ^ Z.of_nat k + n)))) as H.
  destruct (NilZero.string_of_uint _) as [| c s]; [reflexivity |].
  cbn in H. apply andb_true_iff in H as [_ H]. exact H.
Qed.

Lemma is_ascii_fmt_9f f : is_ascii (b (Py.fmt_9f f)) = true.
Proof.
  unfold Py.fmt_9f. destruct (Prim2SF f) as [s | s | | s m e].
  - destruct s; reflexivity.
  - destruct s; reflexivity.
  - reflexivity.
  - repeat apply is_ascii_b_app.
    + destruct s; reflexivity.
    + apply is_ascii_uint.
    + reflexivity.
    + apply is_ascii_pad.
Qed.

Lemma encode_ascii cmd : is_ascii (b cmd) = true -> encode cmd = Return (b cmd).
Proof. unfold encode, b. intros ->. reflexivity. Qed.

Lemma encode_rate_cmd mnemonic vx vy :
  is_ascii (b mnemonic) = true ->
  encode (rate_cmd mnemonic vx vy) = Return (b (rate_cmd mnemonic vx vy)).
Proof.
  intro H. apply encode_ascii. unfold rate_cmd.
  repeat apply is_ascii_b_app; try reflexivity; try apply is_ascii_fmt_9f.
  exact H.
Qed.

(** *** Reading lines *)

Lemma take_line_LF l rest :
  ~ In LF l -> Serial.take_line (l ++ LF :: rest) = (l ++ [LF], rest).
Proof.
  induction l as [| c l IH]; intro H; cbn.
  - reflexivity.
  - destruct (Byte.eqb c LF) eqn:E.
    + exfalso. apply H. left. apply Byte.byte_dec_bl in E. exact E.
    + rewrite IH; [reflexivity |]. intro Hin. apply H. right. exact Hin.
Qed.

Lemma take_line_no_LF l : ~ In LF l -> Serial.take_line l = (l, []).
Proof.
  induction l as [| c l IH]; intro H; cbn.
  - reflexivity.
  - destruct (Byte.eqb c LF) eqn:E.
    + exfalso. apply H. left. apply Byte.byte_dec_bl in E. exact E.
    + rewrite IH; [reflexivity |]. intro Hin. apply H. right. exact Hin.
Qed.

Lemma endswith_LF_line l : endswith_LF (l ++ [LF]) = true.
Proof. unfold endswith_LF. rewrite rev_app_distr. reflexivity. Qed.

Lemma endswith_LF_no_LF l : ~ In LF l -> endswith_LF l = false.
Proof.
  intro H. unfold endswith_LF. destruct (rev l) as [| c r] eqn:E; [reflexivity |].
  destruct (Byte.eqb c LF) eqn:Ec; [| reflexivity].
  exfalso. apply H. apply Byte.byte_dec_bl in Ec. subst c.
  apply in_rev. rewrite E. left. reflexivity.
Qed.

Lemma rstrip_line l : rstrip (l ++ [LF]) = rstrip l.
Proof. unfold rstrip. rewrite rev_app_distr. reflexivity. Qed.

Lemma is_ascii_rev l : is_ascii (rev l) = is_ascii l.
Proof.
  unfold is_ascii. induction l as [| c l IH]; [reflexivity |].
  cbn. rewrite forallb_app, IH. cbn. rewrite andb_true_r. apply andb_comm.
Qed.

Lemma is_ascii_lstrip l : is_ascii l = true -> is_ascii (lstrip l) = true.
Proof.
  induction l as [| c l IH]; [reflexivity |]. intro H. cbn.
  destruct (is_space c); [| exact H].
  apply IH. cbn in H. apply andb_true_iff in H as [_ H]. exact H.
Qed.

Lemma is_ascii_rstrip l : is_ascii l = true -> is_ascii (rstrip l) = true.
Proof.
  intro H. unfold rstrip. rewrite is_ascii_rev. apply is_ascii_lstrip.
  rewrite is_ascii_rev. exact H.
Qed.

(** *** One transaction against a scripted reply *)

(** The line after a transaction that found [rest] still to come. *)
Definition port_after (s : Controller) (writes : list (list byte))
  (rest : list (list byte)) : Port :=
  {| written := written (Self.port s) ++ writes; in_buf := []; script := rest |}.

Lemma _check_errors_ok s rest :
  in_buf (Self.port s) = [] ->
  script (Self.port s) = line "0" :: rest ->
  _check_errors s =
    (Return tt,
     Self.set_error (line "0") (Self.set_port (port_after s [line "ERR?"] rest) s)).
Proof.
  intros Hb Hs. unfold _check_errors, bind, port_write, modify, port_readline,
    Serial.readline, Serial.write. cbn. rewrite Hb, Hs. reflexivity.
Qed.

Lemma _check_errors_error s e rest :
  in_buf (Self.port s) = [] ->
  script (Self.port s) = (e ++ [LF]) :: rest ->
  ~ In LF e -> is_ascii e = true -> e <> b "0" ->
  _check_errors s =
    (Raise (RuntimeError (Self.name s ++ ": error = ")
              (string_of_list_byte (e ++ [LF]))),
     Self.set_error (e ++ [LF])
       (Self.set_port (port_after s [line "ERR?"] rest) s)).
Proof.
  intros Hb Hs Hn Ha He.
  unfold _check_errors, bind, port_write, modify, port_readline,
    Serial.readline, Serial.write. cbn. rewrite Hb, Hs. cbn.
  rewrite take_line_LF by exact Hn.
  assert (E : bytes_eqb (e ++ [LF]) (b "0" ++ [LF]) = false).
  { destruct (bytes_eqb (e ++ [LF]) (b "0" ++ [LF])) eqn:E; [| reflexivity].
    exfalso. apply bytes_eqb_eq in E. apply app_inj_tail in E as [E _].
    exact (He E). }
  cbn in E |- *. rewrite E. cbn. unfold lift, decode, get.
  rewrite is_ascii_app, Ha. reflexivity.
Qed.

Lemma _send__ok cmd cb s rest :
  encode cmd = Return cb ->
  in_buf (Self.port s) = [] ->
  script (Self.port s) = [] :: line "0" :: rest ->
  _send_ cmd s =
    (Return tt,
     Self.set_error (line "0")
       (Self.set_port (port_after s [cb ++ [LF]; line "ERR?"] rest) s)).
Proof.
  intros Hc Hb Hs. unfold _send_, _send.
  unfold bind at 1. unfold bind at 1. unfold lift. rewrite Hc.
  unfold bind at 1. unfold port_write, modify.
  unfold bind at 1. cbn [ret].
  unfold bind at 1. unfold port_in_waiting, get, Serial.in_waiting, Serial.write.
  cbn [Self.port Self.set_port in_buf]. rewrite Hb, Hs. cbn [hd app List.length].
  unfold bind at 1. cbn [Nat.eqb assert ret].
  unfold bind at 1.
  rewrite _check_errors_ok with (rest := rest) by reflexivity.
  cbn. unfold port_after. cbn. rewrite <- app_assoc. reflexivity.
Qed.

Lemma _send__error cmd cb s e rest :
  encode cmd = Return cb ->
  in_buf (Self.port s) = [] ->
  script (Self.port s) = [] :: (e ++ [LF]) :: rest ->
  ~ In LF e -> is_ascii e = true -> e <> b "0" ->
  _send_ cmd s =
    (Raise (RuntimeError (Self.name s ++ ": error = ")
              (string_of_list_byte (e ++ [LF]))),
     Self.set_error (e ++ [LF])
       (Self.set_port (port_after s [cb ++ [LF]; line "ERR?"] rest) s)).
Proof.
  intros Hc Hb Hs Hn Ha He. unfold _send_, _send.
  unfold bind at 1. unfold bind at 1. unfold lift. rewrite Hc.
  unfold bind at 1. unfold port_write, modify.
  unfold bind at 1. cbn [ret].
  unfold bind at 1. unfold port_in_waiting, get, Serial.in_waiting, Serial.write.
  cbn [Self.port Self.set_port in_buf]. rewrite Hb, Hs. cbn [hd app List.length].
  unfold bind at 1. cbn [Nat.eqb assert ret].
  unfold bind at 1.
  rewrite _check_errors_error with (e := e) (rest := rest);
    try assumption; try reflexivity.
  cbn. unfold port_after. cbn. rewrite <- app_assoc. reflexivity.
Qed.

(** *** The setters of velocity, acceleration, deceleration, settling time *)

(** What the four setters have in common, for the cached pair
    [(getx, gety)], its bounds, the assertion and the command. *)
Definition rate_setter_spec
  (setter : option float -> option float -> M unit)
  (getx gety maxx maxy : Controller -> float)
  (site : assert_site) (cmd : float -> float -> string) : Prop :=
  forall s ax ay,
    let vx := default ax (getx s) in
    let vy := default ay (gety s) in
    let r := setter ax ay s in
    (* the cache holds the requested pair, whatever the outcome *)
    (getx (snd r) = vx /\ gety (snd r) = vy) /\
    (* out of range: the assertion, with nothing written *)
    (in_range vx (maxx s) && in_range vy (maxy s) = false ->
     fst r = Raise (AssertionError site) /\ Self.port (snd r) = Self.port s) /\
    (* in range: the command is the first write *)
    (in_range vx (maxx s) && in_range vy (maxy s) = true ->
     (exists w, written (Self.port (snd r)) =
                  written (Self.port s) ++ line (cmd vx vy) :: w) /\
     (* ... and the call returns if the device answers ERR? with 0 *)
     (forall rest,
        in_buf (Self.port s) = [] ->
        script (Self.port s) = [] :: line "0" :: rest ->
        fst r = Return tt /\
        written (Self.port (snd r)) =
          written (Self.port s) ++ [line (cmd vx vy); line "ERR?"]) /\
     (* ... and raises the device's error if it answers with another line *)
     (forall e rest,
        in_buf (Self.port s) = [] ->
        script (Self.port s) = [] :: (e ++ [LF]) :: rest ->
        ~ In LF e -> is_ascii e = true -> e <> b "0" ->
        fst r = Raise (RuntimeError (Self.name s ++ ": error = ")
                         (string_of_list_byte (e ++ [LF]))) /\
        written (Self.port (snd r)) =
          written (Self.port s) ++ [line (cmd vx vy); line "ERR?"])).

Lemma rate_setter_spec_intro setter getx gety
  (setx sety : float -> Controller -> Controller) maxx maxy site cmd :
  (forall s ax ay,
     setter ax ay s =
       let vx := default ax (getx s) in
       let vy := default ay (gety s) in
       let s1 := sety vy (setx vx s) in
       if in_range vx (maxx s) && in_range vy (maxy s)
       then _send_ (cmd vx vy) s1
       else (Raise (AssertionError site), s1)) ->
  (forall vx vy s,
     getx (sety vy (setx vx s)) = vx /\ gety (sety vy (setx vx s)) = vy /\
     Self.port (sety vy (setx vx s)) = Self.port s /\
     Self.name (sety vy (setx vx s)) = Self.name s) ->
  (forall p e s,
     getx (Self.set_error e (Self.set_port p s)) = getx s /\
     gety (Self.set_error e (Self.set_port p s)) = gety s) ->
  (forall vx vy, encode (cmd vx vy) = Return (b (cmd vx vy))) ->
  rate_setter_spec setter getx gety maxx maxy site cmd.
Proof.
  intros Hun Hset Hio Henc s ax ay vx vy r. subst r. rewrite Hun.
  fold vx vy. cbv zeta.
  destruct (Hset vx vy s) as (Gx & Gy & Gp & Gn).
  set (s1 := sety vy (setx vx s)) in *.
  destruct (in_range vx (maxx s) && in_range vy (maxy s)) eqn:Er.
  - split; [| split; [intro H; discriminate H | intros _; split; [| split]]].
    + destruct (io__send_ (cmd vx vy) s1) as (p & e & E). rewrite E.
      destruct (Hio p e s1) as [-> ->]. auto.
    + destruct (written__send__first _ _ s1 (Henc vx vy)) as (w & E).
      exists w. rewrite E, Gp. reflexivity.
    + intros rest Hb Hs.
      rewrite (_send__ok _ _ s1 rest (Henc vx vy)) by (rewrite Gp; assumption).
      cbn. rewrite Gp. split; reflexivity.
    + intros e rest Hb Hs Hn Ha He.
      rewrite (_send__error _ _ s1 e rest (Henc vx vy))
        by (try rewrite Gp; assumption).
      cbn. rewrite Gp, Gn. split; reflexivity.
  - cbn. split; [auto |]. split; [auto | intro H; discriminate H].
Qed.

Ltac setter_unfold :=
  intros s ax ay; destruct ax, ay;
  cbv [set_velocity set_acceleration set_deceleration set_settling_time_ms
       bind ret get modify assert raise default];
  cbn -[_send_ in_range PrimFloat.mul];
  match goal with
  | |- context [if ?c then _ else _] => destruct c; reflexivity
  end.

Lemma encode_spa_settle_cmd vx vy :
  encode (spa_settle_cmd vx vy) = Return (b (spa_settle_cmd vx vy)).
Proof.
  apply encode_ascii. unfold spa_settle_cmd.
  repeat apply is_ascii_b_app; try reflexivity; apply is_ascii_fmt_9f.
Qed.

Lemma set_velocity_spec :
  rate_setter_spec set_velocity Self.xv Self.yv Self.xv_max Self.yv_max
    AssertVelocity (rate_cmd "VEL").
Proof.
  apply rate_setter_spec_intro with (setx := Self.set_xv) (sety := Self.set_yv).
  - setter_unfold.
  - intros. repeat split.
  - intros. repeat split.
  - intros. apply encode_rate_cmd. reflexivity.
Qed.

Lemma set_acceleration_spec :
  rate_setter_spec set_acceleration Self.xa Self.ya Self.xa_max Self.ya_max
    AssertAcceleration (rate_cmd "ACC").
Proof.
  apply rate_setter_spec_intro with (setx := Self.set_xa) (sety := Self.set_ya).
  - setter_unfold.
  - intros. repeat split.
  - intros. repeat split.
  - intros. apply encode_rate_cmd. reflexivity.
Qed.

Lemma set_deceleration_spec :
  rate_setter_spec set_deceleration Self.xd Self.yd Self.xd_max Self.yd_max
    AssertDeceleration (rate_cmd "ACC").
Proof.
  apply rate_setter_spec_intro with (setx := Self.set_xd) (sety := Self.set_yd).
  - setter_unfold.
  - intros. repeat split.
  - intros. repeat split.
  - intros. apply encode_rate_cmd. reflexivity.
Qed.

Lemma set_settling_time_ms_spec :
  rate_setter_spec set_settling_time_ms Self.xst Self.yst
    (fun _ => 1000%float) (fun _ => 1000%float) AssertSettlingTime
    (fun vx vy => spa_settle_cmd (Py.f1e_3 * vx)%float (Py.f1e_3 * vy)%float).
Proof.
  apply rate_setter_spec_intro with (setx := Self.set_xst) (sety := Self.set_yst).
  - setter_unfold.
  - intros. repeat split.
  - intros. repeat split.
  - intros. apply encode_spa_settle_cmd.
Qed.

(** *** set_positional_tolerance_um: when xpt and ypt are assigned *)

(** The relation [R] holds from the start of a call to its end whenever
    the call raises an exception in [G]. *)
Definition on_raise (G : exn -> Prop) (R : Controller -> Controller -> Prop)
  {A} (m : M A) : Prop :=
  forall s e s', m s = (Raise e, s') -> G e -> R s s'.

Lemma on_raise_keeps G R {A} (m : M A) : keeps R m -> on_raise G R m.
Proof. intros H s e s' E _. specialize (H s). rewrite E in H. exact H. Qed.

Lemma on_raise_raises G R {A} (m : M A) :
  raises (fun e => ~ G e) m -> on_raise G R m.
Proof. intros H s e s' E Hg. exfalso. exact (H s e s' E Hg). Qed.

Lemma on_raise_bind G R {A B} (m : M A) (k : A -> M B) :
  (forall s1 s2 s3, R s1 s2 -> R s2 s3 -> R s1 s3) ->
  keeps R m -> (forall a, on_raise G R (k a)) -> on_raise G R (bind m k).
Proof.
  intros Ht Hm Hk s e s' E Hg.
  apply bind_Raise in E as [E | (a & s1 & E1 & E)].
  - specialize (Hm s). rewrite E in Hm. exact Hm.
  - eapply Ht.
    + specialize (Hm s). rewrite E1 in Hm. exact Hm.
    + eapply Hk; eassumption.
Qed.

(** [xpt] and [ypt] are as before. *)
Definition same_tolerance_um (s s' : Controller) : Prop :=
  Self.xpt s' = Self.xpt s /\ Self.ypt s' = Self.ypt s.

Lemma same_tolerance_um_refl s : same_tolerance_um s s.
Proof. split; reflexivity. Qed.

Lemma same_tolerance_um_trans s1 s2 s3 :
  same_tolerance_um s1 s2 -> same_tolerance_um s2 s3 -> same_tolerance_um s1 s3.
Proof. unfold same_tolerance_um. intros [A B] [C D]. split; congruence. Qed.

Lemma same_tolerance_um_frames {A} (m : M A) :
  keeps (same Self.xpt) m -> keeps (same Self.ypt) m ->
  keeps same_tolerance_um m.
Proof. intros H1 H2 s. split; [apply H1 | apply H2]. Qed.

(** The failures of validation and of the line. *)
Definition tolerance_reject (e : exn) : Prop :=
  line_exn e \/ e = AssertionError AssertToleranceMax \/
  e = AssertionError AssertToleranceMargin.

Lemma float_of_int_Raise z e : Py.float_of_int z = Raise e -> e = OverflowError.
Proof.
  unfold Py.float_of_int. destruct (binary_normalize _ _ _ _ _);
    intro H; inversion H; reflexivity.
Qed.

Lemma counts_to_um_Raise c ecpu e :
  counts_to_um c ecpu = Raise e -> e = OverflowError \/ e = ZeroDivisionError.
Proof.
  unfold counts_to_um, obind. destruct (Py.float_of_int c) as [f | e' |] eqn:E.
  - unfold Py.div. destruct (PrimFloat.eqb ecpu 0); intro H; inversion H. auto.
  - intro H. inversion H. subst. apply float_of_int_Raise in E. auto.
  - discriminate.
Qed.

Lemma set_positional_tolerance_um_on_raise xpt ypt margin :
  on_raise tolerance_reject same_tolerance_um
    (set_positional_tolerance_um xpt ypt margin).
Proof.
  unfold set_positional_tolerance_um.
  do 18 (apply on_raise_bind;
         [ apply same_tolerance_um_trans
         | apply same_tolerance_um_frames; frame_same
         | intro ]).
  apply on_raise_raises. repeat raises_step;
    match goal with
    | H : counts_to_um _ _ = Raise _ |- _ =>
        apply counts_to_um_Raise in H as [-> | ->];
        intros [Hl | [Hl | Hl]]; solve [exact Hl | discriminate Hl]
    end.
Qed.

(** C3 (amended): every setter takes the cached value for an omitted
    argument.  The setters of velocity, acceleration and deceleration assert
    [0 <= value <= cached max], the setter of the settling time
    [0 <= value <= 1000]; a value out of range raises with nothing written.
    These four assign the cache first: after the call, whatever its outcome,
    the cache holds the requested pair.  In range, the command is written,
    the call returns when [ERR?] is answered with [0] and raises the
    device's error, carrying the answer, when it is answered with another
    line.  The tolerance setter assigns [xpt], [ypt] last: they are as before
    when it fails in validation or on the line. *)
Theorem setters_assign_before_send :
  rate_setter_spec set_velocity Self.xv Self.yv Self.xv_max Self.yv_max
    AssertVelocity (rate_cmd "VEL") /\
  rate_setter_spec set_acceleration Self.xa Self.ya Self.xa_max Self.ya_max
    AssertAcceleration (rate_cmd "ACC") /\
  rate_setter_spec set_deceleration Self.xd Self.yd Self.xd_max Self.yd_max
    AssertDeceleration (rate_cmd "ACC") /\
  rate_setter_spec set_settling_time_ms Self.xst Self.yst
    (fun _ => 1000%float) (fun _ => 1000%float) AssertSettlingTime
    (fun vx vy => spa_settle_cmd (Py.f1e_3 * vx)%float (Py.f1e_3 * vy)%float) /\
  (forall s xpt ypt margin,
     set_positional_tolerance_um xpt ypt margin s =
       set_positional_tolerance_um
         (Some (default xpt (Self.xpt s))) (Some (default ypt (Self.ypt s)))
         margin s) /\
  (forall s xpt ypt margin e,
     let r := set_positional_tolerance_um xpt ypt margin s in
     fst r = Raise e -> tolerance_reject e ->
     Self.xpt (snd r) = Self.xpt s /\ Self.ypt (snd r) = Self.ypt s).
Proof.
  split; [exact set_velocity_spec |].
  split; [exact set_acceleration_spec |].
  split; [exact set_deceleration_spec |].
  split; [exact set_settling_time_ms_spec |].
  split.
  - intros s xpt ypt margin. destruct xpt, ypt; reflexivity.
  - intros s xpt ypt margin e r Hr He.
    apply (set_positional_tolerance_um_on_raise xpt ypt margin s e (snd r));
      [| exact He].
    rewrite <- Hr. subst r. apply surjective_pairing.
Qed.

(** C3, as stated, fails: [ERR?] answered with [1] makes [set_velocity]
    raise, and the cached velocities are the requested ones all the same;
    so are they when the request is out of range. *)
Lemma set_velocity_cache_on_failure :
  let s := stage true false [[]; line "1"] in
  let failed := set_velocity (Some 50%float) (Some 60%float) s in
  let refused := set_velocity (Some 200%float) None s in
  (fst failed =
     Raise (RuntimeError "C-867.2U2: error = " (string_of_list_byte (line "1"))) /\
   (Self.xv s = 100%float /\ Self.yv s = 100%float) /\
   (Self.xv (snd failed) = 50%float /\ Self.yv (snd failed) = 60%float)) /\
  (fst refused = Raise (AssertionError AssertVelocity) /\
   Self.xv (snd refused) = 200%float).
Proof. vm_compute. repeat split; reflexivity. Qed.

Lemma setters_assign_before_send_witness :
  let s := stage true false [[]; line "1"] in
  let r := set_velocity (Some 50%float) (Some 60%float) s in
  fst r = Raise (RuntimeError (Self.name s ++ ": error = ")
                   (string_of_list_byte (b "1" ++ [LF]))) /\
  written (Self.port (snd r)) =
    written (Self.port s) ++ [line (rate_cmd "VEL" 50 60); line "ERR?"].
Proof.
  destruct setters_assign_before_send as (Hv & _).
  destruct (Hv (stage true false [[]; line "1"]) (Some 50%float) (Some 60%float))
    as (_ & _ & Hin).
  destruct (Hin eq_refl) as (_ & _ & Herr).
  apply (Herr (b "1") []).
  - reflexivity.
  - reflexivity.
  - intros [H | []]. discriminate H.
  - reflexivity.
  - discriminate.
Defined.

(** C6: in range, [set_deceleration] writes an [ACC] command with the two
    decelerations and caches them. *)
Theorem set_deceleration_sends_ACC s xd yd :
  let vx := default xd (Self.xd s) in
  let vy := default yd (Self.yd s) in
  in_range vx (Self.xd_max s) && in_range vy (Self.yd_max s) = true ->
  let r := set_deceleration xd yd s in
  (exists w,
     written (Self.port (snd r)) =
       written (Self.port s) ++
       (b ("ACC 1 " ++ Py.fmt_9f vx ++ " 2 " ++ Py.fmt_9f vy ++ " ")%string
          ++ [LF]) :: w) /\
  Self.xd (snd r) = vx /\ Self.yd (snd r) = vy /\
  (forall rest,
     in_buf (Self.port s) = [] ->
     script (Self.port s) = [] :: line "0" :: rest ->
     fst r = Return tt /\
     written (Self.port (snd r)) =
       written (Self.port s) ++ [line (rate_cmd "ACC" vx vy); line "ERR?"]).
Proof.
  intros vx vy Hr r.
  destruct (set_deceleration_spec s xd yd) as ((Gx & Gy) & _ & Hin).
  destruct (Hin Hr) as (Hw & Hok & _).
  split; [exact Hw |]. split; [exact Gx |]. split; [exact Gy | exact Hok].
Qed.

Lemma set_deceleration_sends_ACC_witness :
  let s := stage true false ack in
  let r := set_deceleration (Some 500%float) (Some 250%float) s in
  fst r = Return tt /\
  written (Self.port (snd r)) =
    [b "ACC 1 500.000000000 2 250.000000000 " ++ [LF]; line "ERR?"].
Proof.
  destruct (set_deceleration_sends_ACC (stage true false ack)
              (Some 500%float) (Some 250%float) eq_refl) as (_ & _ & _ & H).
  exact (H [] eq_refl eq_refl).
Defined.

(** C8: the y counts are computed with the x calibration.  With 10000
    counts per mm on x and 20000 on y, a request of 1 um on y stores 10
    counts where the y calibration gives 20, and caches 0.5 um. *)
Lemma set_positional_tolerance_um_y_calibration :
  let s := stage_y 20000 true false (ack ++ ack) in
  let r := set_positional_tolerance_um (Some 1%float) (Some 1%float) Py.f0_1 s in
  fst r = Return tt /\
  um_to_counts 1 (Self.y_ecpu s) = Return 20 /\
  Self.yptc (snd r) = 10 /\
  Self.ypt (snd r) = 0.5%float.
Proof. vm_compute. repeat split; reflexivity. Qed.

Section JoystickFlagClaim.

Variable float_of_str : string -> option float.


End JoystickFlagClaim.

(** *** The writes of a move that returns *)

(** A transaction without answer: the command, then the error query. *)
Definition tx (cmd : string) : list (list byte) := [line cmd; line "ERR?"].

Definition joystick_off : list (list byte) := tx "HIN 1 0" ++ tx "HIN 2 0".
Definition joystick_on : list (list byte) := tx "HIN 1 1" ++ tx "HIN 2 1".

(** The writes of a completion poll of [n] requests with the flag [j]. *)
Definition settle (n : nat) (j : bool) : list (list byte) :=
  repeat [x05] n ++ (if j then joystick_on else []) ++ [line "ERR?"].

Lemma _send_Return cmd respond s r s' :
  _send cmd respond s = (Return r, s') ->
  exists cb, encode cmd = Return cb /\
    written (Self.port s') = written (Self.port s) ++ [cb ++ [LF]; line "ERR?"].
Proof.
  unfold _send. intro H.
  step H. exists a. split; [assumption |].
  step H.
  apply bind_Return in H as (rs & s1 & H1 & H).
  assert (Hw : written (Self.port s1) =
               written (Self.port s) ++ [a ++ [LF]]).
  { destruct respond.
    - step H1. step H1. injection H1 as _ <-.
      match goal with
      | Hr : read_responses ?f ?acc ?s0 = _ |- _ =>
          pose proof (written_silent (read_responses f acc) s0
                        (log_read_responses no_write f acc)) as Hq;
          rewrite Hr in Hq; exact Hq
      end.
    - injection H1 as _ <-. reflexivity. }
  step H. step H. step H. injection H as _ <-.
  match goal with
  | Hc : _check_errors _ = _ |- _ => apply _check_errors_Return in Hc as [E _]
  end.
  rewrite E, Hw, <- app_assoc. reflexivity.
Qed.

Lemma _send__tx cmd s u s' :
  is_ascii (b cmd) = true ->
  _send_ cmd s = (Return u, s') ->
  written (Self.port s') = written (Self.port s) ++ tx cmd /\ io_only s s'.
Proof.
  intros Ha H. split.
  - apply _send__Return in H as (cb & E & Hw).
    rewrite (encode_ascii cmd Ha) in E. injection E as <-. exact Hw.
  - pose proof (io__send_ cmd s) as Hio. rewrite H in Hio. exact Hio.
Qed.

Lemma joystick_on_Return s u s' :
  (_send_ "HIN 1 1" ;; _send_ "HIN 2 1") s = (Return u, s') ->
  written (Self.port s') = written (Self.port s) ++ joystick_on /\ io_only s s'.
Proof.
  intro H. apply bind_Return in H as (u1 & s1 & H1 & H).
  apply _send__tx in H1 as [W1 I1]; [| reflexivity].
  apply _send__tx in H as [W2 I2]; [| reflexivity].
  split; [| eapply io_only_trans; eassumption].
  rewrite W2, W1, <- app_assoc. reflexivity.
Qed.

Lemma joystick_off_Return s u s' :
  (_send_ "HIN 1 0" ;; _send_ "HIN 2 0") s = (Return u, s') ->
  written (Self.port s') = written (Self.port s) ++ joystick_off /\ io_only s s'.
Proof.
  intro H. apply bind_Return in H as (u1 & s1 & H1 & H).
  apply _send__tx in H1 as [W1 I1]; [| reflexivity].
  apply _send__tx in H as [W2 I2]; [| reflexivity].
  split; [| eapply io_only_trans; eassumption].
  rewrite W2, W1, <- app_assoc. reflexivity.
Qed.

(** A completion poll that returns: nothing if no move is outstanding;
    otherwise one request or more, the re-enabling if the flag is set, the
    error query, and [_moving] is false. *)
Lemma _finish_moving_Return fuel s u s' :
  _finish_moving fuel s = (Return u, s') ->
  (Self._moving s = false /\ s' = s) \/
  (Self._moving s = true /\ Self._moving s' = false /\
   Self._joystick_enabled s' = Self._joystick_enabled s /\
   exists n, written (Self.port s') =
               written (Self.port s) ++ settle (S n) (Self._joystick_enabled s)).
Proof.
  intro H. pose proof (flag__finish_moving fuel s) as Hf. rewrite H in Hf.
  cbn [snd] in Hf.
  unfold _finish_moving in H. step H.
  destruct (Self._moving s) eqn:Em; cbn [negb] in H.
  2: { left. injection H as _ <-. auto. }
  right. split; [reflexivity |].
  apply bind_Return in H as (u1 & s1 & Hp & H).
  pose proof (io_poll fuel s) as Hio. rewrite Hp in Hio. cbn [snd] in Hio.
  destruct Hio as (p & e & ->).
  apply poll_Return in Hp as (n & Wp). cbn [Self.port Self.set_error Self.set_port] in Wp.
  step H. step H.
  change (Self._joystick_enabled
            (Self.set__moving false (Self.set_error e (Self.set_port p s))))
    with (Self._joystick_enabled s) in H.
  apply bind_Return in H as (u2 & s2 & Hj & H).
  assert (Hs2 : written (Self.port s2) =
                  written (Self.port s) ++ repeat [x05] (S n) ++
                  (if Self._joystick_enabled s then joystick_on else []) /\
                Self._moving s2 = false).
  { destruct (Self._joystick_enabled s).
    - apply joystick_on_Return in Hj as [W (p' & e' & ->)]. split; [| reflexivity].
      rewrite W. cbn [Self.port Self.set__moving Self.set_error Self.set_port].
      rewrite Wp, <- app_assoc. reflexivity.
    - injection Hj as _ <-. split; [| reflexivity].
      cbn [Self.port Self.set__moving Self.set_error Self.set_port].
      rewrite Wp, app_nil_r. reflexivity. }
  destruct Hs2 as [W2 M2].
  pose proof (io__check_errors s2) as Hio. rewrite H in Hio. cbn [snd] in Hio.
  destruct Hio as (p3 & e3 & E3).
  apply _check_errors_Return in H as [W3 _].
  split; [rewrite E3; exact M2 |]. split; [exact Hf |].
  exists n. rewrite W3, W2. unfold settle. rewrite <- !app_assoc. reflexivity.
Qed.

Lemma encode_mov_cmd vx vy : encode (mov_cmd vx vy) = Return (b (mov_cmd vx vy)).
Proof.
  apply encode_ascii. unfold mov_cmd.
  repeat apply is_ascii_b_app; try reflexivity; apply is_ascii_fmt_9f.
Qed.

Section MoveReturns.

Variable float_of_str : string -> option float.

Lemma get_position_mm_written s v s' :
  get_position_mm float_of_str s = (Return v, s') ->
  written (Self.port s') = written (Self.port s) ++ tx "MOV? 1 2".
Proof.
  unfold get_position_mm. intro H.
  apply bind_Return in H as (rs & s1 & Hq & H).
  apply _send_Return in Hq as (cb & E & W). injection E as <-.
  step H. destruct a as [| px [| py [| pz l]]]; try discriminate H.
  step H. step H. injection H as _ <-. exact W.
Qed.

(** A move that returns: first the completion poll of the move before
    (state [s0]); then the disabling if the flag is set, the position query
    of a relative move, the [MOV] command; and, if the call blocks, the
    completion poll of this move. *)
Lemma move_mm_Return fuel x y relative block s u s' :
  move_mm float_of_str fuel x y relative block s = (Return u, s') ->
  exists s0 vx vy ending,
    _finish_moving fuel s = (Return tt, s0) /\
    (relative = false -> vx = x /\ vy = y) /\
    Self._joystick_enabled s' = Self._joystick_enabled s /\
    written (Self.port s') =
      written (Self.port s0)
      ++ (if Self._joystick_enabled s then joystick_off else [])
      ++ (if relative then tx "MOV? 1 2" else [])
      ++ tx (mov_cmd vx vy) ++ ending /\
    if block
    then Self._moving s' = false /\
         exists n, ending = settle (S n) (Self._joystick_enabled s)
    else Self._moving s' = true /\ ending = [].
Proof.
  intro H.
  pose proof (flag_move_mm float_of_str fuel x y relative block s) as Hflag.
  rewrite H in Hflag. cbn [snd] in Hflag. unfold same in Hflag.
  unfold move_mm in H.
  apply bind_Return in H as (u0 & s0 & Hfin & H). destruct u0.
  pose proof (flag__finish_moving fuel s) as Hf0. rewrite Hfin in Hf0.
  cbn [snd] in Hf0. unfold same in Hf0.
  step H. rewrite Hf0 in H.
  apply bind_Return in H as (u1 & s1 & Hoff & H).
  assert (H1 : written (Self.port s1) =
                 written (Self.port s0) ++
                 (if Self._joystick_enabled s then joystick_off else [])).
  { destruct (Self._joystick_enabled s).
    - apply joystick_off_Return in Hoff as [W _]. exact W.
    - injection Hoff as _ <-. rewrite app_nil_r. reflexivity. }
  clear Hoff.
  apply bind_Return in H as (u2 & s2 & Htgt & H).
  assert (H2 : written (Self.port s2) =
                 written (Self.port s1) ++
                 (if relative then tx "MOV? 1 2" else []) /\
               (relative = false -> Self.x s2 = x /\ Self.y s2 = y)).
  { destruct relative.
    - apply bind_Return in Htgt as (v & sp & Hq & Htgt).
      apply get_position_mm_written in Hq.
      step Htgt. step Htgt. step Htgt. injection Htgt as _ <-.
      split; [exact Hq | discriminate].
    - step Htgt. injection Htgt as _ <-.
      split; [cbn; rewrite app_nil_r; reflexivity | auto]. }
  clear Htgt. destruct H2 as [H2 Habs].
  step H. step H. step H. step H. step H. step H.
  apply bind_Return in H as (u3 & s3 & Hmov & H).
  apply _send__tx in Hmov as [H3 _];
    [| pose proof (encode_mov_cmd (Self.x s2) (Self.y s2)) as E;
       unfold encode in E; fold (b (mov_cmd (Self.x s2) (Self.y s2))) in E;
       destruct (is_ascii (b (mov_cmd (Self.x s2) (Self.y s2))));
       [reflexivity | discriminate E] ].
  step H.
  exists s0, (Self.x s2), (Self.y s2).
  destruct block.
  - apply _finish_moving_Return in H as [[Hm _] | (_ & Hm & Hj & n & W)];
      [discriminate Hm |].
    exists (settle (S n) (Self._joystick_enabled s)).
    split; [exact Hfin |]. split; [exact Habs |]. split; [exact Hflag |].
    split; [| split; [exact Hm | exists n; reflexivity]].
    assert (Hj3 : Self._joystick_enabled (Self.set__moving true s3) =
                  Self._joystick_enabled s) by congruence.
    rewrite W, Hj3. cbn [Self.port Self.set__moving].
    rewrite H3, H2, H1, <- !app_assoc. reflexivity.
  - injection H as _ <-. exists [].
    split; [exact Hfin |]. split; [exact Habs |]. split; [exact Hflag |].
    split; [| split; reflexivity].
    cbn [Self.port Self.set__moving].
    rewrite H3, H2, H1, app_nil_r, <- !app_assoc. reflexivity.
Qed.

End MoveReturns.

(** *** Two moves, the first without blocking *)

(** How many times [d] was written. *)
Definition count (d : list byte) (w : list (list byte)) : nat :=
  count_occ (list_eq_dec Byte.byte_eq_dec) w d.

Lemma count_app d w1 w2 : count d (w1 ++ w2) = (count d w1 + count d w2)%nat.
Proof. apply count_occ_app. Qed.

Lemma count_polls d n : d <> [x05] -> count d (repeat [x05] n) = 0%nat.
Proof.
  intro H. induction n as [| n IH]; [reflexivity |].
  unfold count in *. cbn [repeat]. rewrite count_occ_cons_neq; [exact IH |].
  intro E. apply H. symmetry. exact E.
Qed.

Lemma count_mov d vx vy :
  d = line "HIN 1 0" \/ d = line "HIN 1 1" ->
  count d (tx (mov_cmd vx vy)) = 0%nat.
Proof.
  intro H. unfold count, tx.
  rewrite count_occ_cons_neq.
  - destruct H as [-> | ->]; reflexivity.
  - unfold line, b, mov_cmd. cbn. destruct H as [-> | ->]; discriminate.
Qed.

Lemma count_query d (relative : bool) :
  d = line "HIN 1 0" \/ d = line "HIN 1 1" ->
  count d (if relative then tx "MOV? 1 2" else []) = 0%nat.
Proof. intros [-> | ->]; destruct relative; reflexivity. Qed.

Lemma count_settle d n (j : bool) :
  d = line "HIN 1 0" \/ d = line "HIN 1 1" ->
  count d (settle n j) =
    if j then count d joystick_on else 0%nat.
Proof.
  intro H. unfold settle. rewrite !count_app, count_polls.
  - destruct H as [-> | ->]; destruct j; reflexivity.
  - destruct H as [-> | ->]; discriminate.
Qed.

Section MoveTwice.

Variable float_of_str : string -> option float.

(** C2 (amended): after a first move that did not block, with the joystick
    flag set, the second [move_mm] first polls the first move to its end
    ([_moving] goes from true to false), re-enables the joystick, and only
    then disables it again and writes its own [MOV].  Each of the two calls
    disables the joystick once; it is re-enabled after the first move has
    settled, before the second [MOV], and once more after the second move
    has settled if the second call blocks. *)
Theorem move_mm_twice_trace
  fuel1 fuel2 x1 y1 relative1 x2 y2 relative2 block2 s s1 s2 :
  Self._moving s = false ->
  Self._joystick_enabled s = true ->
  move_mm float_of_str fuel1 x1 y1 relative1 false s = (Return tt, s1) ->
  move_mm float_of_str fuel2 x2 y2 relative2 block2 s1 = (Return tt, s2) ->
  Self._moving s1 = true /\
  exists n vx1 vy1 vx2 vy2 ending w,
    written (Self.port s2) = written (Self.port s) ++ w /\
    w = joystick_off
        ++ (if relative1 then tx "MOV? 1 2" else [])
        ++ tx (mov_cmd vx1 vy1)
        ++ settle (S n) true
        ++ joystick_off
        ++ (if relative2 then tx "MOV? 1 2" else [])
        ++ tx (mov_cmd vx2 vy2)
        ++ ending /\
    (if block2
     then Self._moving s2 = false /\ exists m, ending = settle (S m) true
     else Self._moving s2 = true /\ ending = []) /\
    count (line "HIN 1 0") w = 2%nat /\
    count (line "HIN 1 1") w = (if block2 then 2%nat else 1%nat).
Proof.
  intros Em Ej H1 H2.
  apply move_mm_Return in H1
    as (s0 & vx1 & vy1 & e1 & Hf1 & _ & Hj1 & W1 & Hm1 & He1).
  apply move_mm_Return in H2
    as (s0' & vx2 & vy2 & e2 & Hf2 & _ & Hj2 & W2 & Hb2).
  subst e1. rewrite Ej in *. rewrite Hj1 in *.
  apply _finish_moving_Return in Hf1 as [[_ ->] | (Hm & _)];
    [| rewrite Em in Hm; discriminate Hm].
  apply _finish_moving_Return in Hf2 as [[Hm _] | (_ & _ & _ & n & W0)];
    [rewrite Hm1 in Hm; discriminate Hm |].
  rewrite Hj1 in W0.
  split; [exact Hm1 |].
  exists n, vx1, vy1, vx2, vy2, e2. eexists. split; [| split; [reflexivity |]].
  - rewrite W2, W0, W1, app_nil_r, <- !app_assoc. reflexivity.
  - split; [exact Hb2 |].
    assert (Hc : forall d, d = line "HIN 1 0" \/ d = line "HIN 1 1" ->
               count d e2 = if block2 then count d joystick_on else 0%nat).
    { intros d Hd. destruct block2.
      - destruct Hb2 as (_ & m & ->). apply (count_settle d (S m) true Hd).
      - destruct Hb2 as (_ & ->). reflexivity. }
    split.
    + rewrite !count_app, !count_query, !count_mov, count_settle, Hc by auto.
      destruct block2; reflexivity.
    + rewrite !count_app, !count_query, !count_mov, count_settle, Hc by auto.
      destruct block2; reflexivity.
Qed.

End MoveTwice.

(** Replies for the two moves of the example: the first move is still under
    way at the first status request ([1]) and has settled at the second
    ([0]); the second move has settled at once. *)
Definition two_moves_script : list (list byte) :=
  ack ++ ack ++ ack                       (* HIN 1 0, HIN 2 0, MOV *)
  ++ [line "1"; line "0"]                 (* two status requests *)
  ++ ack ++ ack ++ [line "0"]             (* HIN 1 1, HIN 2 1, ERR? *)
  ++ ack ++ ack ++ ack                    (* HIN 1 0, HIN 2 0, MOV *)
  ++ [line "0"]                           (* one status request *)
  ++ ack ++ ack ++ [line "0"].            (* HIN 1 1, HIN 2 1, ERR? *)

(** C2, as stated, fails: across the two moves the joystick is disabled
    twice and re-enabled twice, the first time before the second [MOV]. *)
Lemma move_mm_twice_disables_twice :
  let s := stage true false two_moves_script in
  let r1 := move_mm float_of_decimal 5 1 1 false false s in
  let r2 := move_mm float_of_decimal 5 0 0 false true (snd r1) in
  fst r1 = Return tt /\ fst r2 = Return tt /\
  written (Self.port (snd r2)) =
    joystick_off ++ tx "MOV 1 1.000000000 2 1.000000000 "
    ++ [[x05]; [x05]] ++ joystick_on ++ [line "ERR?"]
    ++ joystick_off ++ tx "MOV 1 0.000000000 2 0.000000000 "
    ++ [[x05]] ++ joystick_on ++ [line "ERR?"] /\
  count (line "HIN 1 0") (written (Self.port (snd r2))) = 2%nat /\
  count (line "HIN 1 1") (written (Self.port (snd r2))) = 2%nat.
Proof. vm_compute. repeat split; reflexivity. Qed.

Lemma move_mm_twice_trace_witness :
  let s := stage true false two_moves_script in
  let s1 := snd (move_mm float_of_decimal 5 1 1 false false s) in
  let s2 := snd (move_mm float_of_decimal 5 0 0 false true s1) in
  Self._moving s1 = true /\
  exists n vx1 vy1 vx2 vy2 ending w,
    written (Self.port s2) = written (Self.port s) ++ w /\
    w = joystick_off
        ++ []
        ++ tx (mov_cmd vx1 vy1)
        ++ settle (S n) true
        ++ joystick_off
        ++ []
        ++ tx (mov_cmd vx2 vy2)
        ++ ending /\
    (Self._moving s2 = false /\ exists m, ending = settle (S m) true) /\
    count (line "HIN 1 0") w = 2%nat /\
    count (line "HIN 1 1") w = 2%nat.
Proof.
  apply (move_mm_twice_trace float_of_decimal 5 5 1 1 false 0 0 false true
           (stage true false two_moves_script)).
  - reflexivity.
  - reflexivity.
  - vm_compute. reflexivity.
  - vm_compute. reflexivity.
Defined.

(** *** Framing of a reply *)

(** The reply made of the lines [bodies], each with its terminator. *)
Definition frame_lines (bodies : list (list byte)) : list byte :=
  List.concat (map (fun l => l ++ [LF]) bodies).

(** A line of ASCII text (without its terminator). *)
Definition text (l : list byte) : Prop := ~ In LF l /\ is_ascii l = true.

(** The line ends in a space: more lines follow. *)
Definition more_follows (l : list byte) : Prop := exists l', l = l' ++ [SP].

(** The line is empty or does not end in a space: it is the last one. *)
Definition is_last (l : list byte) : Prop :=
  l = [] \/ exists l' c, l = l' ++ [c] /\ c <> SP.

(** The string that [_send] returns for a line. *)
Definition stripped (l : list byte) : string := string_of_list_byte (rstrip l).

(** [self.port] with the input buffer [buf]. *)
Definition with_in_buf (buf : list byte) (s : Controller) : Controller :=
  Self.set_port
    {| written := written (Self.port s); in_buf := buf;
       script := script (Self.port s) |} s.

Lemma byte_m2_line l c : byte_m2 ((l ++ [c]) ++ [LF]) = Some c.
Proof. unfold byte_m2. rewrite !rev_app_distr. reflexivity. Qed.

Lemma length_line_1 l : (List.length (l ++ [LF]) =? 1)%nat = match l with [] => true | _ => false end.
Proof.
  destruct l as [| c l]; [reflexivity |]. cbn. rewrite length_app. cbn.
  destruct (List.length l); reflexivity.
Qed.

Lemma decode_line l :
  is_ascii l = true -> decode (rstrip (l ++ [LF])) = Return (stripped l).
Proof.
  intro H. rewrite rstrip_line. unfold decode, stripped.
  rewrite (is_ascii_rstrip l H). reflexivity.
Qed.

Lemma read_responses_more fuel acc s l tail :
  text l -> more_follows l ->
  in_buf (Self.port s) = (l ++ [LF]) ++ tail ->
  read_responses (S fuel) acc s =
    read_responses fuel (acc ++ [stripped l]) (with_in_buf tail s).
Proof.
  intros [Hn Ha] (l' & ->) Hb. cbn [read_responses].
  unfold bind at 1. rewrite port_readline_run. unfold Serial.readline.
  rewrite Hb, <- app_assoc. cbn [app]. rewrite take_line_LF by exact Hn.
  cbn [fst snd]. unfold bind at 1. rewrite endswith_LF_line. cbn [assert ret].
  unfold bind at 1. unfold lift. rewrite decode_line by exact Ha.
  rewrite length_line_1, byte_m2_line.
  destruct l'; reflexivity.
Qed.

Lemma read_responses_last fuel acc s l tail :
  text l -> is_last l ->
  in_buf (Self.port s) = (l ++ [LF]) ++ tail ->
  read_responses (S fuel) acc s =
    (Return (acc ++ [stripped l]), with_in_buf tail s).
Proof.
  intros [Hn Ha] Hl Hb. cbn [read_responses].
  unfold bind at 1. rewrite port_readline_run. unfold Serial.readline.
  rewrite Hb, <- app_assoc. cbn [app]. rewrite take_line_LF by exact Hn.
  cbn [fst snd]. unfold bind at 1. rewrite endswith_LF_line. cbn [assert ret].
  unfold bind at 1. unfold lift. rewrite decode_line by exact Ha.
  rewrite length_line_1.
  destruct Hl as [-> | (l' & c & -> & Hc)]; [reflexivity |].
  rewrite byte_m2_line.
  destruct (Byte.eqb c SP) eqn:E.
  - exfalso. apply Hc. apply Byte.byte_dec_bl in E. exact E.
  - destruct l'; reflexivity.
Qed.

Lemma read_responses_unterminated fuel acc s :
  ~ In LF (in_buf (Self.port s)) ->
  read_responses (S fuel) acc s =
    (Raise (AssertionError AssertTerminator), with_in_buf [] s).
Proof.
  intro Hn. cbn [read_responses].
  unfold bind at 1. rewrite port_readline_run. unfold Serial.readline.
  rewrite take_line_no_LF by exact Hn. cbn [fst snd].
  unfold bind at 1. rewrite endswith_LF_no_LF by exact Hn. reflexivity.
Qed.

Lemma with_in_buf_twice b1 b2 s : with_in_buf b2 (with_in_buf b1 s) = with_in_buf b2 s.
Proof. reflexivity. Qed.

(** The loop reads on through the lines that end in a space. *)
Lemma read_responses_lines bodies : forall fuel acc s tail,
  Forall (fun l => text l /\ more_follows l) bodies ->
  in_buf (Self.port s) = frame_lines bodies ++ tail ->
  read_responses (List.length bodies + fuel) acc s =
    read_responses fuel (acc ++ map stripped bodies) (with_in_buf tail s).
Proof.
  induction bodies as [| l bodies IH]; intros fuel acc s tail Hf Hb.
  - cbn. rewrite app_nil_r. cbn in Hb. rewrite <- Hb.
    unfold with_in_buf. destruct s as [? [? ? ?]]; reflexivity.
  - inversion Hf as [| ? ? [Ht Hm] Hf']; subst.
    cbn [List.length Nat.add].
    unfold frame_lines in Hb. cbn [map List.concat] in Hb. rewrite <- app_assoc in Hb.
    rewrite (read_responses_more _ acc s l (frame_lines bodies ++ tail) Ht Hm)
      by exact Hb.
    rewrite (IH fuel (acc ++ [stripped l])
               (with_in_buf (frame_lines bodies ++ tail) s) tail Hf' eq_refl).
    rewrite with_in_buf_twice, <- app_assoc. reflexivity.
Qed.

Lemma length_frame_lines bodies :
  (List.length bodies <= List.length (frame_lines bodies))%nat.
Proof.
  induction bodies as [| l bodies IH]; [apply le_n |].
  unfold frame_lines in *. cbn. rewrite !length_app. cbn. lia.
Qed.

Lemma is_last_or_more_follows l : is_last l \/ more_follows l.
Proof.
  destruct (rev l) as [| c r] eqn:E.
  - left. left. apply (f_equal (@rev byte)) in E. rewrite rev_involutive in E. exact E.
  - apply (f_equal (@rev byte)) in E. rewrite rev_involutive in E. cbn in E.
    destruct (Byte.byte_eq_dec c SP) as [-> | Hc].
    + right. exists (rev r). exact E.
    + left. right. exists (rev r), c. auto.
Qed.

Lemma is_last_not_more_follows l : is_last l -> ~ more_follows l.
Proof.
  intros [-> | (l1 & c & -> & Hc)] (l2 & E).
  - destruct l2; discriminate E.
  - apply app_inj_tail in E as [_ E]. exact (Hc E).
Qed.

Lemma frame_lines_app b1 b2 : frame_lines (b1 ++ b2) = frame_lines b1 ++ frame_lines b2.
Proof. unfold frame_lines. rewrite map_app, concat_app. reflexivity. Qed.

(** [_send(cmd)] from the point where the command is on the line. *)
Lemma _send_unfold cmd cb s :
  encode cmd = Return cb ->
  _send cmd true s =
    let s1 := Self.set_port (Serial.write (cb ++ [LF]) (Self.port s)) s in
    bind (read_responses (S (List.length (in_buf (Self.port s1)))) [])
      (fun rs =>
         n <- port_in_waiting ;;
         assert (n =? 0)%nat AssertInWaiting ;;
         _check_errors ;;
         ret (Some rs)) s1.
Proof.
  intro E. cbv [_send bind lift port_write modify port_in_waiting get ret].
  rewrite E.
  destruct (read_responses _ [] _) as [[rs | e |] s2]; reflexivity.
Qed.

Lemma S_length_split (bodies : list (list byte)) (buf : list byte) (more : list byte) :
  buf = frame_lines bodies ++ more ->
  S (List.length buf) =
    (List.length bodies + S (List.length buf - List.length bodies))%nat.
Proof.
  intros ->. pose proof (length_frame_lines bodies). rewrite length_app. lia.
Qed.

(** C5: [_send(cmd)] against a reply of lines that end in a space, all but
    the last.  (a) A reply of such lines and a last line, followed by the
    answer [0] to [ERR?]: the lines are returned in order, each without its
    terminator and trailing whitespace.  (b) The reply breaks off in a line
    without terminator: the terminator assertion fails.  (c) Bytes follow
    the last line: reading stopped at the last line, they are left in the
    buffer and the assertion on [in_waiting] fails. *)
Theorem _send_framing cmd cb s bodies :
  encode cmd = Return cb ->
  in_buf (Self.port s) = [] ->
  Forall (fun l => text l /\ more_follows l) bodies ->
  (forall l rest,
     text l -> is_last l ->
     script (Self.port s) = frame_lines (bodies ++ [l]) :: line "0" :: rest ->
     _send cmd true s =
       (Return (Some (map stripped (bodies ++ [l]))),
        Self.set_error (line "0")
          (Self.set_port (port_after s [cb ++ [LF]; line "ERR?"] rest) s))) /\
  (forall partial rest,
     ~ In LF partial ->
     script (Self.port s) = (frame_lines bodies ++ partial) :: rest ->
     _send cmd true s =
       (Raise (AssertionError AssertTerminator),
        Self.set_port (port_after s [cb ++ [LF]] rest) s)) /\
  (forall l extra rest,
     text l -> is_last l -> extra <> [] ->
     script (Self.port s) = (frame_lines (bodies ++ [l]) ++ extra) :: rest ->
     _send cmd true s =
       (Raise (AssertionError AssertInWaiting),
        Self.set_port
          {| written := written (Self.port s) ++ [cb ++ [LF]];
             in_buf := extra; script := rest |} s)).
Proof.
  intros E Hb Hf. split; [| split].
  - intros l rest Ht Hl Hs. rewrite (_send_unfold cmd cb s E). cbv zeta.
    set (s1 := Self.set_port _ s).
    assert (Hb1 : in_buf (Self.port s1) = frame_lines bodies ++ (l ++ [LF]) ++ []).
    { subst s1. cbn. rewrite Hb, Hs. cbn. rewrite frame_lines_app.
      unfold frame_lines at 2. cbn. rewrite !app_nil_r. reflexivity. }
    rewrite (S_length_split bodies _ _ Hb1).
    unfold bind at 1.
    rewrite (read_responses_lines bodies _ [] s1 _ Hf Hb1).
    rewrite (read_responses_last _ _ _ l [] Ht Hl) by reflexivity.
    cbn [app]. rewrite <- map_app with (l' := [l]). rewrite with_in_buf_twice.
    rewrite (bind_run port_in_waiting _ (with_in_buf [] s1) 0%nat
               (with_in_buf [] s1) eq_refl).
    rewrite (bind_run (assert true AssertInWaiting) _ (with_in_buf [] s1) tt
               (with_in_buf [] s1) eq_refl).
    assert (Hs1 : script (Self.port (with_in_buf [] s1)) = line "0" :: rest)
      by (subst s1; cbn; rewrite Hs; reflexivity).
    rewrite (bind_run _check_errors _ _ tt _
               (_check_errors_ok (with_in_buf [] s1) rest eq_refl Hs1)).
    unfold ret, port_after. subst s1. cbn. rewrite <- app_assoc. reflexivity.
  - intros partial rest Hn Hs. rewrite (_send_unfold cmd cb s E). cbv zeta.
    set (s1 := Self.set_port _ s).
    assert (Hb1 : in_buf (Self.port s1) = frame_lines bodies ++ partial).
    { subst s1. cbn. rewrite Hb, Hs. reflexivity. }
    rewrite (S_length_split bodies _ _ Hb1).
    unfold bind at 1.
    rewrite (read_responses_lines bodies _ [] s1 _ Hf Hb1).
    rewrite read_responses_unterminated by exact Hn.
    unfold port_after, with_in_buf. subst s1.
    cbn [Self.port Self.set_port written in_buf script Serial.write].
    rewrite Hs. reflexivity.
  - intros l extra rest Ht Hl He Hs. rewrite (_send_unfold cmd cb s E). cbv zeta.
    set (s1 := Self.set_port _ s).
    assert (Hb1 : in_buf (Self.port s1) =
                    frame_lines bodies ++ (l ++ [LF]) ++ extra).
    { subst s1. cbn. rewrite Hb, Hs. cbn. rewrite frame_lines_app.
      unfold frame_lines at 2. cbn. rewrite app_nil_r, <- !app_assoc. reflexivity. }
    rewrite (S_length_split bodies _ _ Hb1).
    unfold bind at 1.
    rewrite (read_responses_lines bodies _ [] s1 _ Hf Hb1).
    rewrite (read_responses_last _ _ _ l extra Ht Hl) by reflexivity.
    rewrite with_in_buf_twice.
    destruct extra as [| c extra]; [contradiction He; reflexivity |].
    rewrite (bind_run port_in_waiting _ (with_in_buf (c :: extra) s1)
               (S (List.length extra)) (with_in_buf (c :: extra) s1) eq_refl).
    rewrite (bind_raise (assert false AssertInWaiting) _
               (with_in_buf (c :: extra) s1) (AssertionError AssertInWaiting)
               (with_in_buf (c :: extra) s1) eq_refl).
    unfold with_in_buf. subst s1.
    cbn [Self.port Self.set_port written in_buf script Serial.write].
    rewrite Hs. reflexivity.
Qed.

(** The reply of two lines to [MOV? 1 2]: the first line ends in a space. *)
Definition position_reply : list byte :=
  frame_lines [b "1=1.5000000 "; b "2=-2.2500000"].

Example get_position_mm_reads_two_lines :
  let r := get_position_mm float_of_decimal
             (stage true false [position_reply; line "0"]) in
  fst r = Return (1.5%float, (-2.25)%float) /\
  Self.x (snd r) = 1.5%float /\ Self.y (snd r) = (-2.25)%float.
Proof. vm_compute. repeat split; reflexivity. Qed.

Example move_mm_relative_adds :
  let r := move_mm float_of_decimal 5 1 1 true false
             (stage false false ([position_reply; line "0"] ++ ack)) in
  fst r = Return tt /\
  written (Self.port (snd r)) =
    tx "MOV? 1 2" ++ tx "MOV 1 2.500000000 2 -1.250000000 ".
Proof. vm_compute. repeat split; reflexivity. Qed.

Lemma _send_framing_witness :
  let s := stage true false [position_reply; line "0"] in
  _send "MOV? 1 2" true s =
    (Return (Some ["1=1.5000000"; "2=-2.2500000"]),
     Self.set_error (line "0")
       (Self.set_port (port_after s [line "MOV? 1 2"; line "ERR?"] []) s)).
Proof.
  destruct (_send_framing "MOV? 1 2" (b "MOV? 1 2")
              (stage true false [position_reply; line "0"])
              [b "1=1.5000000 "]) as (Ha & _ & _).
  - reflexivity.
  - reflexivity.
  - constructor; [| constructor]. split.
    + split; [| reflexivity]. intro H. cbn in H.
      repeat destruct H as [H | H]; try discriminate H. exact H.
    + exists (b "1=1.5000000"). reflexivity.
  - apply (Ha (b "2=-2.2500000") []).
    + split; [| reflexivity]. intro H. cbn in H.
      repeat destruct H as [H | H]; try discriminate H. exact H.
    + right. exists (b "2=-2.250000"), "0"%byte. split; [reflexivity | discriminate].
    + reflexivity.
Defined.

(** ** Calls that come to an end *)

(** The call returns or raises: no loop of it is cut off. *)
Definition halts {A} (m : M A) : Prop := forall s, fst (m s) <> Diverge.

Lemma halts_ret {A} (a : A) : halts (ret a).
Proof. intros s H. discriminate H. Qed.

Lemma halts_raise {A} e : halts (@raise A e).
Proof. intros s H. discriminate H. Qed.

Lemma halts_get {A} (f : Controller -> A) : halts (get f).
Proof. intros s H. discriminate H. Qed.

Lemma halts_modify f : halts (modify f).
Proof. intros s H. discriminate H. Qed.

Lemma halts_assert bv site : halts (assert bv site).
Proof. intros s H. destruct bv; discriminate H. Qed.

Lemma halts_lift {A} (o : outcome A) : o <> Diverge -> halts (lift o).
Proof. intros Ho s H. apply Ho. exact H. Qed.

Lemma halts_port_write data : halts (port_write data).
Proof. intros s H. discriminate H. Qed.

Lemma halts_port_readline : halts port_readline.
Proof. intros s H. rewrite port_readline_run in H. discriminate H. Qed.

Lemma halts_port_in_waiting : halts port_in_waiting.
Proof. intros s H. discriminate H. Qed.

Lemma halts_bind_at {A B} (m : M A) (k : A -> M B) s :
  fst (m s) <> Diverge ->
  (forall a s1, m s = (Return a, s1) -> fst (k a s1) <> Diverge) ->
  fst (bind m k s) <> Diverge.
Proof.
  intros Hm Hk. unfold bind. destruct (m s) as [[a| e |] s1]; cbn in *.
  - apply Hk. reflexivity.
  - discriminate.
  - exfalso. apply Hm. reflexivity.
Qed.

Lemma halts_bind {A B} (m : M A) (k : A -> M B) :
  halts m -> (forall a, halts (k a)) -> halts (bind m k).
Proof. intros Hm Hk s. apply halts_bind_at; [apply Hm | intros; apply Hk]. Qed.

Lemma decode_halts bs : decode bs <> Diverge.
Proof. unfold decode. destruct (is_ascii bs); discriminate. Qed.

Lemma encode_halts cmd : encode cmd <> Diverge.
Proof. unfold encode. destruct (is_ascii _); discriminate. Qed.

Lemma int_halts f : Py.int f <> Diverge.
Proof. unfold Py.int. destruct (Prim2SF f); discriminate. Qed.

Lemma float_of_int_halts z : Py.float_of_int z <> Diverge.
Proof.
  unfold Py.float_of_int. destruct (binary_normalize _ _ _ _ _); discriminate.
Qed.

Lemma div_halts x y : Py.div x y <> Diverge.
Proof. unfold Py.div. destruct (PrimFloat.eqb y 0); discriminate. Qed.

Lemma fmt_i_float_halts f : Py.fmt_i_float f <> Diverge.
Proof.
  unfold Py.fmt_i_float. pose proof (int_halts f).
  destruct (Py.int f); [discriminate | discriminate | contradiction].
Qed.

Lemma obind_halts {A B} (o : outcome A) (k : A -> outcome B) :
  o <> Diverge -> (forall a, k a <> Diverge) -> obind o k <> Diverge.
Proof.
  intros Ho Hk. destruct o; cbn; [apply Hk | discriminate |].
  exfalso. apply Ho. reflexivity.
Qed.

Lemma um_to_counts_halts um ecpu : um_to_counts um ecpu <> Diverge.
Proof. apply int_halts. Qed.

Lemma counts_to_um_halts c ecpu : counts_to_um c ecpu <> Diverge.
Proof.
  apply obind_halts; [apply float_of_int_halts | intro; apply div_halts].
Qed.

Lemma int_sub_float_halts c margin : int_sub_float c margin <> Diverge.
Proof. apply obind_halts; [apply float_of_int_halts | discriminate]. Qed.

Create HintDb halts.
#[local] Hint Resolve decode_halts encode_halts int_halts float_of_int_halts
  div_halts fmt_i_float_halts um_to_counts_halts counts_to_um_halts
  int_sub_float_halts : halts.

Ltac halts_step :=
  first
    [ solve [auto with halts]
    | progress cbv zeta
    | apply halts_bind; [ | intro ]
    | apply halts_ret
    | apply halts_raise
    | apply halts_get
    | apply halts_modify
    | apply halts_assert
    | apply halts_port_write
    | apply halts_port_readline
    | apply halts_port_in_waiting
    | apply halts_lift; solve [auto with halts]
    | match goal with
      | |- halts (if ?c then _ else _) => destruct c
      | |- halts (match ?v with _ => _ end) => destruct v
      end ].

Lemma halts__check_errors : halts _check_errors.
Proof. unfold _check_errors. repeat halts_step. Qed.
#[local] Hint Resolve halts__check_errors : halts.

Lemma take_line_length bs :
  List.length bs =
    (List.length (fst (Serial.take_line bs)) +
     List.length (snd (Serial.take_line bs)))%nat.
Proof.
  induction bs as [| c bs IH]; [reflexivity |]. cbn.
  destruct (Byte.eqb c LF); [reflexivity |].
  destruct (Serial.take_line bs) as [l r]. cbn in *. rewrite IH. reflexivity.
Qed.

Lemma endswith_LF_nonempty l : endswith_LF l = true -> l <> [].
Proof. intros H E. subst l. discriminate H. Qed.

(** Every turn of the loop takes a line of one byte or more off the buffer:
    with more turns left than bytes waiting the loop is not cut off. *)
Lemma read_responses_halts fuel : forall acc s,
  (List.length (in_buf (Self.port s)) < fuel)%nat ->
  fst (read_responses fuel acc s) <> Diverge.
Proof.
  induction fuel as [| fuel IH]; intros acc s Hlen; [inversion Hlen |].
  cbn [read_responses]. unfold bind at 1. rewrite port_readline_run.
  unfold Serial.readline.
  pose proof (take_line_length (in_buf (Self.port s))) as Hl.
  destruct (Serial.take_line (in_buf (Self.port s))) as [l r]. cbn [fst snd] in *.
  unfold bind at 1. destruct (endswith_LF l) eqn:El; [| discriminate].
  cbn [assert ret]. unfold bind at 1, lift.
  pose proof (decode_halts (rstrip l)) as Hd.
  destruct (decode (rstrip l)) as [t | e |]; [| discriminate | contradiction].
  destruct (List.length l =? 1)%nat; [discriminate |].
  destruct (byte_m2 l) as [c |]; [| discriminate].
  destruct (negb (Byte.eqb c SP)); [discriminate |].
  apply IH. cbn.
  apply endswith_LF_nonempty in El. destruct l; [contradiction |]. cbn in Hl. lia.
Qed.

Lemma halts__send cmd respond : halts (_send cmd respond).
Proof.
  intro s. unfold _send.
  apply halts_bind_at; [apply halts_lift, encode_halts |]. intros cb s1 _.
  apply halts_bind_at; [apply halts_port_write |]. intros u s2 _.
  apply halts_bind_at.
  - destruct respond; [| apply halts_ret].
    apply halts_bind_at; [apply halts_port_in_waiting |]. intros n s3 Hn.
    injection Hn as <- <-.
    apply halts_bind_at; [| intros; apply halts_ret].
    apply read_responses_halts. unfold Serial.in_waiting. lia.
  - intros rs s3 _. revert s3. change (halts (n <- port_in_waiting ;;
      assert (n =? 0)%nat AssertInWaiting ;; _check_errors ;; ret rs)).
    repeat halts_step.
Qed.
#[local] Hint Resolve halts__send : halts.

Lemma halts__send_ cmd : halts (_send_ cmd).
Proof. unfold _send_. repeat halts_step. Qed.
#[local] Hint Resolve halts__send_ : halts.

Lemma halts__enable_servo enable : halts (_enable_servo enable).
Proof. unfold _enable_servo. repeat halts_step. Qed.

Lemma halts__enable_joystick enable : halts (_enable_joystick enable).
Proof. unfold _enable_joystick. repeat halts_step. Qed.

Lemma halts_set_positional_tolerance_um xpt ypt margin :
  halts (set_positional_tolerance_um xpt ypt margin).
Proof. unfold set_positional_tolerance_um. repeat halts_step. Qed.

Lemma halts_set_settling_time_ms xst yst : halts (set_settling_time_ms xst yst).
Proof. unfold set_settling_time_ms. repeat halts_step. Qed.

Lemma halts_set_velocity xv yv : halts (set_velocity xv yv).
Proof. unfold set_velocity. repeat halts_step. Qed.

Lemma halts_set_acceleration xa ya : halts (set_acceleration xa ya).
Proof. unfold set_acceleration. repeat halts_step. Qed.

Lemma halts_set_deceleration xd yd : halts (set_deceleration xd yd).
Proof. unfold set_deceleration. repeat halts_step. Qed.

Section Halts.

Variable float_of_str : string -> option float.

Lemma parse_values_halts rs : parse_values float_of_str rs <> Diverge.
Proof.
  induction rs as [| a rs IH]; cbn; [discriminate |].
  apply obind_halts.
  - unfold parse_value. destruct (split_eq a) as [| k [| v l]]; try discriminate.
    destruct (float_of_str v); discriminate.
  - intro f. apply obind_halts; [exact IH | discriminate].
Qed.

Lemma halts_get_position_mm : halts (get_position_mm float_of_str).
Proof.
  pose proof parse_values_halts.
  unfold get_position_mm. repeat halts_step.
Qed.

Lemma halts__finish_moving_idle fuel s :
  Self._moving s = false -> _finish_moving fuel s = (Return tt, s).
Proof. intro Em. unfold _finish_moving, bind, get. rewrite Em. reflexivity. Qed.

(** The methods without a status poll return or raise, whatever is on the
    line; so does a move that neither waits for a move before it nor
    blocks. *)
Theorem methods_without_poll_halt :
  halts _check_errors /\
  (forall cmd respond, halts (_send cmd respond)) /\
  (forall enable, halts (_enable_servo enable)) /\
  (forall enable, halts (_enable_joystick enable)) /\
  halts (get_position_mm float_of_str) /\
  (forall xpt ypt margin, halts (set_positional_tolerance_um xpt ypt margin)) /\
  (forall a1 a2,
     halts (set_settling_time_ms a1 a2) /\ halts (set_velocity a1 a2) /\
     halts (set_acceleration a1 a2) /\ halts (set_deceleration a1 a2)) /\
  (forall fuel x y relative s,
     Self._moving s = false ->
     fst (move_mm float_of_str fuel x y relative false s) <> Diverge).
Proof.
  split; [apply halts__check_errors |].
  split; [apply halts__send |].
  split; [apply halts__enable_servo |].
  split; [apply halts__enable_joystick |].
  split; [apply halts_get_position_mm |].
  split; [apply halts_set_positional_tolerance_um |].
  split.
  { intros. repeat split;
      [ apply halts_set_settling_time_ms | apply halts_set_velocity
      | apply halts_set_acceleration | apply halts_set_deceleration ]. }
  intros fuel x y relative s Em. unfold move_mm.
  rewrite (bind_run _ _ _ _ _ (halts__finish_moving_idle fuel s Em)).
  pose proof halts_get_position_mm.
  match goal with |- fst (?m s) <> Diverge => revert s Em; intros s _; revert s;
    change (halts m) end.
  repeat halts_step.
Qed.

End Halts.

(** ** The status poll has no timeout *)

(** A reply to the status request that does not end the poll: two bytes at
    most (the poll reads two), and not [b'0\n'].  The empty reply of a
    device that keeps silent is one. *)
Definition busy (r : list byte) : Prop :=
  (List.length r <= 2)%nat /\ r <> line "0".

(** The line after [n] status requests that found the device busy. *)
Definition port_polled (n : nat) (p : Port) : Port :=
  {| written := written p ++ repeat [x05] n; in_buf := [];
     script := skipn n (script p) |}.

Lemma nth_tl {A} i (l : list A) d : nth i (tl l) d = nth (S i) l d.
Proof. destruct l; [destruct i; reflexivity | reflexivity]. Qed.

Lemma skipn_tl {A} n (l : list A) : skipn n (tl l) = skipn (S n) l.
Proof. destruct l; [apply skipn_nil | reflexivity]. Qed.

Lemma hd_nth0 {A} (l : list A) d : hd d l = nth 0 l d.
Proof. destruct l; reflexivity. Qed.

Lemma poll_busy fuel : forall s,
  in_buf (Self.port s) = [] ->
  (forall i, (i < fuel)%nat -> busy (nth i (script (Self.port s)) [])) ->
  poll fuel s = (Diverge, Self.set_port (port_polled fuel (Self.port s)) s).
Proof.
  induction fuel as [| fuel IH]; intros s Hb Hbusy.
  - cbn. unfold diverge, port_polled. cbn. rewrite app_nil_r, <- Hb.
    destruct s as [? [? ? ?]]; reflexivity.
  - cbn [poll]. unfold bind at 1. cbn [port_write modify].
    unfold bind at 1. cbn [port_read Serial.read].
    cbn [Self.port Self.set_port Serial.write in_buf written script].
    rewrite Hb. cbn [app].
    destruct (Hbusy 0%nat) as [Hlen Hne]; [lia |].
    rewrite <- hd_nth0 in Hlen, Hne.
    rewrite firstn_all2 by exact Hlen.
    rewrite skipn_all2 by exact Hlen.
    assert (E : bytes_eqb (hd [] (script (Self.port s))) (b "0" ++ [LF]) = false).
    { destruct (bytes_eqb _ _) eqn:E; [| reflexivity].
      apply bytes_eqb_eq in E. contradiction. }
    rewrite E.
    rewrite IH.
    + unfold port_polled.
      cbn [Self.port Self.set_port in_buf written script repeat].
      rewrite skipn_tl, <- app_assoc. reflexivity.
    + reflexivity.
    + intros i Hi. cbn [Self.port Self.set_port script].
      rewrite nth_tl. apply Hbusy. lia.
Qed.

Section PollForever.

Variable float_of_str : string -> option float.

(** With a move outstanding and a device that answers no status request
    with [b'0\n'] (or not at all), [_finish_moving] is still polling after
    any number of requests, and so is a [move_mm] that was called in this
    state: nothing but status requests is written. *)
Theorem _finish_moving_polls_while_busy s fuel :
  Self._moving s = true ->
  in_buf (Self.port s) = [] ->
  (forall i, busy (nth i (script (Self.port s)) [])) ->
  _finish_moving fuel s =
    (Diverge, Self.set_port (port_polled fuel (Self.port s)) s) /\
  (forall x y relative block,
     move_mm float_of_str fuel x y relative block s =
       (Diverge, Self.set_port (port_polled fuel (Self.port s)) s)).
Proof.
  intros Em Hb Hbusy.
  assert (H : _finish_moving fuel s =
                (Diverge, Self.set_port (port_polled fuel (Self.port s)) s)).
  { unfold _finish_moving. unfold bind at 1. cbn [get]. rewrite Em. cbn [negb].
    apply bind_diverge. apply poll_busy; [exact Hb | intros; apply Hbusy]. }
  split; [exact H |].
  intros x y relative block. unfold move_mm. apply bind_diverge. exact H.
Qed.

End PollForever.

(** ** Unread input *)

Lemma length_nonempty {A} (l l' : list A) :
  l <> [] -> (List.length (l ++ l') =? 0)%nat = false.
Proof. destruct l; [contradiction | reflexivity]. Qed.

(** A command without reply that finds unread bytes in the input buffer
    is written, and then fails the assertion on [in_waiting]: [ERR?] is not
    asked, and the bytes stay in the buffer. *)
Lemma _send_false_unread cmd cb s :
  encode cmd = Return cb ->
  in_buf (Self.port s) <> [] ->
  _send cmd false s =
    (Raise (AssertionError AssertInWaiting),
     Self.set_port (Serial.write (cb ++ [LF]) (Self.port s)) s).
Proof.
  intros E Hb. unfold _send. unfold bind at 1, lift. rewrite E.
  unfold bind at 1. cbn [port_write modify].
  unfold bind at 1. cbn [ret].
  unfold bind at 1. cbn [port_in_waiting get].
  unfold Serial.in_waiting.
  cbn [Self.port Self.set_port Serial.write in_buf].
  rewrite length_nonempty by exact Hb. reflexivity.
Qed.

Lemma _send__unread cmd cb s :
  encode cmd = Return cb ->
  in_buf (Self.port s) <> [] ->
  _send_ cmd s =
    (Raise (AssertionError AssertInWaiting),
     Self.set_port (Serial.write (cb ++ [LF]) (Self.port s)) s).
Proof.
  intros E Hb. unfold _send_. apply bind_raise. apply _send_false_unread; assumption.
Qed.

Lemma in_buf_write_nonempty data p : in_buf p <> [] -> in_buf (Serial.write data p) <> [].
Proof. destruct p as [w [| c i] sc]; [contradiction | discriminate]. Qed.

(** Unread bytes in the input buffer make every command without reply
    fail, and stay: the command is written, the assertion on [in_waiting]
    fails, [ERR?] is not asked, and the buffer is not empty afterwards.
    So it is with [_enable_servo], [_enable_joystick] and the setters of
    velocity, acceleration, deceleration and settling time for requests in
    range. *)
Theorem unread_input_fails_commands s :
  in_buf (Self.port s) <> [] ->
  (forall cmd cb,
     encode cmd = Return cb ->
     _send cmd false s =
       (Raise (AssertionError AssertInWaiting),
        Self.set_port (Serial.write (cb ++ [LF]) (Self.port s)) s) /\
     in_buf (Serial.write (cb ++ [LF]) (Self.port s)) <> []) /\
  (forall enable,
     fst (_enable_servo enable s) = Raise (AssertionError AssertInWaiting) /\
     fst (_enable_joystick enable s) = Raise (AssertionError AssertInWaiting) /\
     in_buf (Self.port (snd (_enable_servo enable s))) <> [] /\
     in_buf (Self.port (snd (_enable_joystick enable s))) <> []) /\
  (forall xv yv,
     in_range (default xv (Self.xv s)) (Self.xv_max s) &&
     in_range (default yv (Self.yv s)) (Self.yv_max s) = true ->
     fst (set_velocity xv yv s) = Raise (AssertionError AssertInWaiting) /\
     in_buf (Self.port (snd (set_velocity xv yv s))) <> []).
Proof.
  intro Hb. split; [| split].
  - intros cmd cb E. split; [apply _send_false_unread; assumption |].
    apply in_buf_write_nonempty, Hb.
  - intro enable. unfold _enable_servo, _enable_joystick.
    destruct enable; cbn [negb].
    + rewrite (bind_raise _ _ _ _ _ (_send__unread "SVO 1 1 2 1" _ s eq_refl Hb)).
      rewrite (bind_raise _ _ s (AssertionError AssertInWaiting)
                 (Self.set_port (Serial.write (b "HIN 1 1" ++ [LF]) (Self.port s)) s)).
      * repeat split; try apply in_buf_write_nonempty, Hb.
      * apply bind_raise. apply (_send__unread "HIN 1 1" _ s eq_refl Hb).
    + rewrite (bind_run _ _ s tt s eq_refl).
      rewrite (bind_raise _ _ _ _ _ (_send__unread "SVO 1 0 2 0" _ s eq_refl Hb)).
      rewrite (bind_run (ret tt) _ s tt s eq_refl).
      rewrite (bind_raise _ _ s (AssertionError AssertInWaiting)
                 (Self.set_port (Serial.write (b "HIN 1 0" ++ [LF]) (Self.port s)) s)).
      * repeat split; try apply in_buf_write_nonempty, Hb.
      * apply bind_raise. apply (_send__unread "HIN 1 0" _ s eq_refl Hb).
  - intros xv yv Hr.
    assert (E : set_velocity xv yv s =
              _send_ (rate_cmd "VEL" (default xv (Self.xv s)) (default yv (Self.yv s)))
                (Self.set_yv (default yv (Self.yv s))
                   (Self.set_xv (default xv (Self.xv s)) s))).
    { destruct xv, yv;
        cbv [set_velocity bind ret get modify assert raise default] in *;
        cbn -[_send_ in_range] in *; rewrite Hr; reflexivity. }
    rewrite E.
    rewrite (_send__unread _ _ _ (encode_rate_cmd "VEL" _ _ eq_refl)) by exact Hb.
    split; [reflexivity |]. apply in_buf_write_nonempty, Hb.
Qed.

(** ** What [self.error] holds after a call *)

(** [Q] holds of the exception that a call raises and of the state it
    leaves. *)
Definition raises_at (Q : exn -> Controller -> Prop) {A} (m : M A) : Prop :=
  forall s e s', m s = (Raise e, s') -> Q e s'.

(** [I] holds after a call that returns ([establishes]), if it held before
    ([preserves]). *)
Definition establishes (I : Controller -> Prop) {A} (m : M A) : Prop :=
  forall s a s', m s = (Return a, s') -> I s'.

Definition preserves (I : Controller -> Prop) {A} (m : M A) : Prop :=
  forall s a s', I s -> m s = (Return a, s') -> I s'.

Section RaisesAt.

Variable Q : exn -> Controller -> Prop.

Lemma raises_at_bind {A B} (m : M A) (k : A -> M B) :
  raises_at Q m -> (forall a, raises_at Q (k a)) -> raises_at Q (bind m k).
Proof.
  intros Hm Hk s e s' E. apply bind_Raise in E as [E | (a & s1 & _ & E)].
  - eapply Hm, E.
  - eapply Hk, E.
Qed.

Lemma raises_at_never {A} (m : M A) :
  (forall s e s', m s <> (Raise e, s')) -> raises_at Q m.
Proof. intros H s e s' E. exfalso. exact (H s e s' E). Qed.

Lemma raises_at_ret {A} (a : A) : raises_at Q (ret a).
Proof. apply raises_at_never. discriminate. Qed.

Lemma raises_at_get {A} (f : Controller -> A) : raises_at Q (get f).
Proof. apply raises_at_never. discriminate. Qed.

Lemma raises_at_modify f : raises_at Q (modify f).
Proof. apply raises_at_never. discriminate. Qed.

Lemma raises_at_diverge {A} : raises_at Q (@diverge A).
Proof. apply raises_at_never. discriminate. Qed.

Lemma raises_at_port_write data : raises_at Q (port_write data).
Proof. apply raises_at_never. discriminate. Qed.

Lemma raises_at_port_read n : raises_at Q (port_read n).
Proof. apply raises_at_never. discriminate. Qed.

Lemma raises_at_port_readline : raises_at Q port_readline.
Proof.
  apply raises_at_never. intros s e s' H. rewrite port_readline_run in H.
  discriminate H.
Qed.

Lemma raises_at_raise {A} e : (forall s, Q e s) -> raises_at Q (@raise A e).
Proof. intros H s e' s' E. injection E as <- <-. apply H. Qed.

Lemma raises_at_assert bv site :
  (forall s, Q (AssertionError site) s) -> raises_at Q (assert bv site).
Proof.
  intros H s e s' E. destruct bv; [discriminate E |]. injection E as <- <-. apply H.
Qed.

Lemma raises_at_lift {A} (o : outcome A) :
  (forall e s, o = Raise e -> Q e s) -> raises_at Q (lift o).
Proof. intros H s e s' E. injection E as E _. apply H, E. Qed.

End RaisesAt.

Section Establishes.

Variable I : Controller -> Prop.

Lemma establishes_preserves {A} (m : M A) : establishes I m -> preserves I m.
Proof. intros H s a s' _ E. eapply H, E. Qed.

Lemma establishes_bind {A B} (m : M A) (k : A -> M B) :
  establishes I m -> (forall a, preserves I (k a)) -> establishes I (bind m k).
Proof.
  intros Hm Hk s r s' E. apply bind_Return in E as (a & s1 & E1 & E).
  eapply Hk; [eapply Hm, E1 | exact E].
Qed.

Lemma establishes_last {A B} (m : M A) (k : A -> M B) :
  (forall a, establishes I (k a)) -> establishes I (bind m k).
Proof.
  intros Hk s r s' E. apply bind_Return in E as (a & s1 & _ & E). eapply Hk, E.
Qed.

Lemma preserves_bind {A B} (m : M A) (k : A -> M B) :
  preserves I m -> (forall a, preserves I (k a)) -> preserves I (bind m k).
Proof.
  intros Hm Hk s r s' Hi E. apply bind_Return in E as (a & s1 & E1 & E).
  eapply Hk; [eapply Hm; [exact Hi | exact E1] | exact E].
Qed.

Lemma preserves_same {A} (m : M A) :
  (forall s, m s = (fst (m s), s)) -> preserves I m.
Proof. intros H s a s' Hi E. rewrite H in E. injection E as _ <-. exact Hi. Qed.

Lemma preserves_ret {A} (a : A) : preserves I (ret a).
Proof. apply preserves_same. reflexivity. Qed.

Lemma preserves_get {A} (f : Controller -> A) : preserves I (get f).
Proof. apply preserves_same. reflexivity. Qed.

Lemma preserves_lift {A} (o : outcome A) : preserves I (lift o).
Proof. apply preserves_same. reflexivity. Qed.

Lemma preserves_assert bv site : preserves I (assert bv site).
Proof. apply preserves_same. destruct bv; reflexivity. Qed.

Lemma preserves_raise {A} e : preserves I (@raise A e).
Proof. apply preserves_same. reflexivity. Qed.

Lemma preserves_diverge {A} : preserves I (@diverge A).
Proof. apply preserves_same. reflexivity. Qed.

Lemma preserves_modify f : (forall s, I s -> I (f s)) -> preserves I (modify f).
Proof. intros H s a s' Hi E. injection E as _ <-. apply H, Hi. Qed.

Lemma preserves_keeps (R : Controller -> Controller -> Prop) {A} (m : M A) :
  (forall s s', R s s' -> I s -> I s') -> keeps R m -> preserves I m.
Proof.
  intros H Hm s a s' Hi E. specialize (Hm s). rewrite E in Hm.
  exact (H _ _ Hm Hi).
Qed.

End Establishes.

(** One step of a proof of [preserves I]; the leaves are left to [tac]. *)
Ltac preserves_step tac :=
  first
    [ solve [tac]
    | progress cbv zeta
    | apply preserves_bind; [ | intro ]
    | apply preserves_ret
    | apply preserves_get
    | apply preserves_lift
    | apply preserves_assert
    | apply preserves_raise
    | apply preserves_diverge
    | match goal with
      | |- preserves _ (if ?c then _ else _) => destruct c
      | |- preserves _ (match ?v with _ => _ end) => destruct v
      end ].

(** Skips the actions of a chain up to the one that [tac] deals with. *)
Ltac last_until tac :=
  first [ solve [tac] | apply establishes_last; intro; last_until tac ].

(** An exception that is not the [RuntimeError] of [_check_errors]. *)
Definition plain (e : exn) : Prop :=
  match e with RuntimeError _ _ => False | _ => True end.

(** A [RuntimeError] carries the text of [self.error], which is not
    [b'0\n']. *)
Definition reported (e : exn) (s : Controller) : Prop :=
  match e with
  | RuntimeError prefix msg =>
      prefix = (Self.name s ++ ": error = ")%string /\
      msg = string_of_list_byte (Self.error s) /\
      Self.error s <> line "0"
  | _ => True
  end.

Lemma reported_plain e s : plain e -> reported e s.
Proof. destruct e; cbn; tauto. Qed.

Lemma plain_decode bs e : decode bs = Raise e -> plain e.
Proof. intro H. apply decode_Raise in H. subst e. exact I. Qed.

Lemma plain_encode cmd e : encode cmd = Raise e -> plain e.
Proof. intro H. apply encode_Raise in H. subst e. exact I. Qed.

Lemma int_Raise f e : Py.int f = Raise e -> e = OverflowError \/ e = ValueError.
Proof.
  unfold Py.int. destruct (Prim2SF f); intro H; inversion H; auto.
Qed.

Lemma plain_um_to_counts um ecpu e : um_to_counts um ecpu = Raise e -> plain e.
Proof. intro H. apply int_Raise in H as [-> | ->]; exact I. Qed.

Lemma plain_fmt_i_float f e : Py.fmt_i_float f = Raise e -> plain e.
Proof.
  unfold Py.fmt_i_float. destruct (Py.int f) as [z | e' |] eqn:E; intro H;
    inversion H. subst. apply int_Raise in E as [-> | ->]; exact I.
Qed.

Lemma plain_int_sub_float c margin e : int_sub_float c margin = Raise e -> plain e.
Proof.
  unfold int_sub_float, obind. destruct (Py.float_of_int c) as [f | e' |] eqn:E;
    intro H; inversion H. subst. apply float_of_int_Raise in E. subst. exact I.
Qed.

Lemma plain_counts_to_um c ecpu e : counts_to_um c ecpu = Raise e -> plain e.
Proof. intro H. apply counts_to_um_Raise in H as [-> | ->]; exact I. Qed.

Create HintDb reported.
#[local] Hint Resolve plain_decode plain_encode plain_um_to_counts
  plain_fmt_i_float plain_int_sub_float plain_counts_to_um : reported.

Ltac reported_step :=
  first
    [ solve [auto with reported]
    | progress cbv zeta
    | apply raises_at_bind; [ | intro ]
    | apply raises_at_ret
    | apply raises_at_get
    | apply raises_at_modify
    | apply raises_at_diverge
    | apply raises_at_port_write
    | apply raises_at_port_readline
    | apply raises_at_port_read
    | apply raises_at_raise; intro; exact I
    | apply raises_at_assert; intro; exact I
    | apply raises_at_lift; intros ? ? ?; apply reported_plain;
      solve [eauto with reported]
    | match goal with
      | |- raises_at _ (if ?c then _ else _) => destruct c
      | |- raises_at _ (match ?v with _ => _ end) => destruct v
      end ].

Lemma reported__check_errors : raises_at reported _check_errors.
Proof.
  intros s e s' H. unfold _check_errors in H.
  apply bind_Raise in H as [H | (u & s1 & H1 & H)]; [discriminate H |].
  injection H1 as _ <-.
  apply bind_Raise in H as [H | (r & s2 & H1 & H)];
    [rewrite port_readline_run in H; discriminate H |].
  rewrite port_readline_run in H1. injection H1 as <- <-.
  apply bind_Raise in H as [H | (u2 & s3 & H1 & H)]; [discriminate H |].
  injection H1 as _ <-.
  match type of H with (if ?c then _ else _) _ = _ => destruct c eqn:Ee end;
    [| discriminate H].
  apply bind_Raise in H as [H | (nm & s4 & H1 & H)]; [discriminate H |].
  injection H1 as <- <-.
  apply bind_Raise in H as [H | (msg & s5 & H1 & H)].
  - injection H as H <-. apply reported_plain. eapply plain_decode, H.
  - injection H1 as H1 <-. injection H as <- <-. cbn.
    split; [reflexivity |]. split.
    + unfold decode in H1. destruct (is_ascii _); inversion H1. reflexivity.
    + apply negb_true_iff in Ee. intro E.
      refine (eq_true_false_abs _ _ Ee). apply bytes_eqb_eq. exact E.
Qed.
#[local] Hint Resolve reported__check_errors : reported.

Lemma reported_read_responses fuel acc : raises_at reported (read_responses fuel acc).
Proof.
  revert acc. induction fuel as [| fuel IH]; intro acc; cbn [read_responses];
    repeat reported_step.
Qed.
#[local] Hint Resolve reported_read_responses : reported.

Lemma reported__send cmd respond : raises_at reported (_send cmd respond).
Proof. unfold _send, port_in_waiting. repeat reported_step. Qed.
#[local] Hint Resolve reported__send : reported.

Lemma reported__send_ cmd : raises_at reported (_send_ cmd).
Proof. unfold _send_. repeat reported_step. Qed.
#[local] Hint Resolve reported__send_ : reported.

Lemma reported_poll fuel : raises_at reported (poll fuel).
Proof. induction fuel as [| fuel IH]; cbn [poll]; repeat reported_step. Qed.
#[local] Hint Resolve reported_poll : reported.

Lemma reported__finish_moving fuel : raises_at reported (_finish_moving fuel).
Proof. unfold _finish_moving. repeat reported_step. Qed.
#[local] Hint Resolve reported__finish_moving : reported.

(** [self.error == b'0\n'] *)
Definition no_error (s : Controller) : Prop := Self.error s = line "0".

Lemma no_error__check_errors : establishes no_error _check_errors.
Proof. intros s a s' H. apply _check_errors_Return in H as [_ H]. exact H. Qed.

Lemma no_error__send cmd respond : establishes no_error (_send cmd respond).
Proof.
  unfold _send.
  last_until ltac:(apply establishes_bind;
                     [apply no_error__check_errors | intro; apply preserves_ret]).
Qed.

Lemma no_error__send_ cmd : establishes no_error (_send_ cmd).
Proof.
  unfold _send_. apply establishes_bind;
    [apply no_error__send | intro; apply preserves_ret].
Qed.

Lemma no_error_modify f :
  (forall s, Self.error (f s) = Self.error s) -> preserves no_error (modify f).
Proof. intro H. apply preserves_modify. unfold no_error. intros s E. rewrite H. exact E. Qed.

Lemma no_error__finish_moving fuel : preserves no_error (_finish_moving fuel).
Proof.
  unfold _finish_moving. apply preserves_bind; [apply preserves_get | intro moving].
  destruct (negb moving); [apply preserves_ret |].
  apply establishes_preserves. last_until ltac:(apply no_error__check_errors).
Qed.

Section ErrorAttribute.

Variable float_of_str : string -> option float.

Lemma plain_parse_values rs e : parse_values float_of_str rs = Raise e -> plain e.
Proof. intro H. apply parse_values_Raise in H as [-> | ->]; exact I. Qed.

Lemma reported_get_position_mm : raises_at reported (get_position_mm float_of_str).
Proof.
  pose proof plain_parse_values.
  unfold get_position_mm. repeat reported_step.
Qed.

Lemma no_error_get_position_mm : establishes no_error (get_position_mm float_of_str).
Proof.
  unfold get_position_mm.
  apply establishes_bind; [apply no_error__send | intro rs].
  repeat preserves_step ltac:(apply no_error_modify; intro; reflexivity).
Qed.

Lemma no_error_move_mm fuel x y relative block :
  establishes no_error (move_mm float_of_str fuel x y relative block).
Proof.
  unfold move_mm.
  last_until ltac:(
    apply establishes_bind; [apply no_error__send_ | intro];
    apply preserves_bind; [apply no_error_modify; intro; reflexivity | intro];
    destruct block; [apply no_error__finish_moving | apply preserves_ret]).
Qed.

(** [self.error] is the answer to the last [ERR?].  After a call that
    returns it is [b'0\n'] (for [_finish_moving]: if it was so before, since
    the call may have nothing to do); a [RuntimeError] carries the name of
    the adaptor and the decoded text of [self.error], which is then not
    [b'0\n']. *)
Theorem error_attribute_after_call :
  (forall cmd respond,
     establishes no_error (_send cmd respond) /\
     raises_at reported (_send cmd respond)) /\
  (forall enable,
     establishes no_error (_enable_servo enable) /\
     raises_at reported (_enable_servo enable) /\
     establishes no_error (_enable_joystick enable) /\
     raises_at reported (_enable_joystick enable)) /\
  (establishes no_error (get_position_mm float_of_str) /\
   raises_at reported (get_position_mm float_of_str)) /\
  (forall fuel,
     preserves no_error (_finish_moving fuel) /\
     raises_at reported (_finish_moving fuel)) /\
  (forall fuel x y relative block,
     establishes no_error (move_mm float_of_str fuel x y relative block) /\
     raises_at reported (move_mm float_of_str fuel x y relative block)) /\
  (forall xpt ypt margin,
     establishes no_error (set_positional_tolerance_um xpt ypt margin) /\
     raises_at reported (set_positional_tolerance_um xpt ypt margin)) /\
  (forall a1 a2,
     (establishes no_error (set_settling_time_ms a1 a2) /\
      raises_at reported (set_settling_time_ms a1 a2)) /\
     (establishes no_error (set_velocity a1 a2) /\
      raises_at reported (set_velocity a1 a2)) /\
     (establishes no_error (set_acceleration a1 a2) /\
      raises_at reported (set_acceleration a1 a2)) /\
     (establishes no_error (set_deceleration a1 a2) /\
      raises_at reported (set_deceleration a1 a2))).
Proof.
  pose proof reported_get_position_mm as Hg.
  split; [intros; split; [apply no_error__send | apply reported__send] |].
  split.
  { intro enable. unfold _enable_servo, _enable_joystick.
    repeat split; try solve [repeat reported_step].
    - destruct enable; cbn [negb].
      + apply establishes_bind; [apply no_error__send_ | intro].
        repeat preserves_step ltac:(apply no_error_modify; intro; reflexivity).
      + apply establishes_last; intro.
        apply establishes_bind; [apply no_error__send_ | intro].
        repeat preserves_step ltac:(apply no_error_modify; intro; reflexivity).
    - destruct enable; cbn [negb].
      + apply establishes_bind;
          [apply establishes_last; intro; apply no_error__send_ | intro].
        repeat preserves_step ltac:(apply no_error_modify; intro; reflexivity).
      + apply establishes_last; intro.
        apply establishes_bind;
          [apply establishes_last; intro; apply no_error__send_ | intro].
        repeat preserves_step ltac:(apply no_error_modify; intro; reflexivity). }
  split; [split; [apply no_error_get_position_mm | exact Hg] |].
  split; [intros; split; [apply no_error__finish_moving | apply reported__finish_moving] |].
  split.
  { intros. split; [apply no_error_move_mm |].
    unfold move_mm. repeat reported_step. }
  split.
  { intros. split.
    - unfold set_positional_tolerance_um.
      last_until ltac:(
        apply establishes_bind; [apply no_error__send_ | intro];
        repeat preserves_step ltac:(apply no_error_modify; intro; reflexivity)).
    - unfold set_positional_tolerance_um. repeat reported_step. }
  intros a1 a2.
  repeat split;
    try solve [ cbv [set_settling_time_ms set_velocity set_acceleration set_deceleration];
                repeat reported_step ].
  - unfold set_settling_time_ms. last_until ltac:(apply no_error__send_).
  - unfold set_velocity. last_until ltac:(apply no_error__send_).
  - unfold set_acceleration. last_until ltac:(apply no_error__send_).
  - unfold set_deceleration. last_until ltac:(apply no_error__send_).
Qed.

End ErrorAttribute.

(** ** The [_moving] flag *)

(** If no move was outstanding before, none is after. *)
Definition idle_stays (s s' : Controller) : Prop :=
  Self._moving s = false -> Self._moving s' = false.

Lemma idle_stays_refl s : idle_stays s s.
Proof. intro H. exact H. Qed.



Lemma poll_never_raises fuel s e s' : poll fuel s <> (Raise e, s').
Proof.
  revert s. induction fuel as [| fuel IH]; intros s H; cbn [poll] in H.
  - discriminate H.
  - apply bind_Raise in H as [H | (u & s1 & _ & H)]; [discriminate H |].
    apply bind_Raise in H as [H | (r & s2 & _ & H)]; [discriminate H |].
    destruct (bytes_eqb r (b "0" ++ [LF])); [discriminate H |].
    exact (IH _ H).
Qed.



Section MovingFlag.

Variable float_of_str : string -> option float.




End MovingFlag.

(** ** The target of a move that returns *)

Section MoveTarget.

Variable float_of_str : string -> option float.

(** The part of [move_mm] after the target is assigned and validated. *)
Lemma move_mm_tail_frames fuel cmd (block : bool) s :
  let r := (_send_ cmd ;; modify (Self.set__moving true) ;;
            if block then _finish_moving fuel else ret tt) s in
  Self.x (snd r) = Self.x s /\ Self.y (snd r) = Self.y s /\
  same_limits s (snd r).
Proof.
  cbv zeta.
  match goal with
  | |- context [snd (?m s)] =>
      assert (Kx : keeps (same Self.x) m) by frame_same;
      assert (Ky : keeps (same Self.y) m) by frame_same;
      assert (Kl : same_limits s (snd (m s)))
        by (apply same_limits_of_frames; frame_same)
  end.
  split; [apply Kx |]. split; [apply Ky | exact Kl].
Qed.

Lemma x_in_limits_same s s' :
  same_limits s s' -> Self.x s' = Self.x s -> x_in_limits s' = x_in_limits s.
Proof.
  intros (H1 & H2 & _ & _) Hx. unfold x_in_limits. rewrite H1, H2, Hx. reflexivity.
Qed.

Lemma y_in_limits_same s s' :
  same_limits s s' -> Self.y s' = Self.y s -> y_in_limits s' = y_in_limits s.
Proof.
  intros (_ & _ & H1 & H2) Hy. unfold y_in_limits. rewrite H1, H2, Hy. reflexivity.
Qed.

Lemma move_mm_Return_target fuel x y relative block s u s' :
  move_mm float_of_str fuel x y relative block s = (Return u, s') ->
  x_in_limits s' = true /\ y_in_limits s' = true /\
  (if relative then
     exists s0 px py s1,
       get_position_mm float_of_str s0 = (Return (px, py), s1) /\
       Self.x s' = (px + x)%float /\ Self.y s' = (py + y)%float
   else Self.x s' = x /\ Self.y s' = y) /\
  exists before after,
    written (Self.port s') =
      before ++ tx (mov_cmd (Self.x s') (Self.y s')) ++ after /\
    (block = false -> after = []).
Proof.
  intro H. unfold move_mm in H.
  apply bind_Return in H as (u0 & s0 & _ & H).
  step H.
  apply bind_Return in H as (u1 & s1 & _ & H).
  apply bind_Return in H as (u2 & s2 & Htgt & H).
  assert (Ht : if relative then
                 exists s0 px py s1,
                   get_position_mm float_of_str s0 = (Return (px, py), s1) /\
                   Self.x s2 = (px + x)%float /\ Self.y s2 = (py + y)%float
               else Self.x s2 = x /\ Self.y s2 = y).
  { destruct relative.
    - apply bind_Return in Htgt as ([px py] & sp & Hq & Htgt).
      pose proof (get_position_mm_Return _ _ _ _ _ Hq) as [Ex Ey].
      step Htgt. step Htgt. step Htgt. injection Htgt as _ <-.
      exists s1, px, py, sp. cbn. rewrite Ex, Ey. auto.
    - step Htgt. injection Htgt as _ <-. cbn. auto. }
  clear Htgt.
  step H. step H. step H. step H. step H. step H.
  match goal with
  | Hx : x_in_limits s2 = true, Hy : y_in_limits s2 = true |- _ =>
      rename Hx into Bx; rename Hy into By
  end.
  pose proof (move_mm_tail_frames fuel (mov_cmd (Self.x s2) (Self.y s2)) block s2)
    as (Fx & Fy & Fl).
  cbv zeta in Fx, Fy, Fl.
  assert (Hw : exists after,
             written (Self.port s') =
               written (Self.port s2) ++ tx (mov_cmd (Self.x s2) (Self.y s2)) ++ after /\
             (block = false -> after = [])).
  { apply bind_Return in H as (u3 & s3 & Hmov & H).
    apply _send__Return in Hmov as (cb & Ec & W3).
    rewrite encode_mov_cmd in Ec. injection Ec as <-.
    step H. destruct block.
    - pose proof (prelude__finish_moving fuel (Self.set__moving true s3))
        as (w & W & _).
      rewrite H in W. cbn [snd Self.port Self.set__moving] in W.
      exists w. split; [| discriminate].
      rewrite W, W3, <- app_assoc. reflexivity.
    - injection H as _ <-. exists []. split; [| reflexivity].
      cbn [Self.port Self.set__moving]. rewrite W3, app_nil_r. reflexivity. }
  rewrite H in Fx, Fy, Fl. cbn [snd] in Fx, Fy, Fl.
  split; [rewrite (x_in_limits_same s2 s' Fl Fx); exact Bx |].
  split; [rewrite (y_in_limits_same s2 s' Fl Fy); exact By |].
  split.
  { rewrite Fx, Fy. exact Ht. }
  destruct Hw as (after & W & Hb).
  exists (written (Self.port s2)), after. rewrite Fx, Fy. split; assumption.
Qed.

(** After a move that returns, [self.x], [self.y] hold the target: the
    arguments of an absolute move, the position that the device reported
    plus the arguments of a relative one.  The target is within the limits,
    and it is the one of the [MOV] command that was written, which nothing
    follows if the call did not block. *)
Theorem move_mm_returns_with_target fuel x y relative block s u s' :
  move_mm float_of_str fuel x y relative block s = (Return u, s') ->
  x_in_limits s' = true /\ y_in_limits s' = true /\
  (if relative then
     exists s0 px py s1,
       get_position_mm float_of_str s0 = (Return (px, py), s1) /\
       Self.x s' = (px + x)%float /\ Self.y s' = (py + y)%float
   else Self.x s' = x /\ Self.y s' = y) /\
  exists before after,
    written (Self.port s') =
      before ++ tx (mov_cmd (Self.x s') (Self.y s')) ++ after /\
    (block = false -> after = []).
Proof. apply move_mm_Return_target. Qed.

End MoveTarget.

(** ** A target that is not a number *)

Lemma SFcompare_refl_finite s m e :
  SFcompare (S754_finite s m e) (S754_finite s m e) = Some Eq.
Proof.
  cbn. rewrite Z.compare_refl.
  change (PosDef.Pos.compare_cont Eq m m) with (Pos.compare m m).
  rewrite Pos.compare_refl. destruct s; reflexivity.
Qed.

Lemma is_nan_Prim2SF f : is_nan f = true <-> Prim2SF f = S754_nan.
Proof.
  unfold is_nan. rewrite FloatAxioms.eqb_spec. unfold SFeqb.
  destruct (Prim2SF f) as [s | s | | s m e].
  - split; discriminate.
  - destruct s; split; discriminate.
  - split; reflexivity.
  - rewrite SFcompare_refl_finite. split; discriminate.
Qed.

Lemma leb_nan_r a f : is_nan f = true -> (a <=? f)%float = false.
Proof.
  intro H. apply is_nan_Prim2SF in H. rewrite FloatAxioms.leb_spec, H. unfold SFleb.
  destruct (Prim2SF a); reflexivity.
Qed.

Lemma leb_nan_l f a : is_nan f = true -> (f <=? a)%float = false.
Proof.
  intro H. apply is_nan_Prim2SF in H. rewrite FloatAxioms.leb_spec, H. reflexivity.
Qed.

Lemma add_nan_r p f : is_nan f = true -> is_nan (p + f) = true.
Proof.
  intro H. apply is_nan_Prim2SF in H. apply is_nan_Prim2SF.
  rewrite FloatAxioms.add_spec, H. unfold SF64add, SFadd. destruct (Prim2SF p); reflexivity.
Qed.

Lemma x_in_limits_nan s : is_nan (Self.x s) = true -> x_in_limits s = false.
Proof. intro H. unfold x_in_limits. rewrite (leb_nan_r _ _ H). reflexivity. Qed.

Lemma y_in_limits_nan s : is_nan (Self.y s) = true -> y_in_limits s = false.
Proof. intro H. unfold y_in_limits. rewrite (leb_nan_r _ _ H). reflexivity. Qed.

Section MoveNaN.

Variable float_of_str : string -> option float.

(** A move with a NaN among its arguments does not return, absolute or
    relative: the target is NaN, and no comparison with the limits holds of
    it. *)
Theorem move_mm_nan_does_not_return fuel x y relative block s :
  is_nan x = true \/ is_nan y = true ->
  forall u s',
    move_mm float_of_str fuel x y relative block s <> (Return u, s').
Proof.
  intros Hnan u s' H.
  apply move_mm_Return_target in H as (Bx & By & Ht & _).
  assert (Hn : is_nan (Self.x s') = true \/ is_nan (Self.y s') = true).
  { destruct relative.
    - destruct Ht as (s0 & px & py & s1 & _ & -> & ->).
      destruct Hnan as [Hn | Hn]; [left | right]; apply add_nan_r, Hn.
    - destruct Ht as [-> ->]. exact Hnan. }
  destruct Hn as [Hn | Hn].
  - rewrite (x_in_limits_nan _ Hn) in Bx. discriminate Bx.
  - rewrite (y_in_limits_nan _ Hn) in By. discriminate By.
Qed.

End MoveNaN.

(** ** The servo flag is not read *)

(** The call does the same in a state and in the state changed by [g], and
    [g] goes through. *)
Definition blind (g : Controller -> Controller) {A} (m : M A) : Prop :=
  forall s, m (g s) = (fst (m s), g (snd (m s))).

Section Blind.

Variable g : Controller -> Controller.

Lemma blind_bind {A B} (m : M A) (k : A -> M B) :
  blind g m -> (forall a, blind g (k a)) -> blind g (bind m k).
Proof.
  intros Hm Hk s. unfold bind. rewrite Hm.
  destruct (m s) as [[a| e |] s1]; cbn; [apply Hk | reflexivity | reflexivity].
Qed.

Lemma blind_ret {A} (a : A) : blind g (ret a).
Proof. intro s. reflexivity. Qed.

Lemma blind_raise {A} e : blind g (@raise A e).
Proof. intro s. reflexivity. Qed.

Lemma blind_diverge {A} : blind g (@diverge A).
Proof. intro s. reflexivity. Qed.

Lemma blind_lift {A} (o : outcome A) : blind g (lift o).
Proof. intro s. reflexivity. Qed.

Lemma blind_assert bv site : blind g (assert bv site).
Proof. intro s. destruct bv; reflexivity. Qed.

Lemma blind_get {A} (f : Controller -> A) :
  (forall s, f (g s) = f s) -> blind g (get f).
Proof. intros H s. unfold get. rewrite H. reflexivity. Qed.

Lemma blind_modify h : (forall s, h (g s) = g (h s)) -> blind g (modify h).
Proof. intros H s. unfold modify. rewrite H. reflexivity. Qed.

Hypothesis g_port : forall s, Self.port (g s) = Self.port s.
Hypothesis g_set_port : forall p s, Self.set_port p (g s) = g (Self.set_port p s).

Lemma blind_port_write data : blind g (port_write data).
Proof. intro s. unfold port_write, modify. rewrite g_port, g_set_port. reflexivity. Qed.

Lemma blind_port_readline : blind g port_readline.
Proof.
  intro s. rewrite !port_readline_run. rewrite g_port, g_set_port. reflexivity.
Qed.

Lemma blind_port_read n : blind g (port_read n).
Proof. intro s. unfold port_read. cbn. rewrite g_port, g_set_port. reflexivity. Qed.

Lemma blind_port_in_waiting : blind g port_in_waiting.
Proof. apply blind_get. intro s. rewrite g_port. reflexivity. Qed.

End Blind.

Ltac blind_step :=
  first
    [ assumption
    | match goal with H : _ |- blind _ _ => solve [apply H] end
    | progress cbv zeta
    | apply blind_bind; [ | intro ]
    | apply blind_ret
    | apply blind_raise
    | apply blind_diverge
    | apply blind_lift
    | apply blind_assert
    | apply blind_port_write; intros; reflexivity
    | apply blind_port_readline; intros; reflexivity
    | apply blind_port_read; intros; reflexivity
    | apply blind_port_in_waiting; intros; reflexivity
    | apply blind_get; intro; reflexivity
    | apply blind_modify; intro; reflexivity
    | match goal with
      | |- blind _ (if ?c then _ else _) => destruct c
      | |- blind _ (match ?v with _ => _ end) => destruct v
      end ].

Section ServoFlag.

Variable float_of_str : string -> option float.
Variable v : bool.

Lemma servo__check_errors : blind (Self.set__servo_enabled v) _check_errors.
Proof. unfold _check_errors. repeat blind_step. Qed.

Lemma servo_read_responses fuel acc : blind (Self.set__servo_enabled v) (read_responses fuel acc).
Proof.
  revert acc. induction fuel as [| fuel IH]; intro acc; cbn [read_responses];
    repeat blind_step.
Qed.

Lemma servo__send cmd respond : blind (Self.set__servo_enabled v) (_send cmd respond).
Proof.
  pose proof servo__check_errors. pose proof servo_read_responses.
  unfold _send. repeat blind_step.
Qed.

Lemma servo__send_ cmd : blind (Self.set__servo_enabled v) (_send_ cmd).
Proof. pose proof servo__send. unfold _send_. repeat blind_step. Qed.

Lemma servo_poll fuel : blind (Self.set__servo_enabled v) (poll fuel).
Proof. induction fuel as [| fuel IH]; cbn [poll]; repeat blind_step. Qed.

Lemma servo__finish_moving fuel : blind (Self.set__servo_enabled v) (_finish_moving fuel).
Proof.
  pose proof servo__check_errors. pose proof servo__send_. pose proof servo_poll.
  unfold _finish_moving. repeat blind_step.
Qed.

Lemma servo_get_position_mm : blind (Self.set__servo_enabled v) (get_position_mm float_of_str).
Proof. pose proof servo__send. unfold get_position_mm. repeat blind_step. Qed.

Lemma servo_move_mm fuel x y relative block :
  blind (Self.set__servo_enabled v) (move_mm float_of_str fuel x y relative block).
Proof.
  pose proof servo__finish_moving. pose proof servo__send_.
  pose proof servo_get_position_mm.
  unfold move_mm. repeat blind_step.
Qed.

End ServoFlag.

Section ServoFlagNotRead.

Variable float_of_str : string -> option float.

(** No method reads [_servo_enabled]: with the flag set to any value
    [v] beforehand, a call does the same, writes the same and leaves the same
    state, up to the flag.  In particular [move_mm] writes its [MOV] command
    whether or not the flag says that the servos are enabled. *)
Theorem servo_flag_is_not_read v :
  (forall fuel x y relative block,
     blind (Self.set__servo_enabled v)
       (move_mm float_of_str fuel x y relative block)) /\
  (forall fuel, blind (Self.set__servo_enabled v) (_finish_moving fuel)) /\
  blind (Self.set__servo_enabled v) (get_position_mm float_of_str) /\
  (forall cmd respond, blind (Self.set__servo_enabled v) (_send cmd respond)) /\
  (forall enable, blind (Self.set__servo_enabled v) (_enable_joystick enable)) /\
  (forall xpt ypt margin,
     blind (Self.set__servo_enabled v)
       (set_positional_tolerance_um xpt ypt margin)) /\
  (forall a1 a2,
     blind (Self.set__servo_enabled v) (set_settling_time_ms a1 a2) /\
     blind (Self.set__servo_enabled v) (set_velocity a1 a2) /\
     blind (Self.set__servo_enabled v) (set_acceleration a1 a2) /\
     blind (Self.set__servo_enabled v) (set_deceleration a1 a2)).
Proof.
  pose proof (servo__send_ v) as Hs.
  split; [intros; apply servo_move_mm |].
  split; [intros; apply servo__finish_moving |].
  split; [apply servo_get_position_mm |].
  split; [intros; apply servo__send |].
  split; [intro; unfold _enable_joystick; repeat blind_step |].
  split; [intros; unfold set_positional_tolerance_um; repeat blind_step |].
  intros a1 a2. repeat split.
  - unfold set_settling_time_ms. repeat blind_step.
  - unfold set_velocity. repeat blind_step.
  - unfold set_acceleration. repeat blind_step.
  - unfold set_deceleration. repeat blind_step.
Qed.

End ServoFlagNotRead.

(** ** Reading a value off a reply *)

(** No [=] in the string. *)
Definition no_eq (s : string) : Prop := ~ In "="%char (list_ascii_of_string s).

Lemma no_eq_String c s : no_eq (String c s) -> c <> "="%char /\ no_eq s.
Proof.
  unfold no_eq. cbn. intro H. split.
  - intro E. apply H. left. exact E.
  - intro E. apply H. right. exact E.
Qed.

Lemma eqb_eq_false c : c <> "="%char -> Ascii.eqb c "="%char = false.
Proof. intro H. apply Ascii.eqb_neq. exact H. Qed.

Lemma split_eq_no_eq v : no_eq v -> split_eq v = [v].
Proof.
  induction v as [| c v IH]; intro H; [reflexivity |].
  apply no_eq_String in H as [Hc Hv]. cbn [split_eq].
  rewrite (eqb_eq_false c Hc), (IH Hv). reflexivity.
Qed.

Lemma split_eq_key k rest :
  no_eq k -> split_eq (k ++ String "="%char rest)%string = k :: split_eq rest.
Proof.
  induction k as [| c k IH]; intro H; [reflexivity |].
  apply no_eq_String in H as [Hc Hk]. cbn [String.append split_eq].
  rewrite (eqb_eq_false c Hc), (IH Hk). reflexivity.
Qed.

Section Replies.

Variable float_of_str : string -> option float.

(** [float(v)] *)
Definition float_of (v : string) : outcome float :=
  match float_of_str v with
  | Some f => Return f
  | None => Raise ValueError
  end.

(** [float(a.split('=')[1])]: a reply without [=] raises [IndexError]; of
    a reply [key=value] the value is converted; so it is when a second [=]
    follows, and what comes after it is dropped. *)
Theorem parse_value_key_value :
  (forall a, no_eq a -> parse_value float_of_str a = Raise IndexError) /\
  (forall k v,
     no_eq k -> no_eq v ->
     parse_value float_of_str (k ++ String "="%char v)%string = float_of v) /\
  (forall k v rest,
     no_eq k -> no_eq v ->
     parse_value float_of_str
       (k ++ String "="%char (v ++ String "="%char rest))%string = float_of v).
Proof.
  split; [| split].
  - intros a H. unfold parse_value. rewrite (split_eq_no_eq a H). reflexivity.
  - intros k v Hk Hv. unfold parse_value.
    rewrite (split_eq_key k v Hk), (split_eq_no_eq v Hv). reflexivity.
  - intros k v rest Hk Hv. unfold parse_value.
    rewrite (split_eq_key k _ Hk), (split_eq_key v rest Hv).
    destruct (split_eq rest); reflexivity.
Qed.

(** The exceptions of a position query: those of the transaction, the
    [IndexError] of a reply without [=], the [ValueError] of a value that is
    not a number or of a reply that has not two lines. *)
Definition query_exn (e : exn) : Prop :=
  line_exn e \/ e = ValueError \/ e = IndexError.

Lemma query_exn_get_position_mm : raises query_exn (get_position_mm float_of_str).
Proof.
  unfold get_position_mm.
  apply raises_bind;
    [ apply (raises_weaken line_exn); [intros e H; left; exact H | auto with raises]
    | intro rs ].
  apply raises_bind; [| intro vs].
  - apply raises_lift. intros e H. right.
    apply parse_values_Raise in H. exact H.
  - destruct vs as [| px [| py [| pz l]]]; repeat raises_step;
      right; left; reflexivity.
Qed.

Lemma get_position_mm_Raise s e s' :
  get_position_mm float_of_str s = (Raise e, s') -> io_only s s'.
Proof.
  unfold get_position_mm. intro H.
  apply bind_Raise in H as [H | (rs & s1 & H1 & H)].
  - pose proof (io__send "MOV? 1 2" true s) as K. rewrite H in K. exact K.
  - pose proof (io__send "MOV? 1 2" true s) as K. rewrite H1 in K. cbn [snd] in K.
    apply bind_Raise in H as [H | (vs & s2 & H2 & H)].
    + injection H as _ <-. exact K.
    + injection H2 as _ <-.
      destruct vs as [| px [| py [| pz l]]]; try (injection H as _ <-; exact K).
      apply bind_Raise in H as [H | (u & s3 & _ & H)]; [discriminate H |].
      apply bind_Raise in H as [H | (u' & s4 & _ & H)]; discriminate H.
Qed.

(** [get_position_mm] assigns [self.x], [self.y] together or not at all.
    When it raises, only the line and [self.error] have changed, the
    cached position is as before.  When it returns, the cached position is
    the pair it returns, one transaction is on the line, and nothing else
    has changed but [self.error]. *)
Theorem get_position_mm_all_or_nothing s :
  (forall e s',
     get_position_mm float_of_str s = (Raise e, s') ->
     query_exn e /\ io_only s s' /\
     Self.x s' = Self.x s /\ Self.y s' = Self.y s) /\
  (forall vx vy s',
     get_position_mm float_of_str s = (Return (vx, vy), s') ->
     exists s1,
       io_only s s1 /\
       written (Self.port s1) = written (Self.port s) ++ tx "MOV? 1 2" /\
       s' = Self.set_y vy (Self.set_x vx s1)).
Proof.
  split.
  - intros e s' H. split; [exact (query_exn_get_position_mm _ _ _ H) |].
    apply get_position_mm_Raise in H. split; [exact H |].
    destruct H as (p & er & ->). split; reflexivity.
  - intros vx vy s' H. unfold get_position_mm in H.
    apply bind_Return in H as (rs & s1 & H1 & H).
    exists s1.
    pose proof (io__send "MOV? 1 2" true s) as K. rewrite H1 in K. cbn [snd] in K.
    apply _send_Return in H1 as (cb & E & W). injection E as <-.
    split; [exact K |]. split; [exact W |].
    step H. destruct a as [| px [| py [| pz l]]]; try discriminate H.
    step H. step H. injection H as <- <- <-. reflexivity.
Qed.

End Replies.

Lemma parse_value_key_value_witness :
  parse_value float_of_decimal "1=1.5000000" = Return 1.5%float /\
  parse_value float_of_decimal "1.5000000" = Raise IndexError.
Proof.
  destruct (parse_value_key_value float_of_decimal) as (H0 & H1 & _). split.
  - apply (H1 "1" "1.5000000").
    + intros [H | []]. discriminate H.
    + intro H. cbn in H. repeat destruct H as [H | H]; try discriminate H. exact H.
  - apply H0. intro H. cbn in H.
    repeat destruct H as [H | H]; try discriminate H. exact H.
Defined.


Lemma get_position_mm_all_or_nothing_witness :
  let s := stage true false [line "1=1.5000000"; line "0"] in
  let r := get_position_mm float_of_decimal s in
  fst r = Raise ValueError /\ Self.x (snd r) = 0%float /\ Self.y (snd r) = 0%float.
Proof.
  cbv zeta.
  destruct (get_position_mm_all_or_nothing float_of_decimal
              (stage true false [line "1=1.5000000"; line "0"])) as [H _].
  specialize (H ValueError _ ltac:(vm_compute; reflexivity)).
  destruct H as (_ & _ & Hx & Hy).
  split; [vm_compute; reflexivity |]. split; [exact Hx | exact Hy].
Defined.

(** ** set_positional_tolerance_um: a call that returns *)

(** ['%i' % (c - margin)] *)
Definition enter_count (c : Z) (margin : float) : outcome string :=
  obind (int_sub_float c margin) Py.fmt_i_float.

Lemma encode_spa_exit_cmd xc yc :
  encode (spa_exit_cmd xc yc) = Return (b (spa_exit_cmd xc yc)).
Proof.
  apply encode_ascii. unfold spa_exit_cmd.
  repeat apply is_ascii_b_app; try reflexivity; apply is_ascii_fmt_i.
Qed.

Lemma io_Return {A} (m : M A) s a s' :
  keeps io_only m -> m s = (Return a, s') -> io_only s s'.
Proof. intros K H. specialize (K s). rewrite H in K. exact K. Qed.

Lemma lift_Return {A} (o : outcome A) s a s' :
  lift o s = (Return a, s') -> o = Return a /\ s' = s.
Proof. unfold lift. intro H. injection H as -> <-. auto. Qed.

(** A call that returns has validated the counts of both axes, which it
    computed with the x calibration, against the limits and the margin; has
    written the two commands, each followed by [ERR?]; and has cached the
    counts and the tolerances converted back from them, x with the x
    calibration, y with the y calibration. *)
Lemma set_positional_tolerance_um_Return xpt ypt margin s u s' :
  set_positional_tolerance_um xpt ypt margin s = (Return u, s') ->
  exists xc yc mc xe ye,
    um_to_counts (default xpt (Self.xpt s)) (Self.x_ecpu s) = Return xc /\
    um_to_counts (default ypt (Self.ypt s)) (Self.x_ecpu s) = Return yc /\
    um_to_counts margin (Self.x_ecpu s) = Return mc /\
    (xc < Self.xptc_max s /\ yc <= Self.yptc_max s /\ mc < xc /\ mc < yc) /\
    enter_count xc margin = Return xe /\ enter_count yc margin = Return ye /\
    written (Self.port s') =
      written (Self.port s) ++ tx (spa_exit_cmd xc yc) ++ tx (spa_enter_cmd xe ye) /\
    Self.xptc s' = xc /\ Self.yptc s' = yc /\
    counts_to_um xc (Self.x_ecpu s) = Return (Self.xpt s') /\
    counts_to_um yc (Self.y_ecpu s) = Return (Self.ypt s').
Proof.
  unfold set_positional_tolerance_um. intro H.
  apply bind_Return in H as (vx & s1 & Hx & H).
  assert (Ex : vx = default xpt (Self.xpt s) /\ s1 = s)
    by (destruct xpt; injection Hx as <- <-; auto).
  destruct Ex as [-> ->]. clear Hx.
  apply bind_Return in H as (vy & s1 & Hy & H).
  assert (Ey : vy = default ypt (Self.ypt s) /\ s1 = s)
    by (destruct ypt; injection Hy as <- <-; auto).
  destruct Ey as [-> ->]. clear Hy.
  step H.
  apply bind_Return in H as (xc & s1 & Hxc & H).
  apply lift_Return in Hxc as [Hxc ->].
  step H.
  apply bind_Return in H as (yc & s1 & Hyc & H).
  apply lift_Return in Hyc as [Hyc ->].
  step H.
  apply bind_Return in H as (mc & s1 & Hmc & H).
  apply lift_Return in Hmc as [Hmc ->].
  step H. step H.
  apply bind_Return in H as (u1 & s1 & Ha & H).
  apply assert_Return in Ha as [Hmax ->].
  apply bind_Return in H as (u2 & s1 & Ha & H).
  apply assert_Return in Ha as [Hmar ->].
  cbn [Self.xptc_max Self.yptc_max Self.set_xptc Self.set_yptc] in Hmax.
  apply andb_true_iff in Hmax as [M1 M2], Hmar as [M3 M4].
  apply bind_Return in H as (u3 & s3 & Hs1 & H).
  destruct (io_Return _ _ _ _ (io__send_ _) Hs1) as (p1 & e1 & ->).
  apply _send__Return in Hs1 as (cb1 & Ec1 & W1).
  rewrite encode_spa_exit_cmd in Ec1. injection Ec1 as <-.
  apply bind_Return in H as (fx & s4 & Hfx & H).
  apply lift_Return in Hfx as [Hfx ->].
  apply bind_Return in H as (fy & s4 & Hfy & H).
  apply lift_Return in Hfy as [Hfy ->].
  apply bind_Return in H as (xe & s4 & Hxe & H).
  apply lift_Return in Hxe as [Hxe ->].
  apply bind_Return in H as (ye & s4 & Hye & H).
  apply lift_Return in Hye as [Hye ->].
  apply bind_Return in H as (u4 & s5 & Hs2 & H).
  destruct (io_Return _ _ _ _ (io__send_ _) Hs2) as (p2 & e2 & ->).
  apply _send__Return in Hs2 as (cb2 & Ec2 & W2).
  apply bind_Return in H as (xum & s6 & Hxum & H).
  apply lift_Return in Hxum as [Hxum ->].
  step H. step H.
  apply bind_Return in H as (yum & s6 & Hyum & H).
  apply lift_Return in Hyum as [Hyum ->].
  injection H as _ <-.
  cbn in Hxum, Hyum, W1, W2 |- *.
  exists xc, yc, mc, xe, ye.
  split; [exact Hxc |]. split; [exact Hyc |]. split; [exact Hmc |].
  split; [lia |].
  split; [unfold enter_count; rewrite Hfx; exact Hxe |].
  split; [unfold enter_count; rewrite Hfy; exact Hye |].
  split.
  { rewrite W2, W1, <- app_assoc.
    assert (Ecb : cb2 = b (spa_enter_cmd xe ye)).
    { unfold encode in Ec2. fold (b (spa_enter_cmd xe ye)) in Ec2.
      destruct (is_ascii (b (spa_enter_cmd xe ye))); inversion Ec2. reflexivity. }
    rewrite Ecb. reflexivity. }
  split; [reflexivity |]. split; [reflexivity |].
  split; [exact Hxum | exact Hyum].
Qed.

(** A call of [set_positional_tolerance_um] that returns: the counts of
    both axes were computed with the x calibration and validated
    ([xc < xptc_max], [yc <= yptc_max], both above the margin counts); the
    commands for the exit window and for the enter window were written, each
    followed by [ERR?]; [xptc], [yptc] hold the counts, and [xpt], [ypt] the
    tolerances converted back from the counts (y with the y calibration),
    not the requested ones. *)
Theorem set_positional_tolerance_um_returns xpt ypt margin s u s' :
  set_positional_tolerance_um xpt ypt margin s = (Return u, s') ->
  exists xc yc mc xe ye,
    um_to_counts (default xpt (Self.xpt s)) (Self.x_ecpu s) = Return xc /\
    um_to_counts (default ypt (Self.ypt s)) (Self.x_ecpu s) = Return yc /\
    um_to_counts margin (Self.x_ecpu s) = Return mc /\
    (xc < Self.xptc_max s /\ yc <= Self.yptc_max s /\ mc < xc /\ mc < yc) /\
    enter_count xc margin = Return xe /\ enter_count yc margin = Return ye /\
    written (Self.port s') =
      written (Self.port s) ++ tx (spa_exit_cmd xc yc) ++ tx (spa_enter_cmd xe ye) /\
    Self.xptc s' = xc /\ Self.yptc s' = yc /\
    counts_to_um xc (Self.x_ecpu s) = Return (Self.xpt s') /\
    counts_to_um yc (Self.y_ecpu s) = Return (Self.ypt s').
Proof. apply set_positional_tolerance_um_Return. Qed.

Lemma set_positional_tolerance_um_returns_witness :
  let s := stage true false (ack ++ ack) in
  let s' := snd (set_positional_tolerance_um (Some 2.5%float) None Py.f0_1 s) in
  exists xc yc mc xe ye,
    um_to_counts 2.5 10000 = Return xc /\
    um_to_counts 1 10000 = Return yc /\
    um_to_counts Py.f0_1 10000 = Return mc /\
    (xc < 99 /\ yc <= 99 /\ mc < xc /\ mc < yc) /\
    enter_count xc Py.f0_1 = Return xe /\ enter_count yc Py.f0_1 = Return ye /\
    written (Self.port s') =
      [] ++ tx (spa_exit_cmd xc yc) ++ tx (spa_enter_cmd xe ye) /\
    Self.xptc s' = xc /\ Self.yptc s' = yc /\
    counts_to_um xc 10000 = Return (Self.xpt s') /\
    counts_to_um yc 10000 = Return (Self.ypt s').
Proof.
  apply (set_positional_tolerance_um_returns (Some 2.5%float) None Py.f0_1
           (stage true false (ack ++ ack)) tt).
  vm_compute. reflexivity.
Defined.

(** ** The enter window that is sent *)

(** [p] holds of the [n] integers from [from] on. *)
Fixpoint all_from (n : nat) (p : Z -> bool) (from : Z) : bool :=
  match n with
  | O => true
  | S n' => p from && all_from n' p (from + 1)
  end.

Lemma all_from_spec n p : forall from,
  all_from n p from = true ->
  forall z, from <= z < from + Z.of_nat n -> p z = true.
Proof.
  induction n as [| n IH]; intros from H z Hz; [lia |].
  cbn [all_from] in H. apply andb_true_iff in H as [H0 H].
  destruct (Z.eq_dec z from) as [-> | Hne]; [exact H0 |].
  apply (IH (from + 1) H). lia.
Qed.

(** [int(c - 0.1) == c - 1] *)
Definition enter_is_pred (c : Z) : bool :=
  match obind (int_sub_float c Py.f0_1) Py.int with
  | Return z => z =? c - 1
  | _ => false
  end.

Lemma enter_is_pred_upto : all_from (Z.to_nat 65536) enter_is_pred 1 = true.
Proof. vm_compute. reflexivity. Qed.

(** With the default margin (0.1, a length in micrometres) the count for
    the enter window, ['%i' % (c - margin)], is [c - 1] for every count [c]
    from 1 to 65536: one count below the exit window whatever the
    calibration, while the validation before it compared [c] with the margin
    converted to counts. *)
Theorem enter_count_default_margin c :
  1 <= c <= 65536 -> enter_count c Py.f0_1 = Return (Py.fmt_i (c - 1)).
Proof.
  intro Hc.
  pose proof (all_from_spec _ enter_is_pred 1 enter_is_pred_upto c) as H.
  rewrite Z2Nat.id in H by lia.
  specialize (H ltac:(lia)). unfold enter_is_pred in H.
  unfold enter_count, Py.fmt_i_float.
  destruct (int_sub_float c Py.f0_1) as [f | e |]; cbn [obind] in *;
    try discriminate H.
  destruct (Py.int f) as [z | e |]; try discriminate H.
  apply Z.eqb_eq in H. subst z. reflexivity.
Qed.

Lemma enter_count_default_margin_witness :
  enter_count 50 Py.f0_1 = Return "49".
Proof. apply (enter_count_default_margin 50). lia. Defined.

(** ** A tolerance that is not finite *)

(** [math.isfinite(f)] *)
Definition isfinite (f : float) : bool :=
  match Prim2SF f with
  | S754_zero _ | S754_finite _ _ _ => true
  | S754_infinity _ | S754_nan => false
  end.

Lemma um_to_counts_not_finite um ecpu :
  isfinite um = false ->
  (is_nan um = true -> um_to_counts um ecpu = Raise ValueError) /\
  (um_to_counts um ecpu = Raise ValueError \/
   um_to_counts um ecpu = Raise OverflowError).
Proof.
  unfold isfinite, um_to_counts, Py.int. intro H.
  rewrite !FloatAxioms.mul_spec.
  destruct (Prim2SF um) as [s | s | | s m e] eqn:E; try discriminate H.
  - split.
    + intro Hn. apply is_nan_Prim2SF in Hn. congruence.
    + change (Prim2SF Py.f1e_3) with (S754_finite false 4611686018427388 (-62)).
      cbn [SF64mul SFmul xorb].
      destruct (Prim2SF ecpu); cbn; auto.
  - split; [intros _ |];
      change (Prim2SF Py.f1e_3) with (S754_finite false 4611686018427388 (-62));
      cbn; auto.
Qed.

(** A requested x tolerance that is NaN or infinite makes the call raise
    at the first conversion, [ValueError] for NaN and [ValueError] or
    [OverflowError] for an infinity, with the controller as it was. *)
Theorem set_positional_tolerance_um_not_finite s xpt ypt margin :
  isfinite xpt = false ->
  let r := set_positional_tolerance_um (Some xpt) ypt margin s in
  snd r = s /\
  (fst r = Raise ValueError \/ fst r = Raise OverflowError) /\
  (is_nan xpt = true -> fst r = Raise ValueError).
Proof.
  intros H r. subst r.
  destruct (um_to_counts_not_finite xpt (Self.x_ecpu s) H) as [Hn Hr].
  assert (E : forall e, um_to_counts xpt (Self.x_ecpu s) = Raise e ->
              set_positional_tolerance_um (Some xpt) ypt margin s = (Raise e, s)).
  { intros e He. unfold set_positional_tolerance_um.
    destruct ypt; cbv [bind ret get lift]; rewrite He; reflexivity. }
  split; [| split].
  - destruct Hr as [Hr | Hr]; rewrite (E _ Hr); reflexivity.
  - destruct Hr as [Hr | Hr]; rewrite (E _ Hr); auto.
  - intro Hnan. rewrite (E _ (Hn Hnan)). reflexivity.
Qed.

Lemma set_positional_tolerance_um_not_finite_witness :
  let s := stage true false [] in
  let r := set_positional_tolerance_um (Some infinity) None Py.f0_1 s in
  snd r = s /\ (fst r = Raise ValueError \/ fst r = Raise OverflowError).
Proof.
  destruct (set_positional_tolerance_um_not_finite (stage true false [])
              infinity None Py.f0_1 eq_refl) as (H1 & H2 & _).
  split; assumption.
Defined.

(** ** The exceptions of the methods *)

Lemma byte_m2_Some r :
  endswith_LF r = true -> (List.length r =? 1)%nat = false -> byte_m2 r <> None.
Proof.
  intros El E1 H. unfold byte_m2 in H. apply nth_error_None in H.
  rewrite length_rev in H. apply endswith_LF_nonempty in El.
  destruct r as [| c [| c' r]]; [contradiction | discriminate E1 | cbn in H; lia].
Qed.

(** What a transaction raises when the device does not answer as
    expected: unread input, an error number, an answer that is not ASCII. *)
Definition reply_exn (e : exn) : Prop :=
  match e with
  | AssertionError AssertInWaiting | RuntimeError _ _ | UnicodeDecodeError => True
  | _ => False
  end.

(** ... and the reply to a query that breaks off without terminator. *)
Definition query_reply_exn (e : exn) : Prop :=
  reply_exn e \/ e = AssertionError AssertTerminator.

Lemma reply_exn__check_errors : raises reply_exn _check_errors.
Proof.
  unfold _check_errors. repeat raises_step; try exact I.
  match goal with H : decode _ = Raise _ |- _ => apply decode_Raise in H; subst end.
  exact I.
Qed.

(** [response[-2]] is never out of range: the loop raises no [IndexError]. *)
Lemma query_reply_exn_read_responses fuel :
  forall acc, raises query_reply_exn (read_responses fuel acc).
Proof.
  induction fuel as [| fuel IH]; intro acc; cbn [read_responses].
  - apply raises_diverge.
  - intros s e s' H.
    apply bind_Raise in H as [H | (r & s1 & _ & H)];
      [rewrite port_readline_run in H; discriminate H |].
    apply bind_Raise in H as [H | (u & s2 & Ha & H)].
    + destruct (endswith_LF r); [discriminate H |].
      injection H as <- _. right. reflexivity.
    + apply assert_Return in Ha as [El ->].
      apply bind_Raise in H as [H | (t & s3 & _ & H)].
      * injection H as H _. apply decode_Raise in H. subst e. left. exact I.
      * destruct (List.length r =? 1)%nat eqn:E1; [discriminate H |].
        pose proof (byte_m2_Some r El E1) as Hb.
        destruct (byte_m2 r) as [c |]; [| contradiction].
        destruct (negb (Byte.eqb c SP)); [discriminate H |].
        exact (IH _ _ _ _ H).
Qed.

Lemma is_ascii_encode cmd : is_ascii (b cmd) = true -> forall e, encode cmd <> Raise e.
Proof. intros H e. rewrite (encode_ascii cmd H). discriminate. Qed.

Lemma query_reply_exn__send cmd respond :
  is_ascii (b cmd) = true -> raises query_reply_exn (_send cmd respond).
Proof.
  intro Ha. pose proof query_reply_exn_read_responses.
  pose proof (raises_weaken reply_exn query_reply_exn _check_errors
                (fun e H => or_introl H) reply_exn__check_errors).
  unfold _send, port_in_waiting. repeat raises_step.
  - exfalso. eapply is_ascii_encode; eassumption.
  - left. exact I.
Qed.

Lemma reply_exn__send_ cmd :
  is_ascii (b cmd) = true -> raises reply_exn (_send_ cmd).
Proof.
  intro Ha. pose proof reply_exn__check_errors.
  unfold _send_, _send, port_in_waiting. repeat raises_step.
  - exfalso. eapply is_ascii_encode; eassumption.
  - exact I.
Qed.

Lemma is_ascii_rate_cmd mnemonic vx vy :
  is_ascii (b mnemonic) = true -> is_ascii (b (rate_cmd mnemonic vx vy)) = true.
Proof.
  intro H. unfold rate_cmd.
  repeat apply is_ascii_b_app; try reflexivity; try apply is_ascii_fmt_9f. exact H.
Qed.

Lemma is_ascii_spa_settle_cmd vx vy : is_ascii (b (spa_settle_cmd vx vy)) = true.
Proof.
  unfold spa_settle_cmd.
  repeat apply is_ascii_b_app; try reflexivity; apply is_ascii_fmt_9f.
Qed.

Lemma is_ascii_mov_cmd vx vy : is_ascii (b (mov_cmd vx vy)) = true.
Proof.
  unfold mov_cmd.
  repeat apply is_ascii_b_app; try reflexivity; apply is_ascii_fmt_9f.
Qed.

Lemma is_ascii_spa_exit_cmd xc yc : is_ascii (b (spa_exit_cmd xc yc)) = true.
Proof.
  unfold spa_exit_cmd.
  repeat apply is_ascii_b_app; try reflexivity; apply is_ascii_fmt_i.
Qed.

Lemma is_ascii_fmt_i_float f xe :
  Py.fmt_i_float f = Return xe -> is_ascii (b xe) = true.
Proof.
  unfold Py.fmt_i_float. destruct (Py.int f); intro H; inversion H.
  apply is_ascii_fmt_i.
Qed.

Lemma is_ascii_spa_enter_cmd xe ye :
  is_ascii (b xe) = true -> is_ascii (b ye) = true ->
  is_ascii (b (spa_enter_cmd xe ye)) = true.
Proof.
  intros Hx Hy. unfold spa_enter_cmd.
  repeat apply is_ascii_b_app; try reflexivity; assumption.
Qed.

(** The exceptions of [set_positional_tolerance_um]: its two assertions,
    the conversions ([int] of a float that is not finite, a zero
    calibration), and the line. *)
Definition tolerance_exn (e : exn) : Prop :=
  reply_exn e \/
  e = AssertionError AssertToleranceMax \/
  e = AssertionError AssertToleranceMargin \/
  e = OverflowError \/ e = ValueError \/ e = ZeroDivisionError.

Lemma raises_lift_bind (P : exn -> Prop) {A B} (o : outcome A) (k : A -> M B) :
  (forall e, o = Raise e -> P e) ->
  (forall a, o = Return a -> raises P (k a)) -> raises P (bind (lift o) k).
Proof.
  intros Ho Hk s e s' H. unfold bind, lift in H. destruct o as [a | e' |].
  - eapply Hk; [reflexivity | exact H].
  - injection H as <- _. apply Ho. reflexivity.
  - discriminate H.
Qed.

Section Exceptions.

Variable float_of_str : string -> option float.

Lemma query_exn_position :
  raises (fun e => query_reply_exn e \/ e = ValueError \/ e = IndexError)
    (get_position_mm float_of_str).
Proof.
  unfold get_position_mm.
  apply raises_bind;
    [ apply (raises_weaken query_reply_exn);
      [intros e H; left; exact H | apply query_reply_exn__send; reflexivity]
    | intro rs ].
  apply raises_bind; [| intro vs].
  - apply raises_lift. intros e H. right. apply parse_values_Raise in H. exact H.
  - destruct vs as [| px [| py [| pz l]]]; repeat raises_step;
      right; left; reflexivity.
Qed.

Lemma reply_exn__finish_moving fuel : raises reply_exn (_finish_moving fuel).
Proof.
  pose proof reply_exn__check_errors.
  pose proof (reply_exn__send_ "HIN 1 1" eq_refl).
  pose proof (reply_exn__send_ "HIN 2 1" eq_refl).
  assert (raises reply_exn (poll fuel))
    by (intros s e s' Hp; exfalso; exact (poll_never_raises _ _ _ _ Hp)).
  unfold _finish_moving. repeat raises_step.
Qed.

(** What a caller has to expect.  The commands that the driver formats
    are ASCII, and [response[-2]] is read of lines of two bytes or more: no
    method raises [UnicodeEncodeError], and none raises [IndexError] but for
    a position reply without [=].  The setters raise their own assertion or
    fail on the answer of the device; [move_mm] raises one of its two limit
    assertions, fails on the answer of the device, or, when relative, on the
    position reply. *)
Theorem exceptions_of_the_methods :
  (forall enable,
     raises reply_exn (_enable_servo enable) /\
     raises reply_exn (_enable_joystick enable)) /\
  (forall fuel, raises reply_exn (_finish_moving fuel)) /\
  raises (fun e => query_reply_exn e \/ e = ValueError \/ e = IndexError)
    (get_position_mm float_of_str) /\
  (forall fuel x y block,
     raises (fun e => reply_exn e \/ is_limit e)
       (move_mm float_of_str fuel x y false block)) /\
  (forall fuel x y block,
     raises (fun e => query_reply_exn e \/ is_limit e \/
                      e = ValueError \/ e = IndexError)
       (move_mm float_of_str fuel x y true block)) /\
  (forall xpt ypt margin,
     raises tolerance_exn (set_positional_tolerance_um xpt ypt margin)) /\
  (forall a1 a2,
     raises (fun e => reply_exn e \/ e = AssertionError AssertSettlingTime)
       (set_settling_time_ms a1 a2) /\
     raises (fun e => reply_exn e \/ e = AssertionError AssertVelocity)
       (set_velocity a1 a2) /\
     raises (fun e => reply_exn e \/ e = AssertionError AssertAcceleration)
       (set_acceleration a1 a2) /\
     raises (fun e => reply_exn e \/ e = AssertionError AssertDeceleration)
       (set_deceleration a1 a2)).
Proof.
  assert (Hsend : forall (P : exn -> Prop) cmd,
            (forall e, reply_exn e -> P e) ->
            is_ascii (b cmd) = true -> raises P (_send_ cmd)).
  { intros P cmd HP Ha. apply (raises_weaken reply_exn); [exact HP |].
    apply reply_exn__send_, Ha. }
  assert (Hfin : forall (P : exn -> Prop) fuel,
            (forall e, reply_exn e -> P e) -> raises P (_finish_moving fuel)).
  { intros P fuel HP. apply (raises_weaken reply_exn); [exact HP |].
    apply reply_exn__finish_moving. }
  split.
  { intro enable. split.
    - unfold _enable_servo.
      repeat first [ solve [apply Hsend; auto] | raises_step ].
    - unfold _enable_joystick.
      repeat first [ solve [apply Hsend; auto] | raises_step ]. }
  split; [apply reply_exn__finish_moving |].
  split; [apply query_exn_position |].
  split.
  { intros fuel x y block. unfold move_mm.
    repeat first
      [ solve [apply Hfin; intros; left; assumption]
      | solve [apply Hsend; [intros; left; assumption
                            | first [reflexivity | apply is_ascii_mov_cmd]]]
      | raises_step ];
      first [right; left; reflexivity | right; right; reflexivity]. }
  split.
  { intros fuel x y block. unfold move_mm.
    repeat first
      [ solve [apply Hfin; intros; left; left; assumption]
      | solve [apply Hsend; [intros; left; left; assumption
                            | first [reflexivity | apply is_ascii_mov_cmd]]]
      | solve [apply (raises_weaken _ _ _ (fun e H => or_ind (fun H1 => or_introl H1)
                        (fun H2 => or_intror (or_intror H2)) H) query_exn_position)]
      | raises_step ];
      first [right; left; left; reflexivity | right; left; right; reflexivity]. }
  split.
  { intros xpt ypt margin. unfold set_positional_tolerance_um.
    repeat first
      [ lazymatch goal with
        | |- raises _ (_send_ (spa_exit_cmd _ _)) =>
            apply Hsend; [intros; left; assumption | apply is_ascii_spa_exit_cmd]
        | |- raises _ (_send_ (spa_enter_cmd _ _)) =>
            apply Hsend;
            [ intros; left; assumption
            | apply is_ascii_spa_enter_cmd;
              eapply is_ascii_fmt_i_float; eassumption ]
        end
      | lazymatch goal with
        | |- raises _ (bind (lift _) _) =>
            apply raises_lift_bind; [intros ? ? | intros ? ?]
        end
      | raises_step ];
      unfold tolerance_exn;
      try match goal with
          | H : um_to_counts _ _ = Raise _ |- _ =>
              apply int_Raise in H as [-> | ->]; tauto
          | H : int_sub_float _ _ = Raise _ |- _ =>
              unfold int_sub_float, obind in H;
              destruct (Py.float_of_int _) eqn:Ef; inversion H; subst;
              apply float_of_int_Raise in Ef; subst; tauto
          | H : Py.fmt_i_float _ = Raise _ |- _ =>
              unfold Py.fmt_i_float in H;
              destruct (Py.int _) eqn:Ef; inversion H; subst;
              apply int_Raise in Ef as [-> | ->]; tauto
          | H : counts_to_um _ _ = Raise _ |- _ =>
              apply counts_to_um_Raise in H as [-> | ->]; tauto
          end;
      tauto. }
  intros a1 a2. repeat split.
  - unfold set_settling_time_ms.
    repeat first
      [ solve [apply Hsend; [intros; left; assumption | apply is_ascii_spa_settle_cmd]]
      | raises_step ];
      right; reflexivity.
  - unfold set_velocity.
    repeat first
      [ solve [apply Hsend; [intros; left; assumption | apply is_ascii_rate_cmd; reflexivity]]
      | raises_step ];
      right; reflexivity.
  - unfold set_acceleration.
    repeat first
      [ solve [apply Hsend; [intros; left; assumption | apply is_ascii_rate_cmd; reflexivity]]
      | raises_step ];
      right; reflexivity.
  - unfold set_deceleration.
    repeat first
      [ solve [apply Hsend; [intros; left; assumption | apply is_ascii_rate_cmd; reflexivity]]
      | raises_step ];
      right; reflexivity.
Qed.

End Exceptions.

(** ** What is read at construction stays *)

(** The name, the calibration, the travel limits and the maxima of
    tolerance, velocity, acceleration and deceleration are the same in both
    states. *)
Definition same_device (s s' : Controller) : Prop :=
  Self.name s' = Self.name s /\
  (Self.x_ecpu s' = Self.x_ecpu s /\ Self.y_ecpu s' = Self.y_ecpu s) /\
  same_limits s s' /\
  (Self.xptc_max s' = Self.xptc_max s /\ Self.yptc_max s' = Self.yptc_max s /\
   Self.xpt_max s' = Self.xpt_max s /\ Self.ypt_max s' = Self.ypt_max s) /\
  (Self.xv_max s' = Self.xv_max s /\ Self.yv_max s' = Self.yv_max s) /\
  (Self.xa_max s' = Self.xa_max s /\ Self.ya_max s' = Self.ya_max s) /\
  (Self.xd_max s' = Self.xd_max s /\ Self.yd_max s' = Self.yd_max s).

Lemma same_device_of_frames {A} (m : M A) :
  keeps (same Self.name) m ->
  keeps (same Self.x_ecpu) m -> keeps (same Self.y_ecpu) m ->
  keeps (same Self.x_min) m -> keeps (same Self.x_max) m ->
  keeps (same Self.y_min) m -> keeps (same Self.y_max) m ->
  keeps (same Self.xptc_max) m -> keeps (same Self.yptc_max) m ->
  keeps (same Self.xpt_max) m -> keeps (same Self.ypt_max) m ->
  keeps (same Self.xv_max) m -> keeps (same Self.yv_max) m ->
  keeps (same Self.xa_max) m -> keeps (same Self.ya_max) m ->
  keeps (same Self.xd_max) m -> keeps (same Self.yd_max) m ->
  keeps same_device m.
Proof.
  intros H1 H2 H3 H4 H5 H6 H7 H8 H9 H10 H11 H12 H13 H14 H15 H16 H17 s.
  unfold same_device, same_limits.
  repeat split;
    first [ apply H1 | apply H2 | apply H3 | apply H4 | apply H5 | apply H6
          | apply H7 | apply H8 | apply H9 | apply H10 | apply H11 | apply H12
          | apply H13 | apply H14 | apply H15 | apply H16 | apply H17 ].
Qed.

Ltac frame_device := apply same_device_of_frames; frame_same.

Section Device.

Variable float_of_str : string -> option float.

Lemma device__finish_moving fuel : keeps same_device (_finish_moving fuel).
Proof. unfold _finish_moving. frame_device. Qed.

Lemma device_get_position_mm : keeps same_device (get_position_mm float_of_str).
Proof. unfold get_position_mm. frame_device. Qed.

Lemma device_move_mm fuel x y relative block :
  keeps same_device (move_mm float_of_str fuel x y relative block).
Proof. unfold move_mm, _finish_moving, get_position_mm. frame_device. Qed.

(** No method assigns what the constructor read of the device: after any
    call, whatever its outcome, the name, the calibration, the travel
    limits and the maxima are as before. *)
Theorem device_constants_are_kept :
  (forall cmd respond, keeps same_device (_send cmd respond)) /\
  (forall enable,
     keeps same_device (_enable_servo enable) /\
     keeps same_device (_enable_joystick enable)) /\
  keeps same_device (get_position_mm float_of_str) /\
  (forall fuel, keeps same_device (_finish_moving fuel)) /\
  (forall fuel x y relative block,
     keeps same_device (move_mm float_of_str fuel x y relative block)) /\
  (forall xpt ypt margin,
     keeps same_device (set_positional_tolerance_um xpt ypt margin)) /\
  (forall a1 a2,
     keeps same_device (set_settling_time_ms a1 a2) /\
     keeps same_device (set_velocity a1 a2) /\
     keeps same_device (set_acceleration a1 a2) /\
     keeps same_device (set_deceleration a1 a2)).
Proof.
  split; [intros; frame_device |].
  split.
  { intro enable. split.
    - unfold _enable_servo. frame_device.
    - unfold _enable_joystick. frame_device. }
  split; [apply device_get_position_mm |].
  split; [apply device__finish_moving |].
  split; [apply device_move_mm |].
  split; [intros; unfold set_positional_tolerance_um; frame_device |].
  intros a1 a2. split; [| split; [| split]].
  - unfold set_settling_time_ms. frame_device.
  - unfold set_velocity. frame_device.
  - unfold set_acceleration. frame_device.
  - unfold set_deceleration. frame_device.
Qed.

End Device.

(** ** The cached tolerances are the cached counts converted *)

(** [xpt == 1e3 * xptc / x_ecpu] and [ypt == 1e3 * yptc / y_ecpu] *)
Definition tolerance_cached (s : Controller) : Prop :=
  counts_to_um (Self.xptc s) (Self.x_ecpu s) = Return (Self.xpt s) /\
  counts_to_um (Self.yptc s) (Self.y_ecpu s) = Return (Self.ypt s).

(** The six attributes of [tolerance_cached] are the same in both states. *)
Definition same_tolerance (s s' : Controller) : Prop :=
  (Self.xptc s' = Self.xptc s /\ Self.yptc s' = Self.yptc s) /\
  (Self.xpt s' = Self.xpt s /\ Self.ypt s' = Self.ypt s) /\
  (Self.x_ecpu s' = Self.x_ecpu s /\ Self.y_ecpu s' = Self.y_ecpu s).

Lemma same_tolerance_of_frames {A} (m : M A) :
  keeps (same Self.xptc) m -> keeps (same Self.yptc) m ->
  keeps (same Self.xpt) m -> keeps (same Self.ypt) m ->
  keeps (same Self.x_ecpu) m -> keeps (same Self.y_ecpu) m ->
  keeps same_tolerance m.
Proof.
  intros H1 H2 H3 H4 H5 H6 s. unfold same_tolerance.
  split; [split; [apply H1 | apply H2] |].
  split; [split; [apply H3 | apply H4] | split; [apply H5 | apply H6]].
Qed.

Lemma tolerance_cached_same s s' :
  same_tolerance s s' -> tolerance_cached s -> tolerance_cached s'.
Proof.
  intros ((A1 & A2) & (B1 & B2) & (C1 & C2)) [Hx Hy]. unfold tolerance_cached.
  rewrite A1, A2, B1, B2, C1, C2. split; assumption.
Qed.

Ltac keeps_tolerance :=
  apply (preserves_keeps tolerance_cached same_tolerance);
  [ apply tolerance_cached_same | apply same_tolerance_of_frames; frame_same ].

Section ToleranceCached.

Variable float_of_str : string -> option float.

(** The conversion of the cached counts is an invariant of the calls that
    return: [set_positional_tolerance_um] establishes it, whatever was
    cached before, and the other methods do not touch what it is about.  (A
    call of [set_positional_tolerance_um] that is rejected breaks it: the
    counts are assigned before they are validated.) *)
Theorem tolerance_cached_is_kept :
  (forall xpt ypt margin,
     establishes tolerance_cached (set_positional_tolerance_um xpt ypt margin)) /\
  (forall fuel x y relative block,
     preserves tolerance_cached (move_mm float_of_str fuel x y relative block)) /\
  (forall fuel, preserves tolerance_cached (_finish_moving fuel)) /\
  preserves tolerance_cached (get_position_mm float_of_str) /\
  (forall enable,
     preserves tolerance_cached (_enable_servo enable) /\
     preserves tolerance_cached (_enable_joystick enable)) /\
  (forall a1 a2,
     preserves tolerance_cached (set_settling_time_ms a1 a2) /\
     preserves tolerance_cached (set_velocity a1 a2) /\
     preserves tolerance_cached (set_acceleration a1 a2) /\
     preserves tolerance_cached (set_deceleration a1 a2)) /\
  (let s := stage true false [] in
   let r := set_positional_tolerance_um (Some 9.9375%float) None Py.f0_1 s in
   tolerance_cached s /\ fst r = Raise (AssertionError AssertToleranceMax) /\
   ~ tolerance_cached (snd r)).
Proof.
  split.
  { intros xpt ypt margin s u s' H.
    assert (Ex : keeps (same Self.x_ecpu) (set_positional_tolerance_um xpt ypt margin))
      by (unfold set_positional_tolerance_um; frame_same).
    assert (Ey : keeps (same Self.y_ecpu) (set_positional_tolerance_um xpt ypt margin))
      by (unfold set_positional_tolerance_um; frame_same).
    specialize (Ex s). specialize (Ey s). rewrite H in Ex, Ey.
    cbn [snd] in Ex, Ey. unfold same in Ex, Ey.
    apply set_positional_tolerance_um_Return in H
      as (xc & yc & mc & xe & ye & _ & _ & _ & _ & _ & _ & _ & Cx & Cy & Ux & Uy).
    unfold tolerance_cached. rewrite Cx, Cy, Ex, Ey. split; assumption. }
  split; [intros; unfold move_mm, _finish_moving, get_position_mm; keeps_tolerance |].
  split; [intros; unfold _finish_moving; keeps_tolerance |].
  split; [unfold get_position_mm; keeps_tolerance |].
  split.
  { intro enable. split.
    - unfold _enable_servo. keeps_tolerance.
    - unfold _enable_joystick. keeps_tolerance. }
  split.
  { intros a1 a2. split; [| split; [| split]].
    - unfold set_settling_time_ms. keeps_tolerance.
    - unfold set_velocity. keeps_tolerance.
    - unfold set_acceleration. keeps_tolerance.
    - unfold set_deceleration. keeps_tolerance. }
  cbv zeta. split; [split; vm_compute; reflexivity |].
  split; [vm_compute; reflexivity |].
  intros [H _]. vm_compute in H. discriminate H.
Qed.

End ToleranceCached.

(** ** The statements above at concrete inputs *)

Lemma _finish_moving_polls_while_busy_witness :
  let s := stage false true [line "1"; []] in
  _finish_moving 3 s =
    (Diverge, Self.set_port (port_polled 3 (Self.port s)) s) /\
  (forall x y relative block,
     move_mm float_of_decimal 3 x y relative block s =
       (Diverge, Self.set_port (port_polled 3 (Self.port s)) s)).
Proof.
  apply (_finish_moving_polls_while_busy float_of_decimal
           (stage false true [line "1"; []]) 3).
  - reflexivity.
  - reflexivity.
  - intro i. destruct i as [| [| [| i]]]; split; cbn; try lia; discriminate.
Defined.

Lemma unread_input_fails_commands_witness :
  let s := with_in_buf [x05] (stage false false []) in
  fst (_enable_joystick true s) = Raise (AssertionError AssertInWaiting) /\
  in_buf (Self.port (snd (_enable_joystick true s))) <> [].
Proof.
  destruct (unread_input_fails_commands (with_in_buf [x05] (stage false false [])))
    as (_ & H & _).
  - discriminate.
  - destruct (H true) as (_ & H1 & _ & H2). split; [exact H1 | exact H2].
Defined.

Lemma move_mm_returns_with_target_witness :
  let s := stage false false ([position_reply; line "0"] ++ ack) in
  let s' := snd (move_mm float_of_decimal 5 1 1 true false s) in
  x_in_limits s' = true /\ y_in_limits s' = true /\
  (exists s0 px py s1,
     get_position_mm float_of_decimal s0 = (Return (px, py), s1) /\
     Self.x s' = (px + 1)%float /\ Self.y s' = (py + 1)%float) /\
  exists before after,
    written (Self.port s') =
      before ++ tx (mov_cmd (Self.x s') (Self.y s')) ++ after /\
    (false = false -> after = []).
Proof.
  apply (move_mm_returns_with_target float_of_decimal 5 1 1 true false
           (stage false false ([position_reply; line "0"] ++ ack)) tt).
  vm_compute. reflexivity.
Defined.

Lemma move_mm_nan_does_not_return_witness :
  fst (move_mm float_of_decimal 5 nan 0 false false (stage false false ack))
    <> Return tt.
Proof.
  intro H.
  apply (move_mm_nan_does_not_return float_of_decimal 5 nan 0 false false
           (stage false false ack) (or_introl eq_refl) tt
           (snd (move_mm float_of_decimal 5 nan 0 false false
                   (stage false false ack)))).
  rewrite <- H. apply surjective_pairing.
Defined.
